(** * HEPunion: deported metadata, directory merging and the inode operations

    A shallow embedding of [fs/hepunion/me.c], of [find_me] of the earlier
    PierreFS me.c, and of the inode, directory and super block operations of
    [opts.c] (create, getattr, link, lookup, mkdir, mknod, opendir,
    readdir, rmdir, setattr, statfs, symlink, unlink), over a small model
    of the host file system. *)

From Stdlib Require Import ZArith Ascii String List Bool Lia.
From stdpp Require Import base gmap strings list.

Open Scope string_scope.
Open Scope Z_scope.

(** ** Kernel constants *)

Module Errno.
Definition ENOENT : Z := 2.
Definition EACCES : Z := 13.
Definition EEXIST : Z := 17.
Definition ENOTDIR : Z := 20.
Definition EISDIR : Z := 21.
Definition EINVAL : Z := 22.
Definition ENOSPC : Z := 28.
Definition ENAMETOOLONG : Z := 36.
Definition ENOTEMPTY : Z := 39.
End Errno.
Import Errno.

Definition PATH_MAX : Z := 4096.

(** [ia_valid] bits of [struct iattr] (include/linux/fs.h). *)
Definition ATTR_MODE : Z := 1.
Definition ATTR_UID : Z := 2.
Definition ATTR_GID : Z := 4.
Definition ATTR_SIZE : Z := 8.
Definition ATTR_ATIME : Z := 16.
Definition ATTR_MTIME : Z := 32.
Definition ATTR_CTIME : Z := 64.

(** File type bits of a mode (include/linux/stat.h). *)
Definition S_IFMT : Z := 61440.   (* 0170000 *)
Definition S_IFREG : Z := 32768.  (* 0100000 *)
Definition S_IFDIR : Z := 16384.  (* 0040000 *)
Definition S_IFLNK : Z := 40960.  (* 0120000 *)
Definition S_IALLUGO : Z := 4095. (* 0007777 *)

Definition S_ISREG (m : Z) : bool := Z.land m S_IFMT =? S_IFREG.
Definition S_ISDIR (m : Z) : bool := Z.land m S_IFMT =? S_IFDIR.

(** ** Declarations of hepunion.h *)

(** Modelled from the spec: [VALID_MODES_MASK] is declared in hepunion.h,
    which is not among the sources.  The spec defines it as the alterable
    permission and special bits: rwx for user, group and others plus
    setuid, setgid and sticky, that is 07777. *)
Definition VALID_MODES_MASK : Z := 4095.

(** Modelled from the spec: the macro [clear_mode_flags] of hepunion.h.
    The spec has the non-alterable (file-type) bits cleared, which keeps
    exactly the bits of [VALID_MODES_MASK]. *)
Definition clear_mode_flags (m : Z) : Z := Z.land m VALID_MODES_MASK.

(** Modelled from the spec: the macro [is_flag_set] of hepunion.h, read as
    "every bit of [f] is set in [s]". *)
Definition is_flag_set (s f : Z) : bool := Z.land s f =? f.

(** Modelled from the spec: the origin tags returned by [find_file]
    (an enumeration of hepunion.h, in its declaration order). *)
Definition READ_ONLY : Z := 0.
Definition READ_WRITE : Z := 1.
Definition READ_WRITE_COPYUP : Z := 2.

(** The two kinds of special files kept on the read-write branch. *)
Inductive specials := ME | WH.

Definition special_prefix (k : specials) : string :=
  match k with ME => ".me." | WH => ".wh." end.

(** Modelled from the spec: the reserved name predicates [is_me] and
    [is_whiteout] of hepunion.h: the name starts with ".me." or ".wh.". *)
Definition is_me (name : string) : bool := String.prefix ".me." name.
Definition is_whiteout (name : string) : bool := String.prefix ".wh." name.

(** [struct hepunion_sb_info]: the two branch roots fixed at mount. *)
Record hepunion_sb_info := {
  read_only_branch : string;
  read_write_branch : string
}.

(** The fields of [struct kstat] that the file system reads or writes. *)
Record kstat := mk_kstat {
  st_mode : Z;
  st_uid : Z;
  st_gid : Z;
  st_size : Z;
  st_atime : Z;
  st_mtime : Z;
  st_ctime : Z
}.

(** [struct iattr]: a requested attribute change. *)
Record iattr := mk_iattr {
  ia_valid : Z;
  ia_mode : Z;
  ia_uid : Z;
  ia_gid : Z;
  ia_size : Z;
  ia_atime : Z;
  ia_mtime : Z;
  ia_ctime : Z
}.

(** Results of calls that hand back a value or a negative errno. *)
Inductive result (A : Type) :=
  | Ok (a : A)
  | Err (e : Z).
Arguments Ok {A} a.
Arguments Err {A} e.

(** ** The host file system

    The VFS primitives the sources call ([lstat], [creat_worker],
    [unlink], [notify_change], ...) are outside the repository.  They are
    modelled by a table from concrete path names to nodes.  Host failures
    the file system has to cope with are part of the state: [fs_full] is
    the set of names the host refuses to create (no space, read-only
    medium), and [fs_denied] the logical paths on which the credential
    checks [can_create] and [can_remove] answer [-EACCES].

    The table is flat: a name can be created whether or not the directory
    above it is in the table.  The entries of a directory are the names
    that start with its own name and a slash; [rmdir] refuses a directory
    while one is left.  Memory allocation never fails, and the
    switch to root credentials around [notify_change] ([push_root],
    [pop_root]) has no counterpart, since the primitives of the model do
    not look at the caller. *)

Record node := mk_node {
  n_stat : kstat;
  n_target : option string  (* the target, for a symbolic link *)
}.

Record fs := mk_fs {
  fs_nodes : gmap string node;
  fs_full : gset string;
  fs_denied : gset string;
  fs_now : Z;   (* CURRENT_TIME *)
  fs_uid : Z;   (* current_fsuid() *)
  fs_gid : Z    (* current_fsgid() *)
}.

Definition with_nodes (s : fs) (m : gmap string node) : fs :=
  {| fs_nodes := m; fs_full := fs_full s; fs_denied := fs_denied s;
     fs_now := fs_now s; fs_uid := fs_uid s; fs_gid := fs_gid s |}.

(** Calls that change the host take the state and hand back the new one. *)
Definition M (A : Type) : Type := fs -> A * fs.

Definition exists_at (p : string) (s : fs) : bool :=
  match fs_nodes s !! p with Some _ => true | None => false end.

Definition lstat (p : string) (s : fs) : result kstat :=
  match fs_nodes s !! p with
  | Some n => Ok (n_stat n)
  | None => Err (- ENOENT)
  end.

Definition fresh_stat (s : fs) (mode : Z) (size : Z) : kstat :=
  {| st_mode := mode; st_uid := fs_uid s; st_gid := fs_gid s; st_size := size;
     st_atime := fs_now s; st_mtime := fs_now s; st_ctime := fs_now s |}.

Definition truncated (n : node) : node :=
  let k := n_stat n in
  {| n_stat := {| st_mode := st_mode k; st_uid := st_uid k; st_gid := st_gid k;
                  st_size := 0; st_atime := st_atime k;
                  st_mtime := st_mtime k; st_ctime := st_ctime k |};
     n_target := n_target n |}.

(** [creat_worker]: open with O_CREAT | O_WRONLY | O_TRUNC.  A new file
    is regular, empty and carries the permission bits of [mode]; the
    handle is the name it was opened at. *)
Definition creat_worker (p : string) (mode : Z) : M (result string) := fun s =>
  match fs_nodes s !! p with
  | Some n =>
      if S_ISREG (st_mode (n_stat n))
      then (Ok p, with_nodes s (<[p := truncated n]> (fs_nodes s)))
      else (Err (- EISDIR), s)
  | None =>
      if decide (p ∈ fs_full s) then (Err (- ENOSPC), s)
      else
        let st := fresh_stat s (Z.lor (Z.land mode S_IALLUGO) S_IFREG) 0 in
        (Ok p, with_nodes s (<[p := mk_node st None]> (fs_nodes s)))
  end.

(** [open_worker] on a name that has to exist. *)
Definition open_worker (p : string) (s : fs) : result string :=
  match fs_nodes s !! p with
  | Some _ => Ok p
  | None => Err (- ENOENT)
  end.

(** [get_path_dentry]: the dentry of a name that has to exist. *)
Definition get_path_dentry (p : string) (s : fs) : result string :=
  match fs_nodes s !! p with
  | Some _ => Ok p
  | None => Err (- ENOENT)
  end.

Definition unlink (p : string) : M Z := fun s =>
  match fs_nodes s !! p with
  | Some n =>
      if S_ISDIR (st_mode (n_stat n)) then (- EISDIR, s)
      else (0, with_nodes s (delete p (fs_nodes s)))
  | None => (- ENOENT, s)
  end.

(** Whether the table holds a name below the directory [p]. *)
Definition has_entries (p : string) (s : fs) : bool :=
  existsb (fun pn : string * node => String.prefix (p +:+ "/") (fst pn))
          (map_to_list (fs_nodes s)).

(** [rmdir] removes a directory that has no entry left; one that still
    holds a name is refused with [-ENOTEMPTY] and stays as it is. *)
Definition rmdir (p : string) : M Z := fun s =>
  match fs_nodes s !! p with
  | Some n =>
      if S_ISDIR (st_mode (n_stat n))
      then if has_entries p s then (- ENOTEMPTY, s)
           else (0, with_nodes s (delete p (fs_nodes s)))
      else (- ENOTDIR, s)
  | None => (- ENOENT, s)
  end.

Definition mkdir_worker (p : string) (mode : Z) : M Z := fun s =>
  match fs_nodes s !! p with
  | Some _ => (- EEXIST, s)
  | None =>
      if decide (p ∈ fs_full s) then (- ENOSPC, s)
      else
        let st := fresh_stat s (Z.lor (Z.land mode S_IALLUGO) S_IFDIR) 0 in
        (0, with_nodes s (<[p := mk_node st None]> (fs_nodes s)))
  end.

Definition symlink_worker (target : string) (p : string) : M Z := fun s =>
  match fs_nodes s !! p with
  | Some _ => (- EEXIST, s)
  | None =>
      if decide (p ∈ fs_full s) then (- ENOSPC, s)
      else
        let st := fresh_stat s (Z.lor S_IALLUGO S_IFLNK)
                    (Z.of_nat (String.length target)) in
        (0, with_nodes s (<[p := mk_node st (Some target)]> (fs_nodes s)))
  end.

(** A hard link is a second name for the node of [old]. *)
Definition link_worker (old : string) (p : string) : M Z := fun s =>
  match fs_nodes s !! old with
  | None => (- ENOENT, s)
  | Some n =>
      match fs_nodes s !! p with
      | Some _ => (- EEXIST, s)
      | None =>
          if decide (p ∈ fs_full s) then (- ENOSPC, s)
          else (0, with_nodes s (<[p := n]> (fs_nodes s)))
      end
  end.

Definition has_attr (valid flag : Z) : bool := negb (Z.land valid flag =? 0).

(** The attribute change of [notify_change]: every field whose [ATTR_]
    bit is in [ia_valid] is stored, the others are left alone.  A node
    keeps its file type: of [ia_mode] the bits of [S_IALLUGO] are stored. *)
Definition apply_attr (a : iattr) (k : kstat) : kstat :=
  let v := ia_valid a in
  {| st_mode := if has_attr v ATTR_MODE
                then Z.lor (Z.land (ia_mode a) S_IALLUGO)
                           (Z.land (st_mode k) (Z.lnot S_IALLUGO))
                else st_mode k;
     st_uid := if has_attr v ATTR_UID then ia_uid a else st_uid k;
     st_gid := if has_attr v ATTR_GID then ia_gid a else st_gid k;
     st_size := if has_attr v ATTR_SIZE then ia_size a else st_size k;
     st_atime := if has_attr v ATTR_ATIME then ia_atime a else st_atime k;
     st_mtime := if has_attr v ATTR_MTIME then ia_mtime a else st_mtime k;
     st_ctime := if has_attr v ATTR_CTIME then ia_ctime a else st_ctime k |}.

Definition notify_change (p : string) (a : iattr) : M Z := fun s =>
  match fs_nodes s !! p with
  | Some n =>
      (0, with_nodes s
            (<[p := mk_node (apply_attr a (n_stat n)) (n_target n)]> (fs_nodes s)))
  | None => (- ENOENT, s)
  end.

(** The parts of the state that no call changes. *)
Definition same_env (s s' : fs) : Prop :=
  fs_full s' = fs_full s /\ fs_denied s' = fs_denied s /\
  fs_now s' = fs_now s /\ fs_uid s' = fs_uid s /\ fs_gid s' = fs_gid s.

(** The invariant of the branch configuration: neither root is a prefix
    of the other. *)
Definition branches_apart (ctx : hepunion_sb_info) : Prop :=
  String.prefix (read_only_branch ctx) (read_write_branch ctx) = false /\
  String.prefix (read_write_branch ctx) (read_only_branch ctx) = false.

(** ** Path mapper (helper.c, not among the sources) *)

Definition strlen (s : string) : Z := Z.of_nat (String.length s).

(** Modelled from the spec: [make_ro_path] and [make_rw_path] concatenate
    the branch root and the logical path and return the length, which the
    callers compare with [PATH_MAX]. *)
Definition make_ro_path (ctx : hepunion_sb_info) (path : string) : Z * string :=
  let p := read_only_branch ctx +:+ path in (strlen p, p).

Definition make_rw_path (ctx : hepunion_sb_info) (path : string) : Z * string :=
  let p := read_write_branch ctx +:+ path in (strlen p, p).

(** [strrchr(path, '/')]: the text up to and including the last '/', and
    the name after it. *)
Fixpoint rsplit (path : string) : option (string * string) :=
  match path with
  | EmptyString => None
  | String c rest =>
      match rsplit rest with
      | Some (d, n) => Some (String c d, n)
      | None => if Ascii.eqb c "/"%char then Some (String c EmptyString, rest) else None
      end
  end.

(** Modelled from the spec: [path_to_special] of helper.c.  The special
    file of [path] lives on the read-write branch, in the directory of
    [path], under the name prefixed with ".me." or ".wh."; a path with no
    separator is invalid and a result beyond [PATH_MAX] too long.  The
    string operations are those of the earlier [find_me]. *)
Definition path_to_special (ctx : hepunion_sb_info) (path : string) (k : specials)
  : result string :=
  match rsplit path with
  | None => Err (- EINVAL)
  | Some (d, n) =>
      let sp := read_write_branch ctx +:+ d +:+ special_prefix k +:+ n in
      if PATH_MAX <? strlen sp then Err (- ENAMETOOLONG) else Ok sp
  end.

(** Modelled from the spec: [get_relative_path] gives the logical path of
    a dentry, [get_relative_path_for_file] the one of the entry [name] of
    the directory [dir]; both refuse results that do not fit a buffer. *)
Definition get_relative_path (dpath : string) : result string :=
  if PATH_MAX <? strlen dpath + 1 then Err (- ENAMETOOLONG) else Ok dpath.

Definition get_relative_path_for_file (dir name : string) : result string :=
  if PATH_MAX <? strlen dir + strlen name + 2 then Err (- ENAMETOOLONG)
  else Ok (dir +:+ "/" +:+ name).

(** ** Branch resolver (helper.c, not among the sources) *)

(** The intents the modelled callers pass: 0, MUST_READ_ONLY and
    MUST_READ_WRITE.  CREATE_COPYUP is only passed by [hepunion_open]. *)
Inductive intent := Any | MustRO | MustRW.

(** Modelled from the spec: [find_file] (section 4.2).  A whiteout hides
    the entry; the read-write branch shadows the read-only one. *)
Definition find_file (ctx : hepunion_sb_info) (path : string) (i : intent) (s : fs)
  : result (Z * string) :=
  match path_to_special ctx path WH with
  | Err e => Err e
  | Ok wh =>
      if exists_at wh s then Err (- ENOENT)
      else
        let (rwlen, rw) := make_rw_path ctx path in
        let (rolen, ro) := make_ro_path ctx path in
        if PATH_MAX <? rwlen then Err (- ENAMETOOLONG)
        else if match i with MustRO => false | _ => exists_at rw s end
        then Ok (READ_WRITE, rw)
        else if PATH_MAX <? rolen then Err (- ENAMETOOLONG)
        else if match i with MustRW => false | _ => exists_at ro s end
        then Ok (READ_ONLY, ro)
        else Err (- ENOENT)
  end.

(** Modelled from the spec: the credential checks of helper.c, delegated
    to the host; 0 grants, a negative errno refuses. *)
Definition can_create (path real_path : string) (s : fs) : Z :=
  if decide (path ∈ fs_denied s) then - EACCES else 0.

Definition can_remove (path real_path : string) (s : fs) : Z :=
  if decide (path ∈ fs_denied s) then - EACCES else 0.

(** ** Copy-up engine: the parent chain (cow.c, not among the sources) *)

(** The directories above a logical path: "/a" and "/a/b" for "/a/b/c". *)
Fixpoint dir_prefixes_from (acc path : string) : list string :=
  match path with
  | EmptyString => []
  | String c rest =>
      (if Ascii.eqb c "/"%char && negb (String.eqb acc "") then [acc] else [])
        ++ dir_prefixes_from (acc +:+ String c "") rest
  end.

Definition dir_prefixes (path : string) : list string := dir_prefixes_from "" path.

Definition S_IRWXUGO : Z := 511. (* 0777 *)

(** Modelled from the spec: the walk of [find_path].  A directory missing
    on the read-write branch is created with the attributes of its
    read-only counterpart when there is one, and fresh otherwise. *)
Fixpoint make_dirs (ctx : hepunion_sb_info) (ds : list string) : M Z := fun s =>
  match ds with
  | [] => (0, s)
  | d :: ds' =>
      let rwd := read_write_branch ctx +:+ d in
      match fs_nodes s !! rwd with
      | Some n =>
          if S_ISDIR (st_mode (n_stat n)) then make_dirs ctx ds' s
          else (- ENOTDIR, s)
      | None =>
          match lstat (read_only_branch ctx +:+ d) s with
          | Ok st =>
              let '(e, s1) := mkdir_worker rwd (st_mode st) s in
              if e <? 0 then (e, s1)
              else
                let attr :=
                  {| ia_valid := Z.lor ATTR_UID (Z.lor ATTR_GID
                                   (Z.lor ATTR_ATIME ATTR_MTIME));
                     ia_mode := st_mode st; ia_uid := st_uid st;
                     ia_gid := st_gid st; ia_size := 0;
                     ia_atime := st_atime st; ia_mtime := st_mtime st;
                     ia_ctime := st_ctime st |} in
                let '(e', s2) := notify_change rwd attr s1 in
                if e' <? 0 then (e', s2) else make_dirs ctx ds' s2
          | Err _ =>
              let '(e, s1) := mkdir_worker rwd S_IRWXUGO s in
              if e <? 0 then (e, s1) else make_dirs ctx ds' s1
          end
      end
  end.

(** Modelled from the spec: [find_path] materialises the parent chain of
    [path] on the read-write branch and hands back the read-write path of
    [path] itself (the callers create the entry there). *)
Definition find_path (ctx : hepunion_sb_info) (path : string) : M (result string) :=
  fun s =>
  match rsplit path with
  | None => (Err (- EINVAL), s)
  | Some _ =>
      let (rwlen, rw) := make_rw_path ctx path in
      if PATH_MAX <? rwlen then (Err (- ENAMETOOLONG), s)
      else
        let '(e, s1) := make_dirs ctx (dir_prefixes path) s in
        if e <? 0 then (Err e, s1) else (Ok rw, s1)
  end.

(** ** Whiteout manager (wh.c, not among the sources) *)

Definition S_IRUSR : Z := 256. (* 0400 *)

(** Modelled from the spec: [create_whiteout] materialises the ".wh."
    file on the read-write branch, creating the directories above it as
    needed, and hands back its path. *)
Definition create_whiteout (ctx : hepunion_sb_info) (path : string)
  : M (result string) := fun s =>
  match path_to_special ctx path WH with
  | Err e => (Err e, s)
  | Ok wh =>
      let '(r, s1) := find_path ctx path s in
      match r with
      | Err e => (Err e, s1)
      | Ok _ =>
          let '(fd, s2) := creat_worker wh S_IRUSR s1 in
          match fd with
          | Err e => (Err e, s2)
          | Ok _ => (Ok wh, s2)
          end
      end
  end.

(** Modelled from the spec: [unlink_whiteout] removes the whiteout when
    there is one and succeeds silently when there is none. *)
Definition unlink_whiteout (ctx : hepunion_sb_info) (path : string) : M Z := fun s =>
  match path_to_special ctx path WH with
  | Err e => (e, s)
  | Ok wh =>
      if exists_at wh s then unlink wh s else (0, s)
  end.

(** ** Indeterminate values

    Some automatic variables and fresh [kmalloc] buffers of the sources
    are read on paths that never wrote them.  What they hold then is not
    fixed by the program; the operations take it as the argument [j]. *)
Record junk := mk_junk {
  junk_int : Z;
  junk_path : string;
  junk_stat : kstat
}.

(** ** Deported metadata (me.c) *)

(** [clear_mode_flags(mode);] stands alone as a statement in [create_me]
    and in [set_me_worker]; it is read as clearing [mode] in place.  The
    host keeps only the permission bits of a creation mode in any case
    ([creat_worker_masks_mode] below), so the file created is the same
    under either reading of the macro. *)
Definition create_me (me_path : string) (kstbuf : kstat) : M Z := fun s =>
  (* Get creation modes *)
  let mode := clear_mode_flags (st_mode kstbuf) in
  (* Create file *)
  let '(fd, s1) := creat_worker me_path mode s in
  match fd with
  | Err e => (e, s1)
  | Ok fd =>
      let attr :=
        {| ia_valid := Z.lor ATTR_MODE (Z.lor ATTR_UID (Z.lor ATTR_GID
                         (Z.lor ATTR_ATIME ATTR_MTIME)));
           ia_mode := st_mode kstbuf;
           ia_uid := st_uid kstbuf;
           ia_gid := st_gid kstbuf;
           ia_size := 0;
           ia_atime := st_atime kstbuf;
           ia_mtime := st_mtime kstbuf;
           ia_ctime := st_ctime kstbuf |} in
      (* Set all the attributes *)
      notify_change fd attr s1
  end.

(** What [find_me] returns and leaves in [me_path] and [kstbuf]. *)
Inductive me_lookup :=
  | MeFound (me_path : string) (kstbuf : kstat)  (* 0: both written *)
  | MeMissing (me_path : string) (err : Z)        (* lstat failed *)
  | MeNoPath (err : Z).                           (* no path: nothing written *)

Definition find_me (ctx : hepunion_sb_info) (path : string) (s : fs) : me_lookup :=
  (* Get me path *)
  match path_to_special ctx path ME with
  | Err e => MeNoPath e
  | Ok me_path =>
      (* Now, try to get properties *)
      match lstat me_path s with
      | Ok kstbuf => MeFound me_path kstbuf
      | Err e => MeMissing me_path e
      end
  end.

(** The merge of [get_file_attr_worker].  Modes are 16-bit unsigned and
    the operations are bitwise, so nothing wraps. *)
Definition merge_attr (kstbuf kstme : kstat) : kstat :=
  {| st_uid := st_uid kstme;
     st_gid := st_gid kstme;
     st_atime := st_atime kstme;
     st_mtime := st_mtime kstme;
     st_ctime := st_ctime kstme;
     st_mode := Z.lor (Z.land (st_mode kstbuf) (Z.lnot VALID_MODES_MASK))
                      (clear_mode_flags (st_mode kstme));
     st_size := st_size kstbuf |}.

Definition get_file_attr_worker (ctx : hepunion_sb_info) (path real_path : string)
    (s : fs) : result kstat :=
  (* Look for a me file *)
  let me := find_me ctx path s in
  (* Get attributes *)
  match lstat real_path s with
  | Err e => Err e
  | Ok kstbuf =>
      (* If me file was present, merge results *)
      match me with
      | MeFound _ kstme => Ok (merge_attr kstbuf kstme)
      | _ => Ok kstbuf
      end
  end.

Definition get_file_attr (ctx : hepunion_sb_info) (path : string) (s : fs)
  : result kstat :=
  (* First, find file *)
  match find_file ctx path Any s with
  | Err e => Err e
  | Ok (_, real_path) =>
      (* Call worker *)
      get_file_attr_worker ctx path real_path s
  end.

Definition with_valid (a : iattr) (v : Z) : iattr :=
  {| ia_valid := v; ia_mode := ia_mode a; ia_uid := ia_uid a; ia_gid := ia_gid a;
     ia_size := ia_size a; ia_atime := ia_atime a; ia_mtime := ia_mtime a;
     ia_ctime := ia_ctime a |}.

Definition with_times (a : iattr) (atime mtime : Z) : iattr :=
  {| ia_valid := Z.lor (ia_valid a) (Z.lor ATTR_ATIME ATTR_MTIME);
     ia_mode := ia_mode a; ia_uid := ia_uid a; ia_gid := ia_gid a;
     ia_size := ia_size a; ia_atime := atime; ia_mtime := mtime;
     ia_ctime := ia_ctime a |}.

Definition with_owner (a : iattr) (uid gid : Z) : iattr :=
  {| ia_valid := Z.lor (ia_valid a) (Z.lor ATTR_UID ATTR_GID);
     ia_mode := ia_mode a; ia_uid := uid; ia_gid := gid;
     ia_size := ia_size a; ia_atime := ia_atime a; ia_mtime := ia_mtime a;
     ia_ctime := ia_ctime a |}.

(** The attributes an ME carries. *)
Definition ME_ATTRS : Z :=
  Z.lor ATTR_UID (Z.lor ATTR_GID (Z.lor ATTR_ATIME (Z.lor ATTR_MTIME ATTR_MODE))).

Definition set_me_worker (ctx : hepunion_sb_info) (path real_path : string)
    (attr : iattr) (j : junk) : M Z := fun s =>
  (* Ensure input is correct *)
  let attr := with_valid attr (Z.land (ia_valid attr) ME_ATTRS) in
  (* Look for a me file *)
  let create (me_path : string) :=
    (* Read real file info *)
    match lstat real_path s with
    | Err e => (e, s)
    | Ok kstme =>
        (* Recreate path up to the .me. file *)
        let '(r, s1) := find_path ctx path s in
        match r with
        | Err e => (e, s1)
        | Ok _ =>
            (* .me. does not exist, create it with appropriate mode *)
            let mode := clear_mode_flags
                          (if has_attr (ia_valid attr) ATTR_MODE
                           then ia_mode attr else st_mode kstme) in
            let '(fd, s2) := creat_worker me_path mode s1 in
            match fd with
            | Err e => (e, s2)
            | Ok fd =>
                (* Remove mode if it was set *)
                let attr := with_valid attr
                              (Z.land (ia_valid attr) (Z.lnot ATTR_MODE)) in
                (* Set its time *)
                let attr :=
                  if negb (is_flag_set (ia_valid attr) (Z.lor ATTR_ATIME ATTR_MTIME))
                  then with_times attr (st_atime kstme) (st_mtime kstme)
                  else attr in
                (* Set its owner *)
                let attr :=
                  if negb (is_flag_set (ia_valid attr) (Z.lor ATTR_UID ATTR_GID))
                  then with_owner attr (st_uid kstme) (st_gid kstme)
                  else attr in
                notify_change fd attr s2
            end
        end
    end in
  match find_me ctx path s with
  | MeFound me_path _ =>
      match open_worker me_path s with
      | Err e => (e, s)
      | Ok fd =>
          (* Only change if there are changes *)
          if negb (ia_valid attr =? 0) then notify_change fd attr s
          else (0, s)
      end
  | MeMissing me_path _ => create me_path
  | MeNoPath _ => create (junk_path j)
  end.

(** Modelled from the spec: the flags of [set_me] (hepunion.h) select
    MODE, TIME and OWNER; they are three distinct bits. *)
Definition MODE : Z := 1.
Definition TIME : Z := 2.
Definition OWNER : Z := 4.

Definition set_me (ctx : hepunion_sb_info) (path real_path : string)
    (kstbuf : kstat) (flags : Z) (j : junk) : M Z :=
  (* Convert the kstbuf to a iattr struct *)
  let valid := 0 in
  let valid := if is_flag_set flags MODE then Z.lor valid ATTR_MODE else valid in
  let valid := if is_flag_set flags TIME
               then Z.lor valid (Z.lor ATTR_ATIME ATTR_MTIME) else valid in
  let valid := if is_flag_set flags OWNER
               then Z.lor valid (Z.lor ATTR_UID ATTR_GID) else valid in
  let attr :=
    {| ia_valid := valid; ia_mode := st_mode kstbuf;
       ia_atime := st_atime kstbuf; ia_mtime := st_mtime kstbuf;
       ia_uid := st_uid kstbuf; ia_gid := st_gid kstbuf;
       ia_size := junk_int j; ia_ctime := junk_int j |} in
  (* Call the real worker *)
  set_me_worker ctx path real_path attr j.

(** ** Host directory streams *)

(** What the host hands to a [filldir] callback: name and type. *)
Record dirent := mk_dirent {
  de_name : string;
  de_type : Z
}.

Definition has_slash (n : string) : bool :=
  match String.index 0 "/" n with Some _ => true | None => false end.

(** The name of [p] inside the directory [d], when [p] is an entry of it. *)
Definition child_name (d p : string) : option string :=
  let pre := d +:+ "/" in
  if String.prefix pre p then
    let n := String.substring (String.length pre)
               (Nat.sub (String.length p) (String.length pre)) p in
    if String.eqb n "" || has_slash n then None else Some n
  else None.

Definition host_readdir (s : fs) (d : string) : list dirent :=
  omap (fun pn : string * node =>
          match child_name d (fst pn) with
          | Some n => Some (mk_dirent n (Z.shiftr (st_mode (n_stat (snd pn))) 12))
          | None => None
          end)
       (map_to_list (fs_nodes s)).

Definition name_in (n : string) (l : list string) : bool :=
  existsb (String.eqb n) l.

(** Modelled from the spec: [is_empty_dir] of wh.c.  Emptiness is taken
    over the merged view: the entries of the read-write directory that are
    neither ME nor whiteout files, and the entries of the read-only
    directory that no whiteout covers.  0 when empty, negative otherwise. *)
Definition is_empty_dir (path : string) (ro_path rw_path : option string) (s : fs) : Z :=
  let rw_entries := match rw_path with Some p => host_readdir s p | None => [] end in
  let ro_entries := match ro_path with Some p => host_readdir s p | None => [] end in
  let whiteouts :=
    map (fun e => String.substring 4 (Nat.sub (String.length (de_name e)) 4) (de_name e))
        (filter (fun e => is_whiteout (de_name e) = true) rw_entries) in
  let rw_visible :=
    filter (fun e => (is_me (de_name e) || is_whiteout (de_name e)) = false) rw_entries in
  let ro_visible :=
    filter (fun e => name_in (de_name e) whiteouts = false) ro_entries in
  match rw_visible, ro_visible with
  | [], [] => 0
  | _, _ => - ENOTEMPTY
  end.

(** Modelled from the spec: [unlink_rw_file] unlinks the read-write file
    and, if a read-only file of that name exists, creates a whiteout. *)
Definition unlink_rw_file (ctx : hepunion_sb_info) (path real_path : string) : M Z :=
  fun s =>
  let '(e, s1) := unlink real_path s in
  if e <? 0 then (e, s1)
  else
    match find_file ctx path MustRO s1 with
    | Err _ => (0, s1)
    | Ok _ =>
        let '(r, s2) := create_whiteout ctx path s1 in
        match r with
        | Err e' => (e', s2)
        | Ok _ => (0, s2)
        end
    end.

(** ** Inode operations (opts.c)

    The operations are given the logical path of the directory and the
    name of the entry ([dir] and [dentry]), or the logical path of the
    dentry.  The updates of the inode and dentry caches are not part of
    the model: they do not reach the branches. *)

Definition hepunion_create (ctx : hepunion_sb_info) (dir name : string) (mode : Z)
  : M Z := fun s =>
  (* Try to find the file first *)
  match get_relative_path_for_file dir name with
  | Err e => (e, s)
  | Ok path =>
      (* And ensure it doesn't exist *)
      match find_file ctx path Any s with
      | Ok _ => (- EEXIST, s)
      | Err _ =>
          (* Create path if needed *)
          let '(r, s1) := find_path ctx path s in
          match r with
          | Err e => (e, s1)
          | Ok real_path =>
              (* Be paranoid, check access *)
              let err := can_create path real_path s1 in
              if err <? 0 then (err, s1)
              else
                (* Open the file *)
                let '(filp, s2) := creat_worker real_path mode s1 in
                match filp with
                | Err e => (e, s2)
                | Ok fd =>
                    (* Set its correct owner in case of creation *)
                    let attr :=
                      {| ia_valid := Z.lor ATTR_UID ATTR_GID;
                         ia_uid := fs_uid s2; ia_gid := fs_gid s2;
                         ia_mode := 0; ia_size := 0; ia_atime := 0;
                         ia_mtime := 0; ia_ctime := 0 |} in
                    let '(err, s3) := notify_change fd attr s2 in
                    if err <? 0 then (err, snd (unlink real_path s3))
                    else
                      (* Remove whiteout if any *)
                      let '(_, s4) := unlink_whiteout ctx path s3 in
                      (0, s4)
                end
          end
      end
  end.

(** [hepunion_getattr]; the inode number it stores afterwards comes from
    the inode cache and is not part of [kstat] here. *)
Definition hepunion_getattr (ctx : hepunion_sb_info) (dpath : string) (s : fs)
  : result kstat :=
  (* Get path *)
  match get_relative_path dpath with
  | Err e => Err e
  | Ok path =>
      (* Call worker *)
      get_file_attr ctx path s
  end.

Definition hepunion_link (ctx : hepunion_sb_info) (old_dpath dir name : string)
    (j : junk) : M Z := fun s =>
  (* First, find file *)
  match get_relative_path old_dpath with
  | Err e => (e, s)
  | Ok from =>
      match find_file ctx from Any s with
      | Err e => (e, s)
      | Ok (origin, real_from) =>
          (* Find destination *)
          match get_relative_path_for_file dir name with
          | Err e => (e, s)
          | Ok to =>
              (* And ensure it doesn't exist *)
              match find_file ctx to Any s with
              | Ok _ => (- EEXIST, s)
              | Err _ =>
                  (* Check access *)
                  let err := can_create to (junk_path j) s in
                  if err <? 0 then (err, s)
                  else
                    (* Create path if needed *)
                    let '(r, s1) := find_path ctx to s in
                    match r with
                    | Err e => (e, s1)
                    | Ok real_to =>
                        let '(err, s2) :=
                          if origin =? READ_ONLY then
                            (* Here, fallback to a symlink *)
                            symlink_worker real_from real_to s1
                          else
                            (* Get RW name *)
                            let (len, real_to) := make_rw_path ctx to in
                            if PATH_MAX <? len then (- ENAMETOOLONG, s1)
                            else link_worker real_from real_to s1 in
                        if err <? 0 then (err, s2)
                        else
                          (* Remove possible whiteout *)
                          let '(_, s3) := unlink_whiteout ctx to s2 in
                          (0, s3)
                    end
              end
          end
      end
  end.

Definition hepunion_setattr (ctx : hepunion_sb_info) (dpath : string) (attr : iattr)
    (j : junk) : M Z := fun s =>
  (* Get path *)
  match get_relative_path dpath with
  | Err e => (e, s)
  | Ok path =>
      (* Get file *)
      match find_file ctx path Any s with
      | Err e => (e, s)
      | Ok (err, real_path) =>
          if (err =? READ_WRITE) || (err =? READ_WRITE_COPYUP) then
            (* Get dentry for the file to update *)
            match get_path_dentry real_path s with
            | Err e => (e, s)
            | Ok real_dentry =>
                (* Just update file attributes *)
                notify_change real_dentry attr s
            end
          else
            (* Update me *)
            set_me_worker ctx path real_path attr j s
      end
  end.

(** In [hepunion_unlink] and [hepunion_rmdir], [has_me] is declared with
    its initialiser between the [switch] and its first [case] label, so
    the initialiser is never run.  When no ME is found, the test
    [err < 0 && has_me] reads [junk_int j], and [create_me] is then given
    what [kstbuf] and [me_path] hold. *)
Definition hepunion_unlink (ctx : hepunion_sb_info) (dir name : string) (j : junk)
  : M Z := fun s =>
  (* Try to find the file first *)
  match get_relative_path_for_file dir name with
  | Err e => (e, s)
  | Ok path =>
      (* Then, find file *)
      match find_file ctx path Any s with
      | Err e => (e, s)
      | Ok (err, real_path) =>
          if (err =? READ_WRITE_COPYUP) || (err =? READ_WRITE) then
            (* On RW, just remove it *)
            unlink_rw_file ctx path real_path s
          else if err =? READ_ONLY then
            (* On RO, create a whiteout.  Check if user can unlink file *)
            let err := can_remove path real_path s in
            if err <? 0 then (err, s)
            else
              (* Get me first *)
              match find_me ctx path s with
              | MeFound me_path kstbuf =>
                  (* has_me = 1; delete it *)
                  let '(err, s1) := unlink me_path s in
                  if err <? 0 then (err, s1)
                  else
                    (* Now, create whiteout *)
                    let '(r, s2) := create_whiteout ctx path s1 in
                    match r with
                    | Err e =>
                        let '(_, s3) := create_me me_path kstbuf s2 in (e, s3)
                    | Ok _ => (0, s2)
                    end
              | MeMissing me_path _ =>
                  let '(r, s1) := create_whiteout ctx path s in
                  match r with
                  | Err e =>
                      if negb (junk_int j =? 0)
                      then let '(_, s2) := create_me me_path (junk_stat j) s1 in (e, s2)
                      else (e, s1)
                  | Ok _ => (0, s1)
                  end
              | MeNoPath _ =>
                  let '(r, s1) := create_whiteout ctx path s in
                  match r with
                  | Err e =>
                      if negb (junk_int j =? 0)
                      then let '(_, s2) := create_me (junk_path j) (junk_stat j) s1 in
                           (e, s2)
                      else (e, s1)
                  | Ok _ => (0, s1)
                  end
              end
          else (err, s)
      end
  end.

Definition hepunion_rmdir (ctx : hepunion_sb_info) (dir name : string) (j : junk)
  : M Z := fun s =>
  (* Try to find the dir first *)
  match get_relative_path_for_file dir name with
  | Err e => (e, s)
  | Ok path =>
      (* Then, find dir *)
      match find_file ctx path Any s with
      | Err e => (e, s)
      | Ok (err, real_path) =>
          if (err =? READ_WRITE_COPYUP) || (err =? READ_WRITE) then
            (* Check if RO exists *)
            let ro := match find_file ctx path MustRO s with
                      | Ok (_, ro_path) => Some ro_path
                      | Err _ => None
                      end in
            (* Check if user can remove dir *)
            let err := can_remove path real_path s in
            if err <? 0 then (err, s)
            else
              (* If RO is present, check for emptyness *)
              let err := is_empty_dir path ro (Some real_path) s in
              if err <? 0 then (- ENOTEMPTY, s)
              else
                (* If with have RO, first create whiteout *)
                match ro with
                | Some _ =>
                    let '(r, s1) := create_whiteout ctx path s in
                    match r with
                    | Err _ => (err, s1)
                    | Ok wh_path =>
                        (* Remove dir *)
                        let '(err, s2) := rmdir real_path s1 in
                        if err <? 0 then (err, snd (unlink wh_path s2))
                        else (err, s2)
                    end
                | None =>
                    let '(err, s1) := rmdir real_path s in
                    if err <? 0 then (err, snd (unlink (junk_path j) s1))
                    else (err, s1)
                end
          else if err =? READ_ONLY then
            (* Check if user can remove dir: [!can_remove(...)] breaks out
               when the check answers 0 *)
            if can_remove path real_path s =? 0 then (err, s)
            else
              (* Check for directory emptyness *)
              let err := is_empty_dir path (Some real_path) None s in
              if err <? 0 then (- ENOTEMPTY, s)
              else
                (* Get me first *)
                match find_me ctx path s with
                | MeFound me_path kstbuf =>
                    (* has_me = 1; unlink it *)
                    let '(err, s1) := unlink me_path s in
                    if err <? 0 then (err, s1)
                    else
                      (* Now, create whiteout *)
                      let '(r, s2) := create_whiteout ctx path s1 in
                      match r with
                      | Err e =>
                          let '(_, s3) := create_me me_path kstbuf s2 in (e, s3)
                      | Ok _ => (0, s2)
                      end
                | MeMissing me_path _ =>
                    let '(r, s1) := create_whiteout ctx path s in
                    match r with
                    | Err e =>
                        if negb (junk_int j =? 0)
                        then let '(_, s2) := create_me me_path (junk_stat j) s1 in
                             (e, s2)
                        else (e, s1)
                    | Ok _ => (0, s1)
                    end
                | MeNoPath _ =>
                    let '(r, s1) := create_whiteout ctx path s in
                    match r with
                    | Err e =>
                        if negb (junk_int j =? 0)
                        then let '(_, s2) := create_me (junk_path j) (junk_stat j) s1 in
                             (e, s2)
                        else (e, s1)
                    | Ok _ => (0, s1)
                    end
                end
          else (err, s)
      end
  end.

(** ** Directory listing (opts.c) *)

Record readdir_file := mk_readdir_file {
  d_reclen : Z;
  rf_type : Z;
  rf_ino : Z;
  d_name : string
}.

(** [struct opendir_context]: the two directory paths with their lengths
    (0 for a branch that has no such directory) and the two lists. *)
Record opendir_context := mk_opendir_context {
  ro_dir : string;
  ro_len : Z;
  rw_dir : string;
  rw_len : Z;
  files_head : list readdir_file;
  whiteouts_head : list readdir_file
}.

Definition with_files (c : opendir_context) (l : list readdir_file) : opendir_context :=
  {| ro_dir := ro_dir c; ro_len := ro_len c; rw_dir := rw_dir c; rw_len := rw_len c;
     files_head := l; whiteouts_head := whiteouts_head c |}.

Definition with_whiteouts (c : opendir_context) (l : list readdir_file) : opendir_context :=
  {| ro_dir := ro_dir c; ro_len := ro_len c; rw_dir := rw_dir c; rw_len := rw_len c;
     files_head := files_head c; whiteouts_head := l |}.

(** [size_t] arithmetic wraps at 2^64. *)
Definition size_t (z : Z) : Z := z mod 2 ^ 64.

(** The [strncmp]-with-length test of [read_ro_branch]. *)
Definition same_name (name : string) (e : readdir_file) : bool :=
  (strlen name =? d_reclen e) && String.eqb name (d_name e).

(** The [filldir] call of a [readdir]: name, length, offset, ino, type. *)
Record filldir_call := mk_filldir_call {
  fc_name : string;
  fc_len : Z;
  fc_off : Z;
  fc_ino : Z;
  fc_type : Z
}.

(** The loop of [hepunion_readdir] over the list, counting from [i]. *)
Fixpoint find_entry (l : list readdir_file) (i f_pos : Z) : option (Z * readdir_file) :=
  match l with
  | [] => None
  | e :: l' => if i =? f_pos then Some (i, e) else find_entry l' (i + 1) f_pos
  end.

Section Readdir.

(** [name_to_ino] hashes a logical path; it is not among the sources. *)
Variable name_to_ino : string -> Z.

(** What opening a directory of the host and enumerating it gives: an
    errno, or the entries in the order of the underlying directory. *)
Variable host_dir : string -> result (list dirent).

Variable context : hepunion_sb_info.

Definition read_rw_branch (ctx : opendir_context) (name : string) (d_type : Z)
  : Z * opendir_context :=
  let namlen := strlen name in
  (* Ignore metadata *)
  if is_me name then (0, ctx)
  (* Handle whiteouts *)
  else if is_whiteout name then
    (* Just work if there's a RO branch *)
    if negb (ro_len ctx =? 0) then
      let namlen := namlen - 4 in
      let entry :=
        {| d_reclen := namlen; rf_type := 0; rf_ino := 0;
           d_name := String.substring 4 (Z.to_nat namlen) name |} in
      (* Add it to list *)
      (0, with_whiteouts ctx (entry :: whiteouts_head ctx))
    else (0, ctx)
  else
    (* This is a normal entry.  Just add it to the list *)
    let len := size_t (rw_len ctx - strlen (read_write_branch context)) in
    let complete_path :=
      String.substring (String.length (read_write_branch context)) (Z.to_nat len)
        (rw_dir ctx) +:+ name in
    (* Get its ino; on the early return the field is never assigned, and
       the caller drops both lists *)
    let entry :=
      {| d_reclen := namlen; rf_type := d_type;
         rf_ino := name_to_ino complete_path; d_name := name |} in
    let ctx := with_files ctx (entry :: files_head ctx) in
    if PATH_MAX <? size_t (len + namlen + 1) then (- ENAMETOOLONG, ctx)
    else (0, ctx).

Definition read_ro_branch (ctx : opendir_context) (name : string) (d_type : Z)
  : Z * opendir_context :=
  let namlen := strlen name in
  (* Check if there is any matching whiteout *)
  if existsb (same_name name) (whiteouts_head ctx) then (0, ctx)
  (* Check if it matches a RW entry *)
  else if existsb (same_name name) (files_head ctx) then (0, ctx)
  else
    (* Finally, add the entry in list *)
    let len := size_t (ro_len ctx - strlen (read_only_branch context)) in
    let complete_path :=
      String.substring (String.length (read_only_branch context)) (Z.to_nat len)
        (ro_dir ctx) +:+ name in
    (* Get its ino; on the early return the field is never assigned, and
       the caller drops both lists *)
    let entry :=
      {| d_reclen := namlen; rf_type := d_type;
         rf_ino := name_to_ino complete_path; d_name := name |} in
    let ctx := with_files ctx (entry :: files_head ctx) in
    if PATH_MAX <? size_t (len + namlen + 1) then (- ENAMETOOLONG, ctx)
    else (0, ctx).

(** [vfs_readdir] of the host: the callback is run on the entries in
    order; a negative answer stops the walk and is returned. *)
Fixpoint vfs_readdir (cb : opendir_context -> string -> Z -> Z * opendir_context)
    (entries : list dirent) (ctx : opendir_context) : Z * opendir_context :=
  match entries with
  | [] => (0, ctx)
  | e :: rest =>
      let '(r, ctx') := cb ctx (de_name e) (de_type e) in
      if r <? 0 then (r, ctx') else vfs_readdir cb rest ctx'
  end.

Definition browse (len : Z) (dir_path : string)
    (cb : opendir_context -> string -> Z -> Z * opendir_context)
    (ctx : opendir_context) : Z * opendir_context :=
  if negb (len =? 0) then
    match host_dir dir_path with
    | Err e => (e, ctx)
    | Ok entries => vfs_readdir cb entries ctx
    end
  else (0, ctx).

(** The first call of [hepunion_readdir] on a handle fills the list. *)
Definition populate (ctx : opendir_context) : Z * opendir_context :=
  (* Check if there is an associated RW dir *)
  let '(err, ctx) := browse (rw_len ctx) (rw_dir ctx) read_rw_branch ctx in
  if err <? 0 then (err, ctx)
  else
    (* Work on RO branch *)
    let '(err, ctx) := browse (ro_len ctx) (ro_dir ctx) read_ro_branch ctx in
    if err <? 0 then (err, ctx)
    else
      (* Now we have files list, clean whiteouts *)
      (0, with_whiteouts ctx []).

(** [hepunion_readdir]: the answer, the handle, the new [f_pos] and the
    [filldir] call made, if any. *)
Definition hepunion_readdir (ctx : opendir_context) (f_pos : Z)
  : Z * opendir_context * Z * option filldir_call :=
  let '(err, ctx) :=
    match files_head ctx with
    | [] => populate ctx
    | _ :: _ => (0, ctx)
    end in
  if err <? 0 then
    (* There was an error, clean everything *)
    (err, with_files (with_whiteouts ctx []) [], f_pos, None)
  else
    (* Try to find the requested entry now *)
    match find_entry (files_head ctx) 0 f_pos with
    | Some (i, entry) =>
        (0, ctx, f_pos + 1,
         Some {| fc_name := d_name entry; fc_len := d_reclen entry; fc_off := i;
                 fc_ino := rf_ino entry; fc_type := rf_type entry |})
    | None => (0, ctx, f_pos, None)
    end.

End Readdir.

(** [hepunion_opendir]: the handle of a freshly opened directory. *)
Definition hepunion_opendir (ctx : hepunion_sb_info) (dpath : string) (s : fs)
  : result opendir_context :=
  match find_file ctx dpath Any s with
  | Err e => Err e
  | Ok _ =>
      let (rw_len, rw_path) :=
        match find_file ctx dpath MustRW s with
        | Ok (_, p) => (strlen p, p)
        | Err _ => (0, "")
        end in
      let (ro_len, ro_path) :=
        match find_file ctx dpath MustRO s with
        | Ok (_, p) => (strlen p, p)
        | Err _ => (0, "")
        end in
      Ok {| ro_dir := ro_path; ro_len := ro_len; rw_dir := rw_path; rw_len := rw_len;
            files_head := []; whiteouts_head := [] |}
  end.

(** ** Requests seen through the ME mask *)

(** A request reduced to what an ME carries: the five flags of
    [ME_ATTRS] and the fields they select. *)
Definition strip_attr (a : iattr) : iattr :=
  {| ia_valid := Z.land (ia_valid a) ME_ATTRS;
     ia_mode := ia_mode a; ia_uid := ia_uid a; ia_gid := ia_gid a;
     ia_size := 0; ia_atime := ia_atime a; ia_mtime := ia_mtime a;
     ia_ctime := 0 |}.

(** Two requests that agree on the flags and on the five fields of an ME,
    with neither size nor change time flagged. *)
Definition same_me_request (a b : iattr) : Prop :=
  ia_valid a = ia_valid b /\ ia_mode a = ia_mode b /\
  ia_uid a = ia_uid b /\ ia_gid a = ia_gid b /\
  ia_atime a = ia_atime b /\ ia_mtime a = ia_mtime b /\
  Z.testbit (ia_valid a) 3 = false /\ Z.testbit (ia_valid a) 6 = false.

(** Two stats that show the same file, the change time apart. *)
Definition same_visible (a b : kstat) : Prop :=
  st_mode a = st_mode b /\ st_uid a = st_uid b /\ st_gid a = st_gid b /\
  st_size a = st_size b /\ st_atime a = st_atime b /\ st_mtime a = st_mtime b.

(** What an ME carries: owner, times and the alterable mode bits. *)
Definition same_metadata (a b : kstat) : Prop :=
  st_uid a = st_uid b /\ st_gid a = st_gid b /\
  st_atime a = st_atime b /\ st_mtime a = st_mtime b /\
  Z.land (st_mode a) VALID_MODES_MASK = Z.land (st_mode b) VALID_MODES_MASK.

(** A request names two flags together, or neither. *)
Definition paired (valid a b : Z) : Prop := has_attr valid a = has_attr valid b.

(** What a [getattr] is expected to show after a [setattr] on a file of
    the read-only branch whose visible stat was [G]: the requested owner,
    times and alterable mode bits, the rest as before. *)
Definition after_setattr (attr : iattr) (G : kstat) : kstat :=
  let v := ia_valid attr in
  {| st_mode := if has_attr v ATTR_MODE
                then Z.lor (Z.land (st_mode G) (Z.lnot VALID_MODES_MASK))
                           (Z.land (ia_mode attr) VALID_MODES_MASK)
                else st_mode G;
     st_uid := if has_attr v ATTR_UID then ia_uid attr else st_uid G;
     st_gid := if has_attr v ATTR_GID then ia_gid attr else st_gid G;
     st_size := st_size G;
     st_atime := if has_attr v ATTR_ATIME then ia_atime attr else st_atime G;
     st_mtime := if has_attr v ATTR_MTIME then ia_mtime attr else st_mtime G;
     st_ctime := st_ctime G |}.

(** ** The merged listing, described on the two directory streams *)

(** The entries the host yields for a branch directory of a handle: none
    when the branch has no such directory or cannot be opened. *)
Definition listing (host_dir : string -> result (list dirent)) (len : Z) (dir : string)
  : list dirent :=
  if len =? 0 then []
  else match host_dir dir with Ok es => es | Err _ => [] end.

(** The entries of the read-write directory that are listed. *)
Definition rw_kept (es : list dirent) : list dirent :=
  filter (fun e => (is_me (de_name e) || is_whiteout (de_name e)) = false) es.

(** The names its whiteouts hide. *)
Definition rw_whiteouts (es : list dirent) : list string :=
  map (fun e => String.substring 4 (Z.to_nat (strlen (de_name e) - 4)) (de_name e))
      (filter (fun e => (negb (is_me (de_name e)) && is_whiteout (de_name e)) = true) es).

(** The entries of the read-only directory that survive: not hidden by a
    whiteout and not listed already. *)
Fixpoint ro_kept (whs seen : list string) (es : list dirent) : list dirent :=
  match es with
  | [] => []
  | e :: es' =>
      if name_in (de_name e) whs || name_in (de_name e) seen
      then ro_kept whs seen es'
      else e :: ro_kept whs (de_name e :: seen) es'
  end.

(** The recorded length of an entry is the length of its name. *)
Definition well_formed (l : list readdir_file) : Prop :=
  Forall (fun e => d_reclen e = strlen (d_name e)) l.

Definition entry_dirent (e : readdir_file) : dirent := mk_dirent (d_name e) (rf_type e).

(** The [filldir] call for the cursor [f_pos] taken as an index. *)
Definition emitted (l : list readdir_file) (f_pos : Z) : option filldir_call :=
  if f_pos <? 0 then None
  else match nth_error l (Z.to_nat f_pos) with
       | Some e => Some {| fc_name := d_name e; fc_len := d_reclen e; fc_off := f_pos;
                           fc_ino := rf_ino e; fc_type := rf_type e |}
       | None => None
       end.

(** ** Further inode operations (opts.c) *)

Definition S_IFIFO : Z := 4096. (* 0010000 *)

Definition S_ISFIFO (m : Z) : bool := Z.land m S_IFMT =? S_IFIFO.

(** [mkfifo_worker] and [mknod_worker] of the host: a new node of the
    kind asked for.  A FIFO gets the permission bits of [mode]; any other
    node keeps the type bits of [mode] as well.  The device number has no
    place in the table. *)
Definition mkfifo_worker (p : string) (mode : Z) : M Z := fun s =>
  match fs_nodes s !! p with
  | Some _ => (- EEXIST, s)
  | None =>
      if decide (p ∈ fs_full s) then (- ENOSPC, s)
      else
        let st := fresh_stat s (Z.lor (Z.land mode S_IALLUGO) S_IFIFO) 0 in
        (0, with_nodes s (<[p := mk_node st None]> (fs_nodes s)))
  end.

Definition mknod_worker (p : string) (mode rdev : Z) : M Z := fun s =>
  match fs_nodes s !! p with
  | Some _ => (- EEXIST, s)
  | None =>
      if decide (p ∈ fs_full s) then (- ENOSPC, s)
      else
        let st := fresh_stat s (Z.land mode (Z.lor S_IFMT S_IALLUGO)) 0 in
        (0, with_nodes s (<[p := mk_node st None]> (fs_nodes s)))
  end.

Definition hepunion_symlink (ctx : hepunion_sb_info) (dir name symname : string)
  : M Z := fun s =>
  (* Find destination *)
  match get_relative_path_for_file dir name with
  | Err e => (e, s)
  | Ok to =>
      (* And ensure it doesn't exist *)
      match find_file ctx to Any s with
      | Ok _ => (- EEXIST, s)
      | Err _ =>
          (* Get full path for destination *)
          let (len, real_to) := make_rw_path ctx to in
          if PATH_MAX <? len then (- ENAMETOOLONG, s)
          else
            (* Check access *)
            let err := can_create to real_to s in
            if err <? 0 then (err, s)
            else
              (* Create path if needed *)
              let '(r, s1) := find_path ctx to s in
              match r with
              | Err e => (e, s1)
              | Ok real_to =>
                  (* Now it's sure the link does not exist, create it *)
                  let '(err, s2) := symlink_worker symname real_to s1 in
                  if err <? 0 then (err, s2)
                  else
                    (* Remove possible whiteout *)
                    let '(_, s3) := unlink_whiteout ctx to s2 in
                    (0, s3)
              end
      end
  end.

Definition hepunion_mknod (ctx : hepunion_sb_info) (dir name : string) (mode rdev : Z)
  : M Z := fun s =>
  (* Try to find the node first *)
  match get_relative_path_for_file dir name with
  | Err e => (e, s)
  | Ok path =>
      (* And ensure it doesn't exist *)
      match find_file ctx path Any s with
      | Ok _ => (- EEXIST, s)
      | Err _ =>
          (* Now, create/reuse arborescence *)
          let '(r, s1) := find_path ctx path s in
          match r with
          | Err e => (e, s1)
          | Ok real_path =>
              (* Just create file now *)
              let '(err, s2) :=
                if S_ISFIFO mode then mkfifo_worker real_path mode s1
                else mknod_worker real_path mode rdev s1 in
              if err <? 0 then (err, s2)
              else
                (* Remove possible whiteout *)
                let '(_, s3) := unlink_whiteout ctx path s2 in
                (0, s3)
          end
      end
  end.

Section Mkdir.

(** [hide_directory_contents] belongs to wh.c, which is not among the
    sources, and the specification does not describe it: it is taken as
    it comes. *)
Variable hide_directory_contents : hepunion_sb_info -> string -> M Z.

(** [hepunion_mkdir]; the inode set up at the end lives in the inode
    cache, and its allocation does not fail. *)
Definition hepunion_mkdir (ctx : hepunion_sb_info) (dir name : string) (mode : Z)
  : M Z := fun s =>
  (* Try to find the directory first *)
  match get_relative_path_for_file dir name with
  | Err e => (e, s)
  | Ok path =>
      (* And ensure it doesn't exist *)
      match find_file ctx path Any s with
      | Ok _ => (- EEXIST, s)
      | Err _ =>
          (* Get full path for destination *)
          let (len, real_path) := make_rw_path ctx path in
          if PATH_MAX <? len then (- ENAMETOOLONG, s)
          else
            (* Check access *)
            let err := can_create path real_path s in
            if err <? 0 then (err, s)
            else
              (* Now, create/reuse arborescence *)
              let '(r, s1) := find_path ctx path s in
              match r with
              | Err e => (e, s1)
              | Ok real_path =>
                  (* Ensure we have good mode *)
                  let mode := Z.lor mode S_IFDIR in
                  (* Just create dir now *)
                  let '(err, s2) := mkdir_worker real_path mode s1 in
                  if err <? 0 then (err, s2)
                  else
                    (* Hide contents *)
                    let '(err, s3) := hide_directory_contents ctx path s2 in
                    if err <? 0 then (err, snd (rmdir real_path s3))
                    else
                      (* Remove possible .wh. *)
                      let '(_, s4) := unlink_whiteout ctx path s3 in
                      (0, s4)
              end
      end
  end.

End Mkdir.

(** ** Looking a name up (opts.c) *)

(** What [hepunion_lookup] does with the dentry: it attaches no inode (a
    negative dentry), fails with an errno, or attaches the inode of the
    given number.  In the last case the inode comes from [iget_locked],
    whose allocation does not fail here. *)
Inductive lookup_answer :=
  | LookupNegative
  | LookupFailed (err : Z)
  | LookupInode (ino : Z).

Definition hepunion_lookup (name_to_ino : string -> Z) (ctx : hepunion_sb_info)
    (dir name : string) (s : fs) : lookup_answer :=
  (* First get path of the file *)
  match get_relative_path_for_file dir name with
  | Err e => LookupFailed e
  | Ok path =>
      (* Now, look for the file *)
      match find_file ctx path Any s with
      | Err err => if err =? - ENOENT then LookupNegative else LookupFailed err
      | Ok _ =>
          (* We've got it!  Get inode *)
          LookupInode (name_to_ino path)
      end
  end.

(** ** File system statistics (opts.c) *)

(** The fields of [struct kstatfs]; [f_fsid] is [int val[2]], two signed
    32-bit values. *)
Record kstatfs := mk_kstatfs {
  f_type : Z;
  f_bsize : Z;
  f_blocks : Z;
  f_bfree : Z;
  f_bavail : Z;
  f_files : Z;
  f_ffree : Z;
  f_fsid : Z * Z;
  f_namelen : Z
}.

(** The conversion to [u32] keeps the low 32 bits. *)
Definition u32 (z : Z) : Z := z mod 2 ^ 32.

(** Storing into an [int] keeps the low 32 bits and reads them in two's
    complement. *)
Definition to_int (z : Z) : Z := (z + 2 ^ 31) mod 2 ^ 32 - 2 ^ 31.

Section Statfs.

(** [HEPUNION_SEED] is a constant of hepunion.h, which is not among the
    sources. *)
Variable HEPUNION_SEED : Z.

(** The host: opening a directory, and the statistics of an open
    directory, written over the buffer it is given. *)
Variable filp_open : string -> result string.
Variable vfs_statfs : string -> kstatfs -> Z * kstatfs.

(** [hepunion_statfs]: the answer, and what the buffer holds afterwards. *)
Definition hepunion_statfs (sb_info : hepunion_sb_info) (s_magic : Z) : Z * kstatfs :=
  let buf := mk_kstatfs 0 0 0 0 0 0 0 (0, 0) 0 in
  (* First, get RO data *)
  match filp_open (read_only_branch sb_info) with
  | Err e => (e, buf)
  | Ok filp =>
      let '(err, buf) := vfs_statfs filp buf in
      if negb (err =? 0) then (err, buf)
      else
        (* Return them, but ensure we mark our stuff *)
        (0, {| f_type := s_magic; f_bsize := f_bsize buf; f_blocks := f_blocks buf;
               f_bfree := f_bfree buf; f_bavail := f_bavail buf;
               f_files := f_files buf; f_ffree := f_ffree buf;
               f_fsid := (to_int (u32 HEPUNION_SEED),
                          to_int (u32 (Z.shiftr HEPUNION_SEED 32)));
               f_namelen := f_namelen buf |})
  end.

End Statfs.

(** ** The earlier me.c (PierreFS) *)

Module PierreFS.

(** [snprintf(buf, size, "%s", src)]: the length of [src], and the at most
    [size - 1] characters that reach the buffer. *)
Definition snprintf (size : Z) (src : string) : Z * string :=
  (strlen src, String.substring 0 (Z.to_nat (size - 1)) src).

(** The three appends are not bounded by the size of [me_path]; the model
    has no buffer to overrun and keeps the whole string.

    The last statement hands the stat to [stbuf], a name that the function
    does not declare: its parameter is [kstbuf], which no statement
    writes.  What [MeFound] carries here is what the host stored through
    [stbuf], next to the path written to [me_path]; nothing in this file
    reads it as the buffer of the caller.  The functions [get_file_attr]
    and [get_file_attr_worker] of this version of me.c depend on the same
    name and are left out. *)
Definition find_me (context : hepunion_sb_info) (path : string) (s : fs) : me_lookup :=
  (* Find name *)
  match rsplit path with
  | None => MeNoPath (- EINVAL)
  | Some (dir, name) =>
      let (len, me_path) := snprintf PATH_MAX (read_write_branch context) in
      if PATH_MAX <? len then MeNoPath (- ENAMETOOLONG)
      else
        (* Copy path (and /), append me, finally copy name *)
        let me_path := ((me_path +:+ dir) +:+ ".me.") +:+ name in
        (* Now, try to get properties *)
        match lstat me_path s with
        | Ok stbuf => MeFound me_path stbuf
        | Err e => MeMissing me_path e
        end
  end.

End PierreFS.

(** The ME path that a lookup has written, if any. *)
Definition me_path_of (l : me_lookup) : option string :=
  match l with
  | MeFound me_path _ | MeMissing me_path _ => Some me_path
  | MeNoPath _ => None
  end.

(** ** Reading a directory to its end *)

(** A reader that starts at the cursor [f_pos] and calls
    [hepunion_readdir] until no entry comes back, [fuel] times at most;
    the [filldir] calls it received, in order. *)
Fixpoint readdir_all (name_to_ino : string -> Z)
    (host_dir : string -> result (list dirent)) (context : hepunion_sb_info)
    (fuel : nat) (ctx : opendir_context) (f_pos : Z) : list filldir_call :=
  match fuel with
  | O => []
  | S fuel' =>
      let '(_, ctx', f_pos', out) :=
        hepunion_readdir name_to_ino host_dir context ctx f_pos in
      match out with
      | Some c => c :: readdir_all name_to_ino host_dir context fuel' ctx' f_pos'
      | None => []
      end
  end.

(** The [filldir] call that presents the entry [e] at the offset [i]. *)
Definition call_of (i : Z) (e : readdir_file) : filldir_call :=
  {| fc_name := d_name e; fc_len := d_reclen e; fc_off := i;
     fc_ino := rf_ino e; fc_type := rf_type e |}.

(** The calls for the entries of [l], numbered from [i]. *)
Fixpoint calls_from (i : Z) (l : list readdir_file) : list filldir_call :=
  match l with
  | [] => []
  | e :: l' => call_of i e :: calls_from (i + 1) l'
  end.

(** ** Entries of a listing *)

(** What an entry of the listing of the directory [dpath] records. *)
Definition entry_of_dir (name_to_ino : string -> Z) (dpath : string) (e : readdir_file)
  : Prop :=
  rf_ino e = name_to_ino (dpath +:+ d_name e) /\ d_reclen e = strlen (d_name e).

(** ** The ME after an update *)

(** The stat of an ME that [set_me_worker] has created for a file whose
    stat is [D], at the time [now]. *)
Definition new_me_stat (attr : iattr) (D : kstat) (now : Z) : kstat :=
  let v := ia_valid attr in
  let owner := Z.testbit v 1 && Z.testbit v 2 in
  let times := Z.testbit v 4 && Z.testbit v 5 in
  {| st_mode := Z.lor (Z.land (if Z.testbit v 0 then ia_mode attr else st_mode D)
                              VALID_MODES_MASK) S_IFREG;
     st_uid := if owner then ia_uid attr else st_uid D;
     st_gid := if owner then ia_gid attr else st_gid D;
     st_size := 0;
     st_atime := if times then ia_atime attr else st_atime D;
     st_mtime := if times then ia_mtime attr else st_mtime D;
     st_ctime := now |}.

(** What a [get_file_attr] is expected to show after a [set_me] with the
    stat [kstbuf] and [flags], on a file that showed [G]. *)
Definition after_set_me (kstbuf : kstat) (flags : Z) (G : kstat) : kstat :=
  {| st_mode := if is_flag_set flags MODE
                then Z.lor (Z.land (st_mode G) (Z.lnot VALID_MODES_MASK))
                           (Z.land (st_mode kstbuf) VALID_MODES_MASK)
                else st_mode G;
     st_uid := if is_flag_set flags OWNER then st_uid kstbuf else st_uid G;
     st_gid := if is_flag_set flags OWNER then st_gid kstbuf else st_gid G;
     st_size := st_size G;
     st_atime := if is_flag_set flags TIME then st_atime kstbuf else st_atime G;
     st_mtime := if is_flag_set flags TIME then st_mtime kstbuf else st_mtime G;
     st_ctime := st_ctime G |}.

(** ** What an operation leaves alone *)

(** No name outside the read-write branch has changed. *)
Definition outside_kept (ctx : hepunion_sb_info) (s s' : fs) : Prop :=
  forall q, String.prefix (read_write_branch ctx) q = false ->
            fs_nodes s' !! q = fs_nodes s !! q.

(** No name but [p] has changed. *)
Definition changes_only (p : string) (s s' : fs) : Prop :=
  forall q, q <> p -> fs_nodes s' !! q = fs_nodes s !! q.

(** No name of the read-only branch has changed. *)
Definition read_only_kept (ctx : hepunion_sb_info) (s s' : fs) : Prop :=
  forall x, fs_nodes s' !! (read_only_branch ctx +:+ x)
            = fs_nodes s !! (read_only_branch ctx +:+ x).

(** ** Sample mounts and states *)

Module Sample.

Definition ctx : hepunion_sb_info :=
  {| read_only_branch := "/ro"; read_write_branch := "/rw" |}.

Definition mkfs (l : list (string * node)) (full denied : list string) : fs :=
  {| fs_nodes := list_to_map l; fs_full := list_to_set full;
     fs_denied := list_to_set denied; fs_now := 100; fs_uid := 0; fs_gid := 0 |}.

Definition no_junk : junk := mk_junk 0 "" (mk_kstat 0 0 0 0 0 0 0).

Definition dir_node : node :=
  mk_node (mk_kstat (Z.lor S_IFDIR 493) 0 0 4096 10 10 10) None.

(** /a/b.txt on the read-only branch: a regular file, mode 0644. *)
Definition ro_stat : kstat := mk_kstat (Z.lor S_IFREG 420) 1000 1000 12 20 21 22.

(** An ME: a plain empty file, mode 0600, with its own owner and times. *)
Definition me_stat : kstat := mk_kstat (Z.lor S_IFREG 384) 7 8 0 30 31 32.

(** The read-only branch has /a/b.txt; the read-write branch is empty. *)
Definition ro_only : fs :=
  mkfs [("/ro/a", dir_node); ("/ro/a/b.txt", mk_node ro_stat None)] [] [].

(** The same, with an ME for /a/b.txt. *)
Definition ro_with_me : fs :=
  mkfs [("/ro/a", dir_node); ("/ro/a/b.txt", mk_node ro_stat None);
        ("/rw/a", dir_node); ("/rw/a/.me.b.txt", mk_node me_stat None)] [] [].

(** /f on the read-write branch, next to an ME for it. *)
Definition rw_stat : kstat := mk_kstat (Z.lor S_IFREG 420) 0 0 5 40 41 42.

Definition rw_with_me : fs :=
  mkfs [("/rw/f", mk_node rw_stat None); ("/rw/.me.f", mk_node me_stat None)] [] [].

(** /f on both branches, no ME. *)
Definition rw_over_ro : fs :=
  mkfs [("/rw/f", mk_node rw_stat None); ("/ro/f", mk_node ro_stat None)] [] [].

(** A request that flags size and change time next to the mode. *)
Definition wide_request : iattr :=
  mk_iattr (Z.lor ATTR_SIZE (Z.lor ATTR_CTIME ATTR_MODE)) 384 0 0 77 0 0 88.

(** The read-write branch has the directory /foo. *)
Definition rw_foo : fs := mkfs [("/rw/foo", dir_node)] [] [].

(** The read-only branch has the directory /d with the entry x in it. *)
Definition ro_dir_nonempty : fs :=
  mkfs [("/ro/d", dir_node); ("/ro/d/x", mk_node ro_stat None)] [] [].

(** The read-only branch has the empty directory /e. *)
Definition ro_dir_empty : fs := mkfs [("/ro/e", dir_node)] [] [].

(** The same, where the credential check refuses to remove /e. *)
Definition ro_dir_denied : fs := mkfs [("/ro/e", dir_node)] [] ["/e"].

(** The read-only branch has /shared. *)
Definition ro_shared : fs := mkfs [("/ro/shared", mk_node ro_stat None)] [] [].

(** /shared on the read-only branch, and a whiteout left for /alias. *)
Definition whiteout_node : node :=
  mk_node (mk_kstat (Z.lor S_IFREG S_IRUSR) 0 0 0 50 50 50) None.

Definition ro_shared_wh : fs :=
  mkfs [("/ro/shared", mk_node ro_stat None); ("/rw/.wh.alias", whiteout_node)] [] [].

(** /shared on the read-write branch. *)
Definition rw_shared : fs := mkfs [("/rw/shared", mk_node rw_stat None)] [] [].

(** /a/b.txt with its ME, on a host that cannot create the whiteout. *)
Definition ro_with_me_full : fs :=
  mkfs [("/ro/a", dir_node); ("/ro/a/b.txt", mk_node ro_stat None);
        ("/rw/a", dir_node); ("/rw/a/.me.b.txt", mk_node me_stat None)]
       ["/rw/a/.wh.b.txt"] [].

(** A truncation to 0 bytes, and a change of the owner alone. *)
Definition truncate_request : iattr := mk_iattr ATTR_SIZE 0 0 0 0 0 0 0.
Definition chown_request : iattr := mk_iattr ATTR_UID 0 5 0 0 0 0 0.

(** A chmod to 0600 with a change of owner and group. *)
Definition chmod_chown_request : iattr :=
  mk_iattr (Z.lor ATTR_MODE (Z.lor ATTR_UID ATTR_GID)) 384 5 6 0 0 0 0.

(** The directory /dir: a and b on the read-write branch with a whiteout
    for d, and c, a and d on the read-only branch. *)
Definition dir_host (p : string) : result (list dirent) :=
  if String.eqb p "/rw/dir" then
    Ok [mk_dirent "a" 8; mk_dirent ".wh.d" 8; mk_dirent "b" 8; mk_dirent ".me.c" 8]
  else if String.eqb p "/ro/dir" then
    Ok [mk_dirent "c" 8; mk_dirent "a" 8; mk_dirent "d" 8]
  else Err (- ENOENT).

Definition dir_handle : opendir_context :=
  {| ro_dir := "/ro/dir"; ro_len := 7; rw_dir := "/rw/dir"; rw_len := 7;
     files_head := []; whiteouts_head := [] |}.

Definition no_ino (path : string) : Z := 0.

(** /a/b.txt without an ME, on a host that cannot create the whiteout,
    and a stack that holds 1 where [has_me] lives. *)
Definition ro_only_full : fs :=
  mkfs [("/ro/a", dir_node); ("/ro/a/b.txt", mk_node ro_stat None)]
       ["/rw/a/.wh.b.txt"] [].

Definition stale_junk : junk := mk_junk 1 "" (mk_kstat 511 66 67 0 68 69 70).

(** The directory /dir where each branch holds special files of its own. *)
Definition special_host (p : string) : result (list dirent) :=
  if String.eqb p "/rw/dir" then
    Ok [mk_dirent ".me.a" 8; mk_dirent ".wh.b" 8; mk_dirent "f" 8]
  else if String.eqb p "/ro/dir" then
    Ok [mk_dirent ".me.z" 8; mk_dirent "b" 8; mk_dirent "g" 8]
  else Err (- ENOENT).

(** /dir on both branches. *)
Definition both_dir : fs :=
  mkfs [("/rw/dir", dir_node); ("/ro/dir", dir_node)] [] [].

(** A stand-in for the hash of a path: its length. *)
Definition length_ino (path : string) : Z := strlen path.

(** A handle whose read-only directory cannot be opened any more. *)
Definition stale_handle : opendir_context :=
  {| ro_dir := "/ro/gone"; ro_len := 8; rw_dir := "/rw/dir"; rw_len := 7;
     files_head := []; whiteouts_head := [] |}.

(** A whiteout manager with nothing to hide. *)
Definition nothing_to_hide (ctx : hepunion_sb_info) (path : string) : M Z :=
  fun s => (0, s).



(** A host that opens every directory and gives the same statistics. *)
Definition host_stats : kstatfs := mk_kstatfs 61267 4096 1000 400 300 50 20 (7, 9) 255.

Definition open_any (p : string) : result string := Ok p.

Definition stats_of (filp : string) (buf : kstatfs) : Z * kstatfs := (0, host_stats).

(** The file /f on the read-write branch and /other on the read-only one,
    and a buffer that still holds the name of the latter. *)
Definition rw_file_ro_other : fs :=
  mkfs [("/rw/f", mk_node rw_stat None);
               ("/ro/other", mk_node ro_stat None)] [] [].

Definition stray_junk : junk := mk_junk 0 "/ro/other" (mk_kstat 0 0 0 0 0 0 0).

End Sample.

(** * Properties *)

(** ** Strings and paths *)

(** [String.append] is kept folded by the library; these steps unfold it
    on a string that starts with a known character. *)
Lemma app_cons (c : ascii) (a b : string) : String c a +:+ b = String c (a +:+ b).
Proof. reflexivity. Qed.

Lemma app_nil (b : string) : "" +:+ b = b.
Proof. reflexivity. Qed.

Ltac unapp := repeat (rewrite ?app_cons, ?app_nil in *).

Lemma length_app (a b : string) :
  String.length (a +:+ b) = (String.length a + String.length b)%nat.
Proof. induction a as [|c a IH]; unapp; cbn; [reflexivity | now rewrite IH]. Qed.

Lemma strlen_app (a b : string) : strlen (a +:+ b) = strlen a + strlen b.
Proof. unfold strlen. rewrite length_app. lia. Qed.

Lemma strlen_nonneg (a : string) : 0 <= strlen a.
Proof. unfold strlen. lia. Qed.

Lemma app_assoc_s (a b c : string) : (a +:+ b) +:+ c = a +:+ (b +:+ c).
Proof. induction a as [|x a IH]; unapp; [reflexivity | now rewrite IH]. Qed.

Lemma rsplit_app (p d n : string) : rsplit p = Some (d, n) -> p = d +:+ n.
Proof.
  revert d n. induction p as [|c p IH]; intros d n H; cbn in H; [discriminate|].
  destruct (rsplit p) as [[d' n']|] eqn:E.
  - inversion H; subst. unapp. f_equal. now apply IH.
  - destruct (Ascii.eqb c "/"); [|discriminate].
    inversion H; subst. reflexivity.
Qed.

Lemma rsplit_slash (a b : string) : rsplit (a +:+ "/" +:+ b) <> None.
Proof.
  induction a as [|c a IH]; unapp; cbn.
  - destruct (rsplit b) as [[d n]|]; discriminate.
  - destruct (rsplit _) as [[d n]|]; [discriminate | contradiction].
Qed.

(** A special path is four characters longer than the read-write path. *)
Lemma path_to_special_length ctx p k sp :
  path_to_special ctx p k = Ok sp ->
  strlen sp = strlen (read_write_branch ctx +:+ p) + 4 /\ strlen sp <= PATH_MAX.
Proof.
  unfold path_to_special. destruct (rsplit p) as [[d n]|] eqn:E; [|discriminate].
  destruct (PATH_MAX <? _) eqn:L; [discriminate|]. intros H; inversion H; subst.
  apply Z.ltb_ge in L. split; [|exact L].
  apply rsplit_app in E. subst p. rewrite !strlen_app.
  assert (strlen (special_prefix k) = 4) by (destruct k; reflexivity). lia.
Qed.

Lemma path_to_special_kind ctx p k k' sp :
  path_to_special ctx p k = Ok sp ->
  exists sp', path_to_special ctx p k' = Ok sp'.
Proof.
  unfold path_to_special. destruct (rsplit p) as [[d n]|] eqn:E; [|discriminate].
  destruct (PATH_MAX <? _) eqn:L; [discriminate|]. intros _.
  assert (strlen (read_write_branch ctx +:+ d +:+ special_prefix k' +:+ n)
          = strlen (read_write_branch ctx +:+ d +:+ special_prefix k +:+ n)) as ->.
  { rewrite !strlen_app. destruct k, k'; reflexivity. }
  rewrite L. eauto.
Qed.

Lemma special_ne_rw ctx p k sp :
  path_to_special ctx p k = Ok sp -> sp <> read_write_branch ctx +:+ p.
Proof.
  intros H E. apply path_to_special_length in H as [H _]. rewrite E in H. lia.
Qed.

Lemma me_ne_wh ctx p me wh :
  path_to_special ctx p ME = Ok me -> path_to_special ctx p WH = Ok wh -> me <> wh.
Proof.
  unfold path_to_special. destruct (rsplit p) as [[d n]|]; [|discriminate].
  do 2 (destruct (PATH_MAX <? _); [discriminate|]).
  intros H1 H2. inversion H1; inversion H2; subst. intros E.
  apply (inj (String.app _)) in E. apply (inj (String.app _)) in E. discriminate.
Qed.

(** ** Mode bits *)

Tactic Notation "bitwise" ident(i) :=
  let H := fresh in
  apply Z.bits_inj'; intros i H;
  repeat first
    [ rewrite Z.land_spec | rewrite Z.lor_spec | rewrite (Z.lnot_spec _ i H) ].

Lemma merge_mode_alterable (d m : Z) :
  Z.land (Z.lor (Z.land d (Z.lnot VALID_MODES_MASK)) (clear_mode_flags m))
         VALID_MODES_MASK
  = Z.land m VALID_MODES_MASK.
Proof.
  unfold clear_mode_flags. bitwise n.
  destruct (Z.testbit d n), (Z.testbit m n), (Z.testbit VALID_MODES_MASK n);
    reflexivity.
Qed.

Lemma type_bits_disjoint (n : Z) :
  Z.testbit S_IFMT n && Z.testbit VALID_MODES_MASK n = false.
Proof.
  rewrite <- Z.land_spec. change (Z.land S_IFMT VALID_MODES_MASK) with 0.
  apply Z.bits_0.
Qed.

Lemma merge_mode_type (d m : Z) :
  Z.land (Z.lor (Z.land d (Z.lnot VALID_MODES_MASK)) (clear_mode_flags m)) S_IFMT
  = Z.land d S_IFMT.
Proof.
  unfold clear_mode_flags. bitwise n. pose proof (type_bits_disjoint n) as D.
  destruct (Z.testbit d n), (Z.testbit m n), (Z.testbit VALID_MODES_MASK n),
    (Z.testbit S_IFMT n); try reflexivity; discriminate.
Qed.

Lemma merge_mode_same (d : Z) :
  Z.lor (Z.land d (Z.lnot VALID_MODES_MASK)) (clear_mode_flags d) = d.
Proof.
  unfold clear_mode_flags. bitwise n.
  destruct (Z.testbit d n), (Z.testbit VALID_MODES_MASK n); reflexivity.
Qed.

(** The mode a created regular file gets keeps the alterable bits. *)
Lemma creat_mode_alterable (m : Z) :
  clear_mode_flags (Z.lor (Z.land (clear_mode_flags m) S_IALLUGO) S_IFREG)
  = clear_mode_flags m.
Proof.
  unfold clear_mode_flags. change S_IALLUGO with VALID_MODES_MASK. bitwise n.
  assert (Z.testbit S_IFREG n && Z.testbit VALID_MODES_MASK n = false) as D.
  { rewrite <- Z.land_spec. change (Z.land S_IFREG VALID_MODES_MASK) with 0.
    apply Z.bits_0. }
  destruct (Z.testbit m n), (Z.testbit VALID_MODES_MASK n), (Z.testbit S_IFREG n);
    try reflexivity; discriminate.
Qed.

(** ** Resolution *)

Lemma exists_at_lstat p s :
  exists_at p s = true <-> exists k, lstat p s = Ok k.
Proof.
  unfold exists_at, lstat. destruct (fs_nodes s !! p); split; eauto.
  - intros; discriminate.
  - intros [k H]; discriminate.
Qed.

(** A file of the read-write branch that no whiteout hides is what
    [find_file] answers, whatever the read-only branch holds. *)
Lemma find_file_rw ctx p s wh :
  path_to_special ctx p WH = Ok wh ->
  exists_at wh s = false ->
  exists_at (read_write_branch ctx +:+ p) s = true ->
  find_file ctx p Any s = Ok (READ_WRITE, read_write_branch ctx +:+ p).
Proof.
  intros Hwh Hno Hrw. unfold find_file. rewrite Hwh, Hno. cbn.
  apply path_to_special_length in Hwh as [L1 L2].
  destruct (PATH_MAX <? _) eqn:L; [apply Z.ltb_lt in L; lia|].
  now rewrite Hrw.
Qed.

Lemma find_file_read_only ctx p s rp :
  find_file ctx p Any s = Ok (READ_ONLY, rp) ->
  rp = read_only_branch ctx +:+ p /\
  exists_at rp s = true /\
  exists_at (read_write_branch ctx +:+ p) s = false /\
  exists wh, path_to_special ctx p WH = Ok wh /\ exists_at wh s = false.
Proof.
  unfold find_file. destruct (path_to_special ctx p WH) as [wh|] eqn:Hwh; [|discriminate].
  destruct (exists_at wh s) eqn:Hno; [discriminate|]. cbn.
  destruct (PATH_MAX <? _); [discriminate|].
  destruct (exists_at (read_write_branch ctx +:+ p) s) eqn:Hrw; [discriminate|].
  destruct (PATH_MAX <? _); [discriminate|].
  destruct (exists_at (read_only_branch ctx +:+ p) s) eqn:Hro; [|discriminate].
  intros H; inversion H; subst. eauto 10.
Qed.

(** ** C5: the merge of data attributes and deported metadata *)

(** C5.  For a path that resolves on the read-only branch and has an ME,
    [get_file_attr] takes uid, gid, atime, mtime and ctime from the ME and
    composes the mode as [(D.mode & ~VALID_MODES_MASK) | (M.mode &
    VALID_MODES_MASK)] (D the stat of the read-only file, M the stat of
    the ME): the alterable bits are those of the ME and the file-type bits
    those of the read-only file. *)
Theorem me_merge_on_read_only ctx path real_path me_path s (D Mst : kstat) :
  find_file ctx path Any s = Ok (READ_ONLY, real_path) ->
  lstat real_path s = Ok D ->
  find_me ctx path s = MeFound me_path Mst ->
  exists G,
    get_file_attr ctx path s = Ok G /\
    st_uid G = st_uid Mst /\ st_gid G = st_gid Mst /\
    st_atime G = st_atime Mst /\ st_mtime G = st_mtime Mst /\
    st_ctime G = st_ctime Mst /\
    st_mode G = Z.lor (Z.land (st_mode D) (Z.lnot VALID_MODES_MASK))
                      (Z.land (st_mode Mst) VALID_MODES_MASK) /\
    Z.land (st_mode G) VALID_MODES_MASK = Z.land (st_mode Mst) VALID_MODES_MASK /\
    Z.land (st_mode G) S_IFMT = Z.land (st_mode D) S_IFMT.
Proof.
  intros Hf Hd Hm. exists (merge_attr D Mst).
  unfold get_file_attr, get_file_attr_worker. rewrite Hf, Hm, Hd.
  repeat split; cbn.
  - apply merge_mode_alterable.
  - apply merge_mode_type.
Qed.

Lemma me_merge_on_read_only_witness :
  exists G,
    get_file_attr Sample.ctx "/a/b.txt" Sample.ro_with_me = Ok G /\
    st_uid G = 7 /\ st_gid G = 8 /\ st_atime G = 30 /\ st_mtime G = 31 /\
    st_ctime G = 32 /\
    st_mode G = Z.lor (Z.land (Z.lor S_IFREG 420) (Z.lnot VALID_MODES_MASK))
                      (Z.land (Z.lor S_IFREG 384) VALID_MODES_MASK) /\
    Z.land (st_mode G) VALID_MODES_MASK = Z.land (Z.lor S_IFREG 384) VALID_MODES_MASK /\
    Z.land (st_mode G) S_IFMT = Z.land (Z.lor S_IFREG 420) S_IFMT.
Proof.
  apply (me_merge_on_read_only Sample.ctx "/a/b.txt" "/ro/a/b.txt" "/rw/a/.me.b.txt"
           Sample.ro_with_me Sample.ro_stat Sample.me_stat); reflexivity.
Defined.

(** ** C1: shadowing by the read-write branch *)

(** C1.  The header of me.c says of the ME mechanism that it is of course
    not used when the file is on the read-write branch, and the claim
    asks for the stat of /rw/P with no merge.  The code does otherwise:
    [get_file_attr] drops the origin that [find_file] answers, and
    [get_file_attr_worker] merges whatever ME [find_me] finds.  With /f on
    the read-write branch next to an ME for /f, the path resolves
    read-write and [get_file_attr] does not return the stat of /rw/f:
    the owner, the times and the alterable mode bits are those of the
    ME. *)
Lemma getattr_read_write_merges_me :
  lstat "/rw/f" Sample.rw_with_me = Ok Sample.rw_stat /\
  find_file Sample.ctx "/f" Any Sample.rw_with_me = Ok (READ_WRITE, "/rw/f") /\
  get_file_attr Sample.ctx "/f" Sample.rw_with_me <> Ok Sample.rw_stat /\
  get_file_attr Sample.ctx "/f" Sample.rw_with_me
  = Ok (merge_attr Sample.rw_stat Sample.me_stat).
Proof.
  repeat split; try reflexivity. vm_compute. discriminate.
Qed.

(** Such a state is within reach of the operations themselves: with /f
    alone on the read-write branch, creating the entry .me.f (which
    [hepunion_create] accepts) changes what [get_file_attr] shows for
    /f, although /rw/f is as before. *)
Example getattr_read_write_after_create :
  let s := Sample.mkfs [("/rw/f", mk_node Sample.rw_stat None)] [] [] in
  let r := hepunion_create Sample.ctx "" ".me.f" 438 s in
  get_file_attr Sample.ctx "/f" s = Ok Sample.rw_stat /\
  fst r = 0 /\
  lstat "/rw/f" (snd r) = Ok Sample.rw_stat /\
  find_file Sample.ctx "/f" Any (snd r) = Ok (READ_WRITE, "/rw/f") /\
  get_file_attr Sample.ctx "/f" (snd r) <> Ok Sample.rw_stat.
Proof.
  cbv zeta. do 4 (split; [reflexivity|]). vm_compute. discriminate.
Qed.

(** Where no ME exists the stat of /rw/P comes back as it is, whatever
    the read-only branch holds. *)
Lemma get_file_attr_read_write_plain ctx P s wh (D : kstat) :
  path_to_special ctx P WH = Ok wh ->
  exists_at wh s = false ->
  lstat (read_write_branch ctx +:+ P) s = Ok D ->
  (forall mp m, find_me ctx P s <> MeFound mp m) ->
  get_file_attr ctx P s = Ok D.
Proof.
  intros Hwh Hno Hd Hme.
  assert (find_file ctx P Any s = Ok (READ_WRITE, read_write_branch ctx +:+ P)) as Hf.
  { eapply find_file_rw; eauto. apply exists_at_lstat. eauto. }
  unfold get_file_attr, get_file_attr_worker. rewrite Hf, Hd.
  destruct (find_me ctx P s) as [mp m| |]; [|reflexivity..].
  now destruct (Hme mp m).
Qed.

(** ** The host primitives *)

Lemma lstat_insert_eq s m p n :
  lstat p (with_nodes s (<[p := n]> m)) = Ok (n_stat n).
Proof. unfold lstat; cbn. now rewrite lookup_insert_eq. Qed.

Lemma lstat_insert_ne s m p q n :
  p <> q -> lstat q (with_nodes s (<[p := n]> m)) = lstat q (with_nodes s m).
Proof. intros H. unfold lstat; cbn. now rewrite lookup_insert_ne. Qed.

Lemma same_env_refl s : same_env s s.
Proof. repeat split. Qed.

Lemma same_env_trans s1 s2 s3 : same_env s1 s2 -> same_env s2 s3 -> same_env s1 s3.
Proof. unfold same_env. intuition congruence. Qed.

Lemma same_env_with_nodes s m : same_env s (with_nodes s m).
Proof. repeat split. Qed.

#[local] Hint Resolve same_env_refl same_env_with_nodes : core.

(** A successful [creat_worker] leaves an empty regular file under the
    name, and touches no other name. *)
Lemma creat_worker_ok p mode s fd s1 :
  creat_worker p mode s = (Ok fd, s1) ->
  fd = p /\ same_env s s1 /\
  (forall q, q <> p -> fs_nodes s1 !! q = fs_nodes s !! q) /\
  exists k, lstat p s1 = Ok k /\ st_size k = 0 /\ S_ISREG (st_mode k) = true /\
    match fs_nodes s !! p with
    | None => k = fresh_stat s (Z.lor (Z.land mode S_IALLUGO) S_IFREG) 0
    | Some n => st_mode k = st_mode (n_stat n) /\ st_ctime k = st_ctime (n_stat n)
    end.
Proof.
  unfold creat_worker. destruct (fs_nodes s !! p) as [n|] eqn:E.
  - destruct (S_ISREG (st_mode (n_stat n))) eqn:R; [|discriminate].
    intros H; inversion H; subst. repeat split; auto.
    + intros q Hq. cbn. now rewrite lookup_insert_ne.
    + eexists. rewrite lstat_insert_eq. repeat split. exact R.
  - destruct (decide (p ∈ fs_full s)); [discriminate|].
    intros H; inversion H; subst. repeat split; auto.
    + intros q Hq. cbn. now rewrite lookup_insert_ne.
    + eexists. rewrite lstat_insert_eq. repeat split.
      unfold S_ISREG. cbn.
      apply Z.eqb_eq. bitwise i. pose proof (Z.land_spec S_IFREG S_IFMT i) as F.
      change (Z.land S_IFREG S_IFMT) with S_IFREG in F.
      assert (Z.testbit S_IALLUGO i && Z.testbit S_IFMT i = false) as D.
      { rewrite <- Z.land_spec. change (Z.land S_IALLUGO S_IFMT) with 0.
        apply Z.bits_0. }
      destruct (Z.testbit mode i), (Z.testbit S_IALLUGO i), (Z.testbit S_IFMT i),
        (Z.testbit S_IFREG i); try reflexivity; discriminate.
Qed.

Lemma creat_worker_masks_mode p mode s :
  creat_worker p (clear_mode_flags mode) s = creat_worker p mode s.
Proof.
  unfold creat_worker. destruct (fs_nodes s !! p); [reflexivity|].
  destruct (decide _); [reflexivity|].
  unfold clear_mode_flags. change S_IALLUGO with VALID_MODES_MASK.
  now rewrite <- Z.land_assoc, Z.land_diag.
Qed.

Lemma creat_worker_err p mode s e s1 :
  creat_worker p mode s = (Err e, s1) -> s1 = s /\ e < 0.
Proof.
  unfold creat_worker. destruct (fs_nodes s !! p) as [n|].
  - destruct (S_ISREG _); [discriminate|]. intros H; inversion H. split; [auto|reflexivity].
  - destruct (decide _); [|discriminate]. intros H; inversion H. split; [auto|reflexivity].
Qed.

Lemma notify_change_ok p a s e s1 :
  notify_change p a s = (e, s1) ->
  same_env s s1 /\
  (forall q, q <> p -> fs_nodes s1 !! q = fs_nodes s !! q) /\
  match fs_nodes s !! p with
  | Some n => e = 0 /\ fs_nodes s1 !! p = Some (mk_node (apply_attr a (n_stat n)) (n_target n))
  | None => e = - ENOENT /\ s1 = s
  end.
Proof.
  unfold notify_change. destruct (fs_nodes s !! p) as [n|] eqn:E;
    intros H; inversion H; subst; repeat split; auto.
  - intros q Hq. cbn. now rewrite lookup_insert_ne.
  - cbn. now rewrite lookup_insert_eq.
Qed.

Lemma lstat_lookup p s k :
  lstat p s = Ok k <-> exists n, fs_nodes s !! p = Some n /\ n_stat n = k.
Proof.
  unfold lstat. destruct (fs_nodes s !! p) as [n|]; split.
  - intros H; inversion H; eauto.
  - intros [n' [H1 H2]]; inversion H1; subst; reflexivity.
  - discriminate.
  - intros [n' [H1 _]]; discriminate.
Qed.

(** The attribute update of [create_me], applied. *)
Lemma create_me_attr (st k : kstat) :
  apply_attr
    {| ia_valid := Z.lor ATTR_MODE (Z.lor ATTR_UID (Z.lor ATTR_GID
                     (Z.lor ATTR_ATIME ATTR_MTIME)));
       ia_mode := st_mode st; ia_uid := st_uid st; ia_gid := st_gid st;
       ia_size := 0; ia_atime := st_atime st; ia_mtime := st_mtime st;
       ia_ctime := st_ctime st |} k
  = {| st_mode := Z.lor (Z.land (st_mode st) S_IALLUGO)
                        (Z.land (st_mode k) (Z.lnot S_IALLUGO));
       st_uid := st_uid st; st_gid := st_gid st; st_size := st_size k;
       st_atime := st_atime st; st_mtime := st_mtime st; st_ctime := st_ctime k |}.
Proof. reflexivity. Qed.

(** ** C6: creating an ME and finding it again *)

(** A successful [create_me]: the file created, and the stat it carries
    once the attributes are applied. *)
Lemma create_me_success me_path (st : kstat) s s' :
  create_me me_path st s = (0, s') ->
  exists s1 k M,
    creat_worker me_path (Z.land (st_mode st) VALID_MODES_MASK) s = (Ok me_path, s1) /\
    lstat me_path s1 = Ok k /\ st_size k = 0 /\ S_ISREG (st_mode k) = true /\
    (fs_nodes s !! me_path = None ->
     st_mode k = Z.lor (Z.land (st_mode st) VALID_MODES_MASK) S_IFREG) /\
    lstat me_path s' = Ok M /\
    st_uid M = st_uid st /\ st_gid M = st_gid st /\
    st_atime M = st_atime st /\ st_mtime M = st_mtime st /\
    Z.land (st_mode M) VALID_MODES_MASK = Z.land (st_mode st) VALID_MODES_MASK /\
    Z.land (st_mode M) S_IFMT = S_IFREG /\
    st_size M = 0 /\ st_ctime M = st_ctime k.
Proof.
  intros Hc. unfold create_me in Hc.
  change (Z.land (st_mode st) VALID_MODES_MASK) with (clear_mode_flags (st_mode st)).
  destruct (creat_worker me_path _ s) as [[fd|e] s1] eqn:Hcw.
  2:{ apply creat_worker_err in Hcw as [_ He]. inversion Hc; lia. }
  pose proof Hcw as Hcw'.
  apply creat_worker_ok in Hcw' as (-> & _ & _ & k & Hk & Hsz & Hreg & Hnew).
  apply notify_change_ok in Hc as (_ & _ & Hn).
  apply lstat_lookup in Hk as (n & Hn1 & <-). rewrite Hn1 in Hn. destruct Hn as [_ Hn].
  rewrite create_me_attr in Hn.
  match type of Hn with _ = Some (mk_node ?M _) =>
    exists s1, (n_stat n), M end.
  assert (Z.testbit S_IALLUGO = Z.testbit VALID_MODES_MASK) as EA by reflexivity.
  split; [reflexivity|]. split; [apply lstat_lookup; eauto|].
  split; [exact Hsz|]. split; [exact Hreg|]. split.
  { intros E. rewrite E in Hnew. rewrite Hnew. cbn.
    unfold clear_mode_flags. change S_IALLUGO with VALID_MODES_MASK.
    now rewrite <- Z.land_assoc, Z.land_diag. }
  split. { unfold lstat. now rewrite Hn. }
  cbn. unfold clear_mode_flags.
  repeat (split; [reflexivity|]). split; [|split; [|split; [exact Hsz|reflexivity]]].
  - change S_IALLUGO with VALID_MODES_MASK. bitwise i.
    destruct (Z.testbit (st_mode st) i), (Z.testbit VALID_MODES_MASK i),
      (Z.testbit (st_mode (n_stat n)) i); reflexivity.
  - unfold S_ISREG in Hreg. apply Z.eqb_eq in Hreg. rewrite <- Hreg.
    bitwise i.
    assert (Z.testbit S_IALLUGO i && Z.testbit S_IFMT i = false) as D.
    { rewrite <- Z.land_spec. change (Z.land S_IALLUGO S_IFMT) with 0.
      apply Z.bits_0. }
    destruct (Z.testbit (st_mode st) i), (Z.testbit S_IALLUGO i),
      (Z.testbit (st_mode (n_stat n)) i), (Z.testbit S_IFMT i);
      try reflexivity; discriminate.
Qed.

(** C6, as stated, fails on the change time: [create_me] fills [ia_ctime]
    but leaves [ATTR_CTIME] out of [ia_valid], so the ME found afterwards
    has the change time of its creation (100), not the one of the given
    stat (22). *)
Lemma create_me_drops_ctime :
  exists s' M,
    create_me "/rw/a/.me.b.txt" Sample.ro_stat Sample.ro_only = (0, s') /\
    find_me Sample.ctx "/a/b.txt" s' = MeFound "/rw/a/.me.b.txt" M /\
    st_ctime Sample.ro_stat = 22 /\ st_ctime M = 100.
Proof. do 2 eexists. vm_compute. repeat split. Qed.

(** C6, amended.  [create_me] creates (or truncates) a zero-size regular
    file at the ME path, its creation mode being the mode of the stat with
    the non-alterable bits cleared, then applies one attribute update that
    sets mode, uid, gid, atime and mtime from the stat.  A [find_me] that
    follows yields a stat with the uid, gid, atime and mtime of the stat
    and the same mode within the alterable mask; the size is 0 and the
    change time is left as the creation set it. *)
Theorem create_me_then_find_me ctx P me_path (st : kstat) s s' :
  path_to_special ctx P ME = Ok me_path ->
  create_me me_path st s = (0, s') ->
  exists s1 k M,
    creat_worker me_path (Z.land (st_mode st) VALID_MODES_MASK) s = (Ok me_path, s1) /\
    lstat me_path s1 = Ok k /\ st_size k = 0 /\ S_ISREG (st_mode k) = true /\
    (fs_nodes s !! me_path = None ->
     st_mode k = Z.lor (Z.land (st_mode st) VALID_MODES_MASK) S_IFREG) /\
    find_me ctx P s' = MeFound me_path M /\
    st_uid M = st_uid st /\ st_gid M = st_gid st /\
    st_atime M = st_atime st /\ st_mtime M = st_mtime st /\
    Z.land (st_mode M) VALID_MODES_MASK = Z.land (st_mode st) VALID_MODES_MASK /\
    Z.land (st_mode M) S_IFMT = S_IFREG /\
    st_size M = 0 /\ st_ctime M = st_ctime k.
Proof.
  intros Hp Hc.
  destruct (create_me_success _ _ _ _ Hc)
    as (s1 & k & M & Hcw & Hk & Hsz & Hreg & Hnew & HM & Hrest).
  exists s1, k, M. split; [exact Hcw|]. split; [exact Hk|]. split; [exact Hsz|].
  split; [exact Hreg|]. split; [exact Hnew|]. split; [|exact Hrest].
  unfold find_me. now rewrite Hp, HM.
Qed.

Lemma create_me_then_find_me_witness :
  exists s1 k M,
    creat_worker "/rw/a/.me.b.txt" (Z.land (st_mode Sample.ro_stat) VALID_MODES_MASK)
      Sample.ro_only = (Ok "/rw/a/.me.b.txt", s1) /\
    lstat "/rw/a/.me.b.txt" s1 = Ok k /\ st_size k = 0 /\ S_ISREG (st_mode k) = true /\
    (fs_nodes Sample.ro_only !! "/rw/a/.me.b.txt" = None ->
     st_mode k = Z.lor (Z.land (st_mode Sample.ro_stat) VALID_MODES_MASK) S_IFREG) /\
    find_me Sample.ctx "/a/b.txt"
      (snd (create_me "/rw/a/.me.b.txt" Sample.ro_stat Sample.ro_only))
    = MeFound "/rw/a/.me.b.txt" M /\
    st_uid M = 1000 /\ st_gid M = 1000 /\ st_atime M = 20 /\ st_mtime M = 21 /\
    Z.land (st_mode M) VALID_MODES_MASK
    = Z.land (st_mode Sample.ro_stat) VALID_MODES_MASK /\
    Z.land (st_mode M) S_IFMT = S_IFREG /\
    st_size M = 0 /\ st_ctime M = st_ctime k.
Proof.
  apply (create_me_then_find_me Sample.ctx "/a/b.txt" "/rw/a/.me.b.txt"
           Sample.ro_stat Sample.ro_only); reflexivity.
Defined.

(** ** Flags *)

Lemma land_pow2 (v k : Z) :
  0 <= k -> Z.land v (2 ^ k) = if Z.testbit v k then 2 ^ k else 0.
Proof.
  intros Hk. bitwise i. rewrite (Z.pow2_bits_eqb k i Hk).
  destruct (Z.eqb_spec k i) as [->|Hne].
  - destruct (Z.testbit v i); cbn; [now rewrite Z.pow2_bits_eqb, Z.eqb_refl | now rewrite Z.bits_0].
  - rewrite andb_false_r. destruct (Z.testbit v k); [|now rewrite Z.bits_0].
    rewrite Z.pow2_bits_eqb by assumption. symmetry. now apply Z.eqb_neq.
Qed.

Lemma has_attr_pow2 (v k : Z) : 0 <= k -> has_attr v (2 ^ k) = Z.testbit v k.
Proof.
  intros Hk. unfold has_attr. rewrite land_pow2 by assumption.
  destruct (Z.testbit v k); [|reflexivity].
  destruct (Z.eqb_spec (2 ^ k) 0) as [E|E]; [|reflexivity].
  pose proof (Z.pow_pos_nonneg 2 k). lia.
Qed.

Lemma has_attr_mode v : has_attr v ATTR_MODE = Z.testbit v 0.
Proof. now apply (has_attr_pow2 v 0). Qed.
Lemma has_attr_uid v : has_attr v ATTR_UID = Z.testbit v 1.
Proof. now apply (has_attr_pow2 v 1). Qed.
Lemma has_attr_gid v : has_attr v ATTR_GID = Z.testbit v 2.
Proof. now apply (has_attr_pow2 v 2). Qed.
Lemma has_attr_size v : has_attr v ATTR_SIZE = Z.testbit v 3.
Proof. now apply (has_attr_pow2 v 3). Qed.
Lemma has_attr_atime v : has_attr v ATTR_ATIME = Z.testbit v 4.
Proof. now apply (has_attr_pow2 v 4). Qed.
Lemma has_attr_mtime v : has_attr v ATTR_MTIME = Z.testbit v 5.
Proof. now apply (has_attr_pow2 v 5). Qed.
Lemma has_attr_ctime v : has_attr v ATTR_CTIME = Z.testbit v 6.
Proof. now apply (has_attr_pow2 v 6). Qed.

(** The fields of a stat, one flag bit at a time. *)
Lemma apply_attr_bits (a : iattr) (k : kstat) :
  apply_attr a k =
  let v := ia_valid a in
  {| st_mode := if Z.testbit v 0
                then Z.lor (Z.land (ia_mode a) S_IALLUGO)
                           (Z.land (st_mode k) (Z.lnot S_IALLUGO))
                else st_mode k;
     st_uid := if Z.testbit v 1 then ia_uid a else st_uid k;
     st_gid := if Z.testbit v 2 then ia_gid a else st_gid k;
     st_size := if Z.testbit v 3 then ia_size a else st_size k;
     st_atime := if Z.testbit v 4 then ia_atime a else st_atime k;
     st_mtime := if Z.testbit v 5 then ia_mtime a else st_mtime k;
     st_ctime := if Z.testbit v 6 then ia_ctime a else st_ctime k |}.
Proof.
  unfold apply_attr. cbv zeta.
  now rewrite has_attr_mode, has_attr_uid, has_attr_gid, has_attr_size,
    has_attr_atime, has_attr_mtime, has_attr_ctime.
Qed.

Lemma apply_attr_same (a b : iattr) (k : kstat) :
  same_me_request a b -> apply_attr a k = apply_attr b k.
Proof.
  intros (Hv & Hm & Hu & Hg & Ha & Ht & H3 & H6).
  rewrite !apply_attr_bits. cbv zeta. rewrite <- Hv, H3, H6.
  now rewrite Hm, Hu, Hg, Ha, Ht.
Qed.

Lemma notify_change_same (a b : iattr) p s :
  same_me_request a b -> notify_change p a s = notify_change p b s.
Proof.
  intros H. unfold notify_change. destruct (fs_nodes s !! p); [|reflexivity].
  now rewrite (apply_attr_same a b).
Qed.

Lemma same_me_request_with_valid a b v :
  same_me_request a b -> Z.testbit v 3 = false -> Z.testbit v 6 = false ->
  same_me_request (with_valid a v) (with_valid b v).
Proof. intros (Hv & Hm & Hu & Hg & Ha & Ht & _) H3 H6. repeat split; cbn; auto. Qed.

Lemma same_me_request_with_times a b x y :
  same_me_request a b -> same_me_request (with_times a x y) (with_times b x y).
Proof.
  intros (Hv & Hm & Hu & Hg & Ha & Ht & H3 & H6).
  repeat split; cbn [ia_valid ia_mode ia_uid ia_gid ia_atime ia_mtime
                     with_times with_owner]; auto.
  - now rewrite Hv.
  - now rewrite Z.lor_spec, H3.
  - now rewrite Z.lor_spec, H6.
Qed.

Lemma same_me_request_with_owner a b x y :
  same_me_request a b -> same_me_request (with_owner a x y) (with_owner b x y).
Proof.
  intros (Hv & Hm & Hu & Hg & Ha & Ht & H3 & H6).
  repeat split; cbn [ia_valid ia_mode ia_uid ia_gid ia_atime ia_mtime
                     with_times with_owner]; auto.
  - now rewrite Hv.
  - now rewrite Z.lor_spec, H3.
  - now rewrite Z.lor_spec, H6.
Qed.

Lemma masked_request (a : iattr) :
  same_me_request (with_valid a (Z.land (ia_valid a) ME_ATTRS))
    (with_valid (strip_attr a) (Z.land (ia_valid (strip_attr a)) ME_ATTRS)).
Proof.
  repeat split; cbn [ia_valid with_valid strip_attr].
  - now rewrite <- Z.land_assoc, Z.land_diag.
  - rewrite Z.land_spec. change (Z.testbit ME_ATTRS 3) with false.
    apply andb_false_r.
  - rewrite Z.land_spec. change (Z.testbit ME_ATTRS 6) with false.
    apply andb_false_r.
Qed.

(** ** C10: the mask of [set_me_worker] *)

(** C10.  [set_me_worker] first reduces the requested change set to
    {uid, gid, atime, mtime, mode}: a request and the same request with
    every other flag removed and its size and change time blanked have the
    same effect, and the update of an existing ME leaves the size and the
    change time of the ME, and every other file, as they were. *)
Theorem set_me_worker_masks_request ctx path real_path (attr : iattr) j s :
  set_me_worker ctx path real_path attr j s
  = set_me_worker ctx path real_path (strip_attr attr) j s /\
  (forall me_path M e s',
     find_me ctx path s = MeFound me_path M ->
     set_me_worker ctx path real_path attr j s = (e, s') ->
     e = 0 /\
     (exists M', lstat me_path s' = Ok M' /\
        st_size M' = st_size M /\ st_ctime M' = st_ctime M) /\
     (forall q, q <> me_path -> fs_nodes s' !! q = fs_nodes s !! q)).
Proof.
  split.
  - unfold set_me_worker. pose proof (masked_request attr) as Hs.
    set (a := with_valid attr _) in *. set (b := with_valid (strip_attr attr) _) in *.
    clearbody a b. pose proof Hs as (Hv & Hm & _).
    assert (forall mp,
      match lstat real_path s with
      | Ok kstme =>
          let '(r, s1) := find_path ctx path s in
          match r with
          | Ok _ =>
              let '(fd, s2) :=
                creat_worker mp
                  (clear_mode_flags
                     (if has_attr (ia_valid a) ATTR_MODE then ia_mode a
                      else st_mode kstme)) s1 in
              match fd with
              | Ok fd0 =>
                  notify_change fd0
                    (let attr0 := with_valid a (Z.land (ia_valid a) (Z.lnot ATTR_MODE)) in
                     let attr1 :=
                       if negb (is_flag_set (ia_valid attr0) (Z.lor ATTR_ATIME ATTR_MTIME))
                       then with_times attr0 (st_atime kstme) (st_mtime kstme)
                       else attr0 in
                     if negb (is_flag_set (ia_valid attr1) (Z.lor ATTR_UID ATTR_GID))
                     then with_owner attr1 (st_uid kstme) (st_gid kstme)
                     else attr1) s2
              | Err e => (e, s2)
              end
          | Err e => (e, s1)
          end
      | Err e => (e, s)
      end =
      match lstat real_path s with
      | Ok kstme =>
          let '(r, s1) := find_path ctx path s in
          match r with
          | Ok _ =>
              let '(fd, s2) :=
                creat_worker mp
                  (clear_mode_flags
                     (if has_attr (ia_valid b) ATTR_MODE then ia_mode b
                      else st_mode kstme)) s1 in
              match fd with
              | Ok fd0 =>
                  notify_change fd0
                    (let attr0 := with_valid b (Z.land (ia_valid b) (Z.lnot ATTR_MODE)) in
                     let attr1 :=
                       if negb (is_flag_set (ia_valid attr0) (Z.lor ATTR_ATIME ATTR_MTIME))
                       then with_times attr0 (st_atime kstme) (st_mtime kstme)
                       else attr0 in
                     if negb (is_flag_set (ia_valid attr1) (Z.lor ATTR_UID ATTR_GID))
                     then with_owner attr1 (st_uid kstme) (st_gid kstme)
                     else attr1) s2
              | Err e => (e, s2)
              end
          | Err e => (e, s1)
          end
      | Err e => (e, s)
      end) as Hcreate.
    { intros mp. destruct (lstat real_path s) as [kstme|]; [|reflexivity].
      destruct (find_path ctx path s) as [[rp|] s1]; [|reflexivity].
      rewrite <- Hv, <- Hm.
      destruct (creat_worker mp _ s1) as [[fd|] s2]; [|reflexivity].
      apply notify_change_same. cbv zeta.
      assert (same_me_request (with_valid a (Z.land (ia_valid a) (Z.lnot ATTR_MODE)))
                (with_valid b (Z.land (ia_valid a) (Z.lnot ATTR_MODE)))) as H0.
      { destruct Hs as (? & ? & ? & ? & ? & ? & H3 & H6).
        apply same_me_request_with_valid; [repeat split; auto| |];
          now rewrite Z.land_spec, ?H3, ?H6. }
      cbn [ia_valid with_valid].
      destruct (negb (is_flag_set _ (Z.lor ATTR_ATIME ATTR_MTIME))).
      - cbn [ia_valid with_times with_valid].
        destruct (negb (is_flag_set _ (Z.lor ATTR_UID ATTR_GID))).
        + now apply same_me_request_with_owner, same_me_request_with_times.
        + now apply same_me_request_with_times.
      - cbn [ia_valid with_valid].
        destruct (negb (is_flag_set _ (Z.lor ATTR_UID ATTR_GID))).
        + now apply same_me_request_with_owner.
        + exact H0. }
    destruct (find_me ctx path s) as [mp M|mp e|e].
    + destruct (open_worker mp s); [|reflexivity]. rewrite <- Hv.
      destruct (negb (ia_valid a =? 0)); [|reflexivity].
      now apply notify_change_same.
    + apply Hcreate.
    + apply Hcreate.
  - intros me_path M e s' Hme H. unfold set_me_worker in H. rewrite Hme in H.
    unfold find_me in Hme.
    destruct (path_to_special ctx path ME) as [mp|]; [|discriminate].
    destruct (lstat mp s) as [k|] eqn:Hk; [|discriminate].
    inversion Hme; subst mp k. clear Hme.
    pose proof Hk as Hk'. apply lstat_lookup in Hk' as (n & Hn & HM).
    unfold open_worker in H. rewrite Hn in H.
    destruct (negb (_ =? 0)).
    + apply notify_change_ok in H as (_ & Hfr & Hp). rewrite Hn in Hp.
      destruct Hp as [-> Hp]. split; [reflexivity|]. split; [|exact Hfr].
      eexists. split; [apply lstat_lookup; eauto|].
      rewrite apply_attr_bits. cbv zeta.
      cbn [st_size st_ctime ia_valid with_valid ia_size ia_ctime].
      rewrite !Z.land_spec, HM.
      change (Z.testbit ME_ATTRS 3) with false. change (Z.testbit ME_ATTRS 6) with false.
      now rewrite !andb_false_r.
    + inversion H; subst. split; [reflexivity|]. split; [eauto|auto].
Qed.

Lemma set_me_worker_masks_request_witness :
  exists M',
    lstat "/rw/a/.me.b.txt"
      (snd (set_me_worker Sample.ctx "/a/b.txt" "/ro/a/b.txt" Sample.wide_request
              Sample.no_junk Sample.ro_with_me)) = Ok M' /\
    st_size M' = 0 /\ st_ctime M' = 32.
Proof.
  destruct (set_me_worker_masks_request Sample.ctx "/a/b.txt" "/ro/a/b.txt"
              Sample.wide_request Sample.no_junk Sample.ro_with_me) as [_ H].
  destruct (H "/rw/a/.me.b.txt" Sample.me_stat 0
              (snd (set_me_worker Sample.ctx "/a/b.txt" "/ro/a/b.txt"
                      Sample.wide_request Sample.no_junk Sample.ro_with_me))
              eq_refl eq_refl) as (_ & HM & _).
  exact HM.
Defined.

(** ** C4: rmdir of a directory of the read-only branch *)

(** C4 fails on the code.  When the directory resolves on the read-only
    branch and the credential check grants the removal ([can_remove]
    answers 0), [hepunion_rmdir] leaves through [if (!can_remove(...))
    break;]: it returns [READ_ONLY], that is 0, and the state is unchanged;
    there is no emptiness check and no whiteout. *)
Theorem rmdir_read_only_granted_does_nothing ctx dir name j s path rp :
  get_relative_path_for_file dir name = Ok path ->
  find_file ctx path Any s = Ok (READ_ONLY, rp) ->
  can_remove path rp s = 0 ->
  hepunion_rmdir ctx dir name j s = (0, s).
Proof.
  intros Hp Hf Hc. unfold hepunion_rmdir. rewrite Hp, Hf. cbn. now rewrite Hc.
Qed.

Lemma rmdir_read_only_granted_does_nothing_witness :
  is_empty_dir "/d" (Some "/ro/d") None Sample.ro_dir_nonempty = - ENOTEMPTY /\
  hepunion_rmdir Sample.ctx "" "d" Sample.no_junk Sample.ro_dir_nonempty
  = (0, Sample.ro_dir_nonempty).
Proof.
  split; [reflexivity|].
  apply (rmdir_read_only_granted_does_nothing Sample.ctx "" "d" Sample.no_junk
           Sample.ro_dir_nonempty "/d" "/ro/d"); reflexivity.
Defined.

(** The empty directory /e of the read-only branch, removal granted:
    [hepunion_rmdir] answers 0 and no whiteout exists afterwards. *)
Example rmdir_read_only_empty_no_whiteout :
  let r := hepunion_rmdir Sample.ctx "" "e" Sample.no_junk Sample.ro_dir_empty in
  fst r = 0 /\ exists_at "/rw/.wh.e" (snd r) = false /\
  find_file Sample.ctx "/e" Any (snd r) = Ok (READ_ONLY, "/ro/e").
Proof. vm_compute. repeat split. Qed.

(** The same directory when the credential check refuses: the code goes
    on, creates the whiteout and answers 0. *)
Example rmdir_read_only_denied_whiteout :
  let r := hepunion_rmdir Sample.ctx "" "e" Sample.no_junk Sample.ro_dir_denied in
  can_remove "/e" "/ro/e" Sample.ro_dir_denied = - EACCES /\
  fst r = 0 /\ exists_at "/rw/.wh.e" (snd r) = true.
Proof. vm_compute. repeat split. Qed.

(** ** C2: reserved names *)

(** C2 fails on the code.  Creating /foo/.me.evil answers 0 and leaves the
    file on the read-write branch; none of the operations tests the name
    against the ME and whiteout prefixes. *)
Theorem create_reserved_name_succeeds :
  let r := hepunion_create Sample.ctx "/foo" ".me.evil" 420 Sample.rw_foo in
  is_me ".me.evil" = true /\
  fst r = 0 /\ fst r <> - EINVAL /\
  exists_at "/rw/foo/.me.evil" Sample.rw_foo = false /\
  exists_at "/rw/foo/.me.evil" (snd r) = true.
Proof. vm_compute. repeat split. discriminate. Qed.

(** The same for a link whose name carries the whiteout prefix. *)
Example link_reserved_name_succeeds :
  let r := hepunion_link Sample.ctx "/shared" "" ".wh.alias" Sample.no_junk
             Sample.ro_shared in
  is_whiteout ".wh.alias" = true /\
  fst r = 0 /\ exists_at "/rw/.wh.alias" (snd r) = true.
Proof. vm_compute. repeat split. Qed.

(** ** The parent chain *)

Lemma dir_prefixes_from_spec acc p d :
  In d (dir_prefixes_from acc p) -> exists r, acc +:+ p = d +:+ String "/" r.
Proof.
  revert acc. induction p as [|c rest IH]; intros acc H; cbn in H; [contradiction|].
  apply in_app_or in H as [H|H].
  - destruct (Ascii.eqb_spec c "/") as [->|]; [|contradiction].
    destruct (negb _); [|contradiction]. destruct H as [<-|[]]. eauto.
  - apply IH in H as [r Hr]. exists r. rewrite <- Hr.
    now rewrite app_assoc_s.
Qed.

Lemma dir_prefixes_shorter p d : In d (dir_prefixes p) -> strlen d < strlen p.
Proof.
  intros H. apply dir_prefixes_from_spec in H as [r Hr]. unapp. rewrite Hr.
  rewrite strlen_app. unfold strlen at 3. cbn [String.length]. lia.
Qed.

Lemma mkdir_worker_ok p mode s e s1 :
  mkdir_worker p mode s = (e, s1) ->
  same_env s s1 /\
  (forall q, q <> p -> fs_nodes s1 !! q = fs_nodes s !! q) /\
  (forall q n, fs_nodes s !! q = Some n -> fs_nodes s1 !! q = Some n) /\
  ((e <? 0) = false -> fs_nodes s !! p = None /\ is_Some (fs_nodes s1 !! p)).
Proof.
  unfold mkdir_worker. destruct (fs_nodes s !! p) as [n0|] eqn:E.
  - intros H; inversion H; subst. repeat split; auto; discriminate.
  - destruct (decide _) as [Hin|Hnin]; intros H; inversion H; subst.
    + repeat split; auto; discriminate.
    + split; [auto|]. split; [|split].
      * intros q Hq. cbn. now rewrite lookup_insert_ne.
      * intros q n Hq. cbn. rewrite lookup_insert_ne; [exact Hq | congruence].
      * intros _. split; [reflexivity|]. cbn. rewrite lookup_insert_eq. eauto.
Qed.

(** [make_dirs] only adds names, and only above the path. *)
Lemma make_dirs_frame ctx ds s e s' :
  make_dirs ctx ds s = (e, s') ->
  same_env s s' /\
  (forall q n, fs_nodes s !! q = Some n -> fs_nodes s' !! q = Some n) /\
  (forall q, (forall d, In d ds -> q <> read_write_branch ctx +:+ d) ->
             fs_nodes s' !! q = fs_nodes s !! q).
Proof.
  revert s. induction ds as [|d ds IH]; intros s H; cbn in H.
  - inversion H; subst. split; [|split]; auto.
  - destruct (fs_nodes s !! (read_write_branch ctx +:+ d)) as [n|] eqn:E.
    + destruct (S_ISDIR _).
      * apply IH in H as (He & Hp & Hf). split; [|split]; auto.
        intros q Hq. apply Hf. intros d' Hd'. apply Hq. now right.
      * inversion H; subst. split; [|split]; auto.
    + destruct (lstat (read_only_branch ctx +:+ d) s) as [st|].
      * destruct (mkdir_worker _ (st_mode st) s) as [e1 s1] eqn:Hm.
        apply mkdir_worker_ok in Hm as (He1 & Hf1 & Hp1 & Hn1).
        destruct (e1 <? 0) eqn:L1.
        { inversion H; subst. split; [|split]; auto.
          intros q Hq. apply Hf1. apply Hq. now left. }
        destruct (notify_change _ _ s1) as [e2 s2] eqn:Hnc.
        apply notify_change_ok in Hnc as (He2 & Hf2 & _).
        assert (forall q n, fs_nodes s !! q = Some n -> fs_nodes s2 !! q = Some n) as Hp2.
        { intros q n Hq. rewrite Hf2; [now apply Hp1|]. intros ->. congruence. }
        destruct (e2 <? 0).
        { inversion H; subst. split; [|split]; eauto using same_env_trans.
          intros q Hq. rewrite Hf2, Hf1; auto; apply Hq; now left. }
        apply IH in H as (He & Hp & Hf). split; [|split]; eauto using same_env_trans.
        intros q Hq. rewrite Hf, Hf2, Hf1; auto; try (apply Hq; now left).
        intros d' Hd'. apply Hq. now right.
      * destruct (mkdir_worker _ S_IRWXUGO s) as [e1 s1] eqn:Hm.
        apply mkdir_worker_ok in Hm as (He1 & Hf1 & Hp1 & Hn1).
        destruct (e1 <? 0) eqn:L1.
        { inversion H; subst. split; [|split]; auto.
          intros q Hq. apply Hf1. apply Hq. now left. }
        apply IH in H as (He & Hp & Hf). split; [|split]; eauto using same_env_trans.
        intros q Hq. rewrite Hf, Hf1; auto; try (apply Hq; now left).
        intros d' Hd'. apply Hq. now right.
Qed.

(** No name as long as the path itself is touched by [find_path]. *)
Lemma find_path_frame ctx p s r s' :
  find_path ctx p s = (r, s') ->
  same_env s s' /\
  (forall q n, fs_nodes s !! q = Some n -> fs_nodes s' !! q = Some n) /\
  (forall x, strlen p <= strlen x ->
     fs_nodes s' !! (read_write_branch ctx +:+ x)
     = fs_nodes s !! (read_write_branch ctx +:+ x)) /\
  (forall rp, r = Ok rp ->
     rp = read_write_branch ctx +:+ p /\ strlen rp <= PATH_MAX) /\
  (forall e, r = Err e -> e < 0).
Proof.
  unfold find_path. destruct (rsplit p) as [[d n]|].
  2:{ intros H; inversion H; subst. repeat split; auto; try discriminate.
      intros e He; inversion He; reflexivity. }
  cbn. destruct (PATH_MAX <? _) eqn:L.
  { intros H; inversion H; subst. repeat split; auto; try discriminate.
    intros e He; inversion He; reflexivity. }
  destruct (make_dirs ctx (dir_prefixes p) s) as [e s1] eqn:Hm.
  apply make_dirs_frame in Hm as (He & Hp & Hf).
  assert (forall x, strlen p <= strlen x ->
            fs_nodes s1 !! (read_write_branch ctx +:+ x)
            = fs_nodes s !! (read_write_branch ctx +:+ x)) as Hx.
  { intros x Hx. apply Hf. intros d' Hd' E.
    apply (inj (String.app _)) in E. subst x.
    apply dir_prefixes_shorter in Hd'. lia. }
  destruct (e <? 0) eqn:Le; intros H; inversion H; subst;
    (split; [exact He|]); (split; [exact Hp|]); (split; [exact Hx|]); split;
    try discriminate.
  - intros e0 E0; inversion E0; subst. now apply Z.ltb_lt.
  - intros rp E0; inversion E0; subst. split; [reflexivity|]. now apply Z.ltb_ge in L.
Qed.

Lemma unlink_ok p s e s1 :
  unlink p s = (e, s1) ->
  same_env s s1 /\
  (forall q, q <> p -> fs_nodes s1 !! q = fs_nodes s !! q) /\
  match fs_nodes s !! p with
  | Some n =>
      if S_ISDIR (st_mode (n_stat n)) then e = - EISDIR /\ s1 = s
      else e = 0 /\ fs_nodes s1 !! p = None
  | None => e = - ENOENT /\ s1 = s
  end.
Proof.
  unfold unlink. destruct (fs_nodes s !! p) as [n0|] eqn:E.
  - destruct (S_ISDIR _); intros H; inversion H; subst; repeat split; auto.
    + intros q Hq. cbn. now rewrite lookup_delete_ne.
    + cbn. now rewrite lookup_delete_eq.
  - intros H; inversion H; subst. repeat split; auto.
Qed.

(** [unlink_whiteout] touches the whiteout only, and removes it when it
    is not a directory. *)
Lemma unlink_whiteout_ok ctx p s e s1 :
  unlink_whiteout ctx p s = (e, s1) ->
  same_env s s1 /\
  (forall q, (forall wh, path_to_special ctx p WH = Ok wh -> q <> wh) ->
             fs_nodes s1 !! q = fs_nodes s !! q) /\
  (forall wh, path_to_special ctx p WH = Ok wh ->
     (forall n, fs_nodes s !! wh = Some n -> S_ISDIR (st_mode (n_stat n)) = false) ->
     exists_at wh s1 = false).
Proof.
  unfold unlink_whiteout. destruct (path_to_special ctx p WH) as [wh|e0] eqn:Hwh.
  2:{ intros H; inversion H; subst. repeat split; auto. discriminate. }
  unfold exists_at at 1. destruct (fs_nodes s !! wh) as [n0|] eqn:E.
  - intros H. apply unlink_ok in H as (He & Hf & Hp). rewrite E in Hp.
    split; [exact He|]. split.
    + intros q Hq. apply Hf. now apply Hq.
    + intros wh' Hwh' Hnd. inversion Hwh'; subst wh'.
      rewrite (Hnd n0 E) in Hp. destruct Hp as [_ Hp].
      unfold exists_at. now rewrite Hp.
  - intros H; inversion H; subst. repeat split; auto.
    intros wh' Hwh' _. inversion Hwh'; subst wh'. unfold exists_at. now rewrite E.
Qed.

Lemma find_file_any ctx p s o rp :
  find_file ctx p Any s = Ok (o, rp) ->
  exists_at rp s = true /\
  ((o = READ_ONLY /\ rp = read_only_branch ctx +:+ p) \/
   (o = READ_WRITE /\ rp = read_write_branch ctx +:+ p)).
Proof.
  unfold find_file. destruct (path_to_special ctx p WH) as [wh|]; [|discriminate].
  destruct (exists_at wh s); [discriminate|]. cbn.
  destruct (PATH_MAX <? _); [discriminate|].
  destruct (exists_at (read_write_branch ctx +:+ p) s) eqn:Hrw.
  { intros H; inversion H; subst. auto. }
  destruct (PATH_MAX <? _); [discriminate|].
  destruct (exists_at (read_only_branch ctx +:+ p) s) eqn:Hro; [|discriminate].
  intros H; inversion H; subst. auto.
Qed.

Lemma exists_at_lookup p s : exists_at p s = true <-> is_Some (fs_nodes s !! p).
Proof.
  unfold exists_at. destruct (fs_nodes s !! p); split; eauto.
  - discriminate.
  - intros [x Hx]; discriminate.
Qed.

(** ** C9: link *)



(** A source on the read-write branch gives a second name of its node. *)
Example link_read_write_hard_link :
  let s' := snd (hepunion_link Sample.ctx "/shared" "" "alias" Sample.no_junk
                   Sample.rw_shared) in
  fs_nodes s' !! "/rw/alias" = Some (mk_node Sample.rw_stat None) /\
  fs_nodes s' !! "/rw/shared" = Some (mk_node Sample.rw_stat None).
Proof. vm_compute. split; reflexivity. Qed.

(** ** Branches and special files *)

Lemma app_eq_prefix (a b p q : string) :
  a +:+ p = b +:+ q -> String.prefix a b = true \/ String.prefix b a = true.
Proof.
  revert b. induction a as [|c a IH]; intros b H.
  - left. now destruct b.
  - destruct b as [|c' b]; [right; reflexivity|].
    unapp. inversion H; subst. cbn. destruct (ascii_dec c' c'); [|contradiction].
    now apply IH.
Qed.

Lemma branches_apart_ne ctx p q :
  branches_apart ctx -> read_only_branch ctx +:+ p <> read_write_branch ctx +:+ q.
Proof.
  intros [H1 H2] E. apply app_eq_prefix in E as [E|E]; congruence.
Qed.

Lemma path_to_special_rw ctx p k sp :
  path_to_special ctx p k = Ok sp ->
  exists x, sp = read_write_branch ctx +:+ x /\ strlen p <= strlen x.
Proof.
  unfold path_to_special. destruct (rsplit p) as [[d n]|] eqn:Hs; [|discriminate].
  destruct (PATH_MAX <? _); [discriminate|]. intros H; inversion H; subst.
  eexists. split; [reflexivity|]. apply rsplit_app in Hs. subst p.
  rewrite !strlen_app. pose proof (strlen_nonneg (special_prefix k)). lia.
Qed.

Lemma merge_attr_same_visible (D M M' : kstat) :
  same_metadata M' M -> same_visible (merge_attr D M') (merge_attr D M).
Proof.
  intros (Hu & Hg & Ha & Hm & Hmode).
  unfold same_visible, merge_attr;
    cbn [st_mode st_uid st_gid st_size st_atime st_mtime].
  unfold clear_mode_flags. rewrite Hmode. repeat split; assumption.
Qed.

Lemma create_me_frame me_path st s e s' :
  create_me me_path st s = (e, s') ->
  same_env s s' /\ (forall q, q <> me_path -> fs_nodes s' !! q = fs_nodes s !! q).
Proof.
  unfold create_me. destruct (creat_worker me_path _ s) as [[fd|e0] s1] eqn:Hc.
  - apply creat_worker_ok in Hc as (-> & He & Hf & _). intros H.
    apply notify_change_ok in H as (He' & Hf' & _). split; [eauto using same_env_trans|].
    intros q Hq. now rewrite Hf', Hf.
  - apply creat_worker_err in Hc as [-> _]. intros H; inversion H; subst. auto.
Qed.

(** What [create_whiteout] changes: names above the path, and the
    whiteout, which exists when the call succeeds. *)
Lemma create_whiteout_frame ctx p s r s' :
  create_whiteout ctx p s = (r, s') ->
  same_env s s' /\
  (forall q n, (forall wh, path_to_special ctx p WH = Ok wh -> q <> wh) ->
     fs_nodes s !! q = Some n -> fs_nodes s' !! q = Some n) /\
  (forall x, strlen p <= strlen x ->
     (forall wh, path_to_special ctx p WH = Ok wh -> read_write_branch ctx +:+ x <> wh) ->
     fs_nodes s' !! (read_write_branch ctx +:+ x)
     = fs_nodes s !! (read_write_branch ctx +:+ x)) /\
  match r with
  | Ok wh => path_to_special ctx p WH = Ok wh /\ exists_at wh s' = true
  | Err e =>
      e < 0 /\
      forall wh, path_to_special ctx p WH = Ok wh ->
        fs_nodes s !! wh = None -> fs_nodes s' !! wh = None
  end.
Proof.
  unfold create_whiteout. destruct (path_to_special ctx p WH) as [wh|e0] eqn:Hwh.
  2:{ intros H; inversion H; subst. split; [auto|]. split; [auto|]. split; [auto|].
      unfold path_to_special in Hwh. destruct (rsplit p) as [[d n]|].
      - destruct (PATH_MAX <? _); inversion Hwh. split; [reflexivity|discriminate].
      - inversion Hwh. split; [reflexivity|discriminate]. }
  destruct (find_path ctx p s) as [r1 s1] eqn:Hfp.
  apply find_path_frame in Hfp as (He & Hpres & Hfr & _ & Herr).
  destruct (path_to_special_rw _ _ _ _ Hwh) as (xw & Exw & Lxw).
  destruct r1 as [rp|e1].
  - destruct (creat_worker wh S_IRUSR s1) as [[fd|e2] s2] eqn:Hc; intros H;
      inversion H; subst r s'; clear H.
    + apply creat_worker_ok in Hc as (_ & He2 & Hf2 & k & Hk & _).
      split; [eauto using same_env_trans|]. split; [|split; [|split]].
      * intros q n Hq Hn. rewrite Hf2; [now apply Hpres|]. now apply Hq.
      * intros x Hx Hq. rewrite Hf2; [now apply Hfr|]. now apply Hq.
      * reflexivity.
      * apply exists_at_lstat. eauto.
    + apply creat_worker_err in Hc as [-> He2].
      split; [exact He|]. split; [|split; [|split]].
      * intros q n _ Hn. now apply Hpres.
      * intros x Hx _. now apply Hfr.
      * exact He2.
      * intros wh' Hwh' Hn. inversion Hwh'; subst wh'. rewrite Exw in *.
        rewrite Hfr; assumption.
  - intros H; inversion H; subst r s'; clear H.
    split; [exact He|]. split; [|split; [|split]].
    + intros q n _ Hn. now apply Hpres.
    + intros x Hx _. now apply Hfr.
    + now apply Herr.
    + intros wh' Hwh' Hn. inversion Hwh'; subst wh'. rewrite Exw in *.
      rewrite Hfr; assumption.
Qed.

Lemma find_file_ext ctx p i s s' :
  (forall wh, path_to_special ctx p WH = Ok wh -> exists_at wh s' = exists_at wh s) ->
  exists_at (read_write_branch ctx +:+ p) s' = exists_at (read_write_branch ctx +:+ p) s ->
  exists_at (read_only_branch ctx +:+ p) s' = exists_at (read_only_branch ctx +:+ p) s ->
  find_file ctx p i s' = find_file ctx p i s.
Proof.
  intros Hwh Hrw Hro. unfold find_file.
  destruct (path_to_special ctx p WH) as [wh|]; [|reflexivity].
  rewrite (Hwh wh eq_refl). cbn. now rewrite Hrw, Hro.
Qed.

Lemma exists_at_same p s s' :
  fs_nodes s' !! p = fs_nodes s !! p -> exists_at p s' = exists_at p s.
Proof. unfold exists_at. now intros ->. Qed.

Lemma lstat_same p s s' :
  fs_nodes s' !! p = fs_nodes s !! p -> lstat p s' = lstat p s.
Proof. unfold lstat. now intros ->. Qed.

Lemma whiteout_hides ctx p wh s i :
  path_to_special ctx p WH = Ok wh -> exists_at wh s = true ->
  find_file ctx p i s = Err (- ENOENT).
Proof. intros H1 H2. unfold find_file. now rewrite H1, H2. Qed.

Lemma find_me_found ctx p s me_path M :
  find_me ctx p s = MeFound me_path M ->
  path_to_special ctx p ME = Ok me_path /\ lstat me_path s = Ok M.
Proof.
  unfold find_me. destruct (path_to_special ctx p ME) as [mp|]; [|discriminate].
  destruct (lstat mp s) eqn:E; [|discriminate]. intros H; inversion H; subst. auto.
Qed.

(** ** Unlink of a file of the read-only branch *)

(** The runs of [hepunion_unlink] on a path that resolves on the
    read-only branch, removal granted.  When an ME exists it is unlinked
    first (and nothing changes if that fails); then the whiteout is
    created.  On success the whiteout exists, the ME is gone and the path
    no longer resolves.  When the whiteout cannot be created after the ME
    was deleted, the ME is recreated from the saved stat; if that succeeds
    the ME carries the saved owner, times and alterable mode bits again,
    and [get_file_attr] shows the file as before, the change time apart.
    Without an ME the whiteout is created alone; when that fails, the
    state is left as [create_whiteout] left it only if the stack holds 0
    where [has_me] lives, and otherwise [create_me] is run on the
    unwritten [kstbuf]. *)
Lemma unlink_read_only_whiteout_or_rollback
    ctx dir name j s path real_path err s' :
  branches_apart ctx ->
  get_relative_path_for_file dir name = Ok path ->
  find_file ctx path Any s = Ok (READ_ONLY, real_path) ->
  can_remove path real_path s = 0 ->
  hepunion_unlink ctx dir name j s = (err, s') ->
  match find_me ctx path s with
  | MeFound me_path M =>
      exists e1 s1, unlink me_path s = (e1, s1) /\
        ((e1 < 0 /\ err = e1 /\ s' = s) \/
         (e1 = 0 /\ exists_at me_path s1 = false /\
          exists r s2, create_whiteout ctx path s1 = (r, s2) /\
            match r with
            | Ok wh =>
                err = 0 /\ s' = s2 /\ exists_at wh s' = true /\
                exists_at me_path s' = false /\
                find_file ctx path Any s' = Err (- ENOENT)
            | Err e =>
                err = e /\ e < 0 /\
                exists e3, create_me me_path M s2 = (e3, s') /\
                  (e3 = 0 ->
                   (exists M', find_me ctx path s' = MeFound me_path M' /\
                               same_metadata M' M) /\
                   (exists G G', get_file_attr ctx path s = Ok G /\
                                 get_file_attr ctx path s' = Ok G' /\
                                 same_visible G' G))
            end))
  | MeMissing me_path _ =>
      exists r s1, create_whiteout ctx path s = (r, s1) /\
        match r with
        | Ok wh =>
            err = 0 /\ s' = s1 /\ exists_at wh s' = true /\
            find_file ctx path Any s' = Err (- ENOENT)
        | Err e =>
            err = e /\ e < 0 /\ (junk_int j = 0 -> s' = s1) /\
            (junk_int j <> 0 -> s' = snd (create_me me_path (junk_stat j) s1))
        end
  | MeNoPath _ =>
      exists r s1, create_whiteout ctx path s = (r, s1) /\
        match r with
        | Ok wh =>
            err = 0 /\ s' = s1 /\ exists_at wh s' = true /\
            find_file ctx path Any s' = Err (- ENOENT)
        | Err e =>
            err = e /\ e < 0 /\ (junk_int j = 0 -> s' = s1) /\
            (junk_int j <> 0 -> s' = snd (create_me (junk_path j) (junk_stat j) s1))
        end
  end.
Proof.
  intros Hapart Hp Hf Hc Hrun. unfold hepunion_unlink in Hrun.
  rewrite Hp, Hf in Hrun. cbn in Hrun. rewrite Hc in Hrun. cbn in Hrun.
  pose proof Hf as Hf'.
  apply find_file_read_only in Hf' as (-> & Hro & Hrw & wh & Hwh & Hnowh).
  assert (forall r s0 s1, create_whiteout ctx path s0 = (r, s1) ->
            match r with
            | Ok wh' => exists_at wh' s1 = true /\
                        find_file ctx path Any s1 = Err (- ENOENT)
            | Err e => e < 0
            end) as Hcw.
  { intros r s0 s1 H. apply create_whiteout_frame in H as (_ & _ & _ & H).
    destruct r as [wh'|e]; [|tauto]. destruct H as [H1 H2]. split; [exact H2|].
    now apply (whiteout_hides ctx path wh'). }
  destruct (find_me ctx path s) as [me_path M|me_path e0|e0] eqn:Hme.
  - apply find_me_found in Hme as [Hmp HM].
    destruct (unlink me_path s) as [e1 s1] eqn:Hu. exists e1, s1. split; [reflexivity|].
    apply unlink_ok in Hu as (_ & Hfu & Hpu).
    apply lstat_lookup in HM as (nm & Hnm & HnM). rewrite Hnm in Hpu.
    destruct (S_ISDIR _).
    { destruct Hpu as [-> ->]. cbn in Hrun. injection Hrun as <- <-. left.
      repeat split. }
    destruct Hpu as [-> Hgone]. cbn in Hrun. right. split; [reflexivity|].
    split; [unfold exists_at; now rewrite Hgone|].
    assert (me_path <> wh) as Hmw by (eapply me_ne_wh; eauto).
    destruct (path_to_special_rw _ _ _ _ Hmp) as (xm & Exm & Lxm).
    destruct (path_to_special_rw _ _ _ _ Hwh) as (xw & Exw & Lxw).
    destruct (create_whiteout ctx path s1) as [r s2] eqn:Hcr. exists r, s2.
    split; [reflexivity|]. pose proof (Hcw _ _ _ Hcr) as Hr.
    apply create_whiteout_frame in Hcr as (_ & Hpres & Hfr & Hres).
    assert (fs_nodes s2 !! me_path = None) as Hme2.
    { rewrite Exm. rewrite Hfr; [now rewrite <- Exm| exact Lxm |].
      intros wh' Hwh'. rewrite Hwh in Hwh'. inversion Hwh'; subst wh'.
      now rewrite <- Exm. }
    destruct r as [wh'|e].
    + injection Hrun as <- <-. destruct Hr as [Hr1 Hr2].
      repeat split; auto. unfold exists_at. now rewrite Hme2.
    + destruct (create_me me_path M s2) as [e3 s3] eqn:Hcm.
      injection Hrun as <- <-. split; [reflexivity|]. split; [exact Hr|].
      exists e3. split; [reflexivity|]. intros ->.
      destruct (create_me_success _ _ _ _ Hcm)
        as (sa & k & M' & _ & _ & _ & _ & _ & HlM & Hu1 & Hg1 & Ha1 & Hm1 & Hmode & _).
      assert (find_me ctx path s3 = MeFound me_path M') as HfM.
      { unfold find_me. now rewrite Hmp, HlM. }
      assert (same_metadata M' M) as Hsame by (repeat split; assumption).
      split; [eauto|].
      apply create_me_frame in Hcm as (_ & Hfc).
      destruct Hres as [_ Hres].
      (* the three names of the resolution are as before *)
      assert (fs_nodes s3 !! wh = fs_nodes s !! wh) as Kwh.
      { rewrite Hfc by congruence. unfold exists_at in Hnowh.
        destruct (fs_nodes s !! wh) eqn:E; [discriminate|].
        apply (Hres wh Hwh). rewrite Hfu by congruence. exact E. }
      assert (read_write_branch ctx +:+ path <> me_path) as Hrm.
      { intros E. symmetry in E. revert E. now apply (special_ne_rw ctx path ME). }
      assert (read_write_branch ctx +:+ path <> wh) as Hrwh.
      { intros E. symmetry in E. revert E. now apply (special_ne_rw ctx path WH). }
      assert (fs_nodes s3 !! (read_write_branch ctx +:+ path)
              = fs_nodes s !! (read_write_branch ctx +:+ path)) as Krw.
      { rewrite Hfc by exact Hrm. rewrite Hfr; [now apply Hfu | lia |].
        intros wh' Hwh'. rewrite Hwh in Hwh'. now inversion Hwh'; subst wh'. }
      assert (read_only_branch ctx +:+ path <> me_path) as Hom.
      { rewrite Exm. now apply branches_apart_ne. }
      assert (read_only_branch ctx +:+ path <> wh) as Howh.
      { rewrite Exw. now apply branches_apart_ne. }
      assert (fs_nodes s3 !! (read_only_branch ctx +:+ path)
              = fs_nodes s !! (read_only_branch ctx +:+ path)) as Kro.
      { rewrite Hfc by exact Hom. apply exists_at_lookup in Hro as [nr Hnr].
        rewrite Hnr. apply Hpres.
        - intros wh' Hwh'. rewrite Hwh in Hwh'. now inversion Hwh'; subst wh'.
        - rewrite Hfu by exact Hom. exact Hnr. }
      assert (find_file ctx path Any s3 = Ok (READ_ONLY, read_only_branch ctx +:+ path)) as Hf2.
      { rewrite <- Hf. apply find_file_ext.
        - intros wh' Hwh'. rewrite Hwh in Hwh'. inversion Hwh'; subst wh'.
          now apply exists_at_same.
        - now apply exists_at_same.
        - now apply exists_at_same. }
      apply exists_at_lstat in Hro as [D HD].
      exists (merge_attr D M), (merge_attr D M').
      unfold get_file_attr, get_file_attr_worker.
      rewrite Hf, Hf2, HfM, (lstat_same _ _ _ Kro), HD.
      unfold find_me. rewrite Hmp. unfold lstat at 1. rewrite Hnm, HnM.
      repeat split; try reflexivity; apply merge_attr_same_visible; exact Hsame.
  - destruct (create_whiteout ctx path s) as [r s1] eqn:Hcr. exists r, s1.
    split; [reflexivity|]. pose proof (Hcw _ _ _ Hcr) as Hr.
    destruct r as [wh'|e].
    + injection Hrun as <- <-. destruct Hr. repeat split; auto.
    + split; [|split; [exact Hr|split]].
      * destruct (negb _); [destruct (create_me _ _ _)|]; now inversion Hrun.
      * intros Hj. rewrite Hj in Hrun. cbn in Hrun. now inversion Hrun.
      * intros Hj. apply Z.eqb_neq in Hj. rewrite Hj in Hrun. cbn in Hrun.
        destruct (create_me _ _ _). now inversion Hrun.
  - destruct (create_whiteout ctx path s) as [r s1] eqn:Hcr. exists r, s1.
    split; [reflexivity|]. pose proof (Hcw _ _ _ Hcr) as Hr.
    destruct r as [wh'|e].
    + injection Hrun as <- <-. destruct Hr. repeat split; auto.
    + split; [|split; [exact Hr|split]].
      * destruct (negb _); [destruct (create_me _ _ _)|]; now inversion Hrun.
      * intros Hj. rewrite Hj in Hrun. cbn in Hrun. now inversion Hrun.
      * intros Hj. apply Z.eqb_neq in Hj. rewrite Hj in Hrun. cbn in Hrun.
        destruct (create_me _ _ _). now inversion Hrun.
Qed.

Lemma sample_branches_apart : branches_apart Sample.ctx.
Proof. split; reflexivity. Defined.

Lemma unlink_read_only_whiteout_or_rollback_witness :
  fst (hepunion_unlink Sample.ctx "/a" "b.txt" Sample.no_junk Sample.ro_with_me_full)
  = - ENOSPC /\
  (exists M',
     find_me Sample.ctx "/a/b.txt"
       (snd (hepunion_unlink Sample.ctx "/a" "b.txt" Sample.no_junk
               Sample.ro_with_me_full))
     = MeFound "/rw/a/.me.b.txt" M' /\
     same_metadata M' Sample.me_stat) /\
  (exists G G',
     get_file_attr Sample.ctx "/a/b.txt" Sample.ro_with_me_full = Ok G /\
     get_file_attr Sample.ctx "/a/b.txt"
       (snd (hepunion_unlink Sample.ctx "/a" "b.txt" Sample.no_junk
               Sample.ro_with_me_full)) = Ok G' /\
     same_visible G' G).
Proof.
  pose proof (unlink_read_only_whiteout_or_rollback Sample.ctx "/a" "b.txt"
                Sample.no_junk Sample.ro_with_me_full "/a/b.txt" "/ro/a/b.txt"
                (fst (hepunion_unlink Sample.ctx "/a" "b.txt" Sample.no_junk
                        Sample.ro_with_me_full))
                (snd (hepunion_unlink Sample.ctx "/a" "b.txt" Sample.no_junk
                        Sample.ro_with_me_full))
                sample_branches_apart eq_refl eq_refl eq_refl) as H.
  change (find_me Sample.ctx "/a/b.txt" Sample.ro_with_me_full)
    with (MeFound "/rw/a/.me.b.txt" Sample.me_stat) in H.
  destruct H as (e1 & s1 & Hu & [(Hneg & _)|(_ & _ & r & s2 & Hcw & Hr)]).
  - now destruct (hepunion_unlink _ _ _ _ _).
  - vm_compute in Hu. inversion Hu; subst e1 s1. vm_compute in Hneg. discriminate Hneg.
  - vm_compute in Hu. inversion Hu; subst e1 s1. clear Hu.
    vm_compute in Hcw. inversion Hcw; subst r s2. clear Hcw.
    destruct Hr as (He & _ & e3 & Hcm & Hroll).
    split; [exact He|]. apply Hroll.
    vm_compute in Hcm. now inversion Hcm.
Defined.

(** The same unlink on a host that can create the whiteout. *)
Example unlink_read_only_success :
  let r := hepunion_unlink Sample.ctx "/a" "b.txt" Sample.no_junk Sample.ro_with_me in
  fst r = 0 /\ exists_at "/rw/a/.wh.b.txt" (snd r) = true /\
  exists_at "/rw/a/.me.b.txt" (snd r) = false /\
  find_file Sample.ctx "/a/b.txt" Any (snd r) = Err (- ENOENT).
Proof. vm_compute. repeat split. Qed.

(** ** Pairs of flags *)

Lemma is_flag_set_times x :
  is_flag_set x (Z.lor ATTR_ATIME ATTR_MTIME) = Z.testbit x 4 && Z.testbit x 5.
Proof.
  unfold is_flag_set. rewrite Z.land_lor_distr_r.
  change ATTR_ATIME with (2 ^ 4). change ATTR_MTIME with (2 ^ 5).
  rewrite !land_pow2 by lia. destruct (Z.testbit x 4), (Z.testbit x 5); reflexivity.
Qed.

Lemma is_flag_set_owner x :
  is_flag_set x (Z.lor ATTR_UID ATTR_GID) = Z.testbit x 1 && Z.testbit x 2.
Proof.
  unfold is_flag_set. rewrite Z.land_lor_distr_r.
  change ATTR_UID with (2 ^ 1). change ATTR_GID with (2 ^ 2).
  rewrite !land_pow2 by lia. destruct (Z.testbit x 1), (Z.testbit x 2); reflexivity.
Qed.

(** Bits of the flag words that [set_me_worker] builds. *)
Ltac flag_bits :=
  repeat first
    [ rewrite Z.lor_spec | rewrite Z.land_spec
    | rewrite Z.lnot_spec by lia ];
  repeat match goal with
    | |- context [Z.testbit ME_ATTRS ?k] =>
        let b := eval vm_compute in (Z.testbit ME_ATTRS k) in
        change (Z.testbit ME_ATTRS k) with b
    | |- context [Z.testbit ATTR_MODE ?k] =>
        let b := eval vm_compute in (Z.testbit ATTR_MODE k) in
        change (Z.testbit ATTR_MODE k) with b
    | |- context [Z.testbit (Z.lor ATTR_ATIME ATTR_MTIME) ?k] =>
        let b := eval vm_compute in (Z.testbit (Z.lor ATTR_ATIME ATTR_MTIME) k) in
        change (Z.testbit (Z.lor ATTR_ATIME ATTR_MTIME) k) with b
    | |- context [Z.testbit (Z.lor ATTR_UID ATTR_GID) ?k] =>
        let b := eval vm_compute in (Z.testbit (Z.lor ATTR_UID ATTR_GID) k) in
        change (Z.testbit (Z.lor ATTR_UID ATTR_GID) k) with b
    end;
  cbn [andb orb negb];
  rewrite ?andb_true_r, ?andb_false_r, ?orb_true_r, ?orb_false_r.

(** The update that [set_me_worker] applies to an ME it has just created,
    for a file whose stat is [D]: owner and times are the requested ones
    only when both flags of the pair are set, and those of [D] otherwise;
    mode, size and change time stay as the creation left them. *)
Lemma new_me_update (attr : iattr) (D k : kstat) :
  let a := with_valid attr (Z.land (ia_valid attr) ME_ATTRS) in
  let a1 := with_valid a (Z.land (ia_valid a) (Z.lnot ATTR_MODE)) in
  let a2 := if negb (is_flag_set (ia_valid a1) (Z.lor ATTR_ATIME ATTR_MTIME))
            then with_times a1 (st_atime D) (st_mtime D) else a1 in
  let a3 := if negb (is_flag_set (ia_valid a2) (Z.lor ATTR_UID ATTR_GID))
            then with_owner a2 (st_uid D) (st_gid D) else a2 in
  let v := ia_valid attr in
  let owner := Z.testbit v 1 && Z.testbit v 2 in
  let times := Z.testbit v 4 && Z.testbit v 5 in
  apply_attr a3 k =
  {| st_mode := st_mode k;
     st_uid := if owner then ia_uid attr else st_uid D;
     st_gid := if owner then ia_gid attr else st_gid D;
     st_size := st_size k;
     st_atime := if times then ia_atime attr else st_atime D;
     st_mtime := if times then ia_mtime attr else st_mtime D;
     st_ctime := st_ctime k |}.
Proof.
  cbv zeta. rewrite apply_attr_bits. cbv zeta.
  cbn [ia_valid with_valid].
  rewrite is_flag_set_times. flag_bits.
  destruct (Z.testbit (ia_valid attr) 4) eqn:B4, (Z.testbit (ia_valid attr) 5) eqn:B5;
    cbn [andb negb ia_valid with_valid with_times];
    rewrite is_flag_set_owner; flag_bits;
    destruct (Z.testbit (ia_valid attr) 1) eqn:B1, (Z.testbit (ia_valid attr) 2) eqn:B2;
    cbn [andb negb ia_valid with_valid with_times with_owner ia_mode ia_uid ia_gid
         ia_size ia_atime ia_mtime ia_ctime];
    flag_bits; rewrite ?B1, ?B2, ?B4, ?B5; reflexivity.
Qed.

(** The update that [set_me_worker] applies to an ME that exists. *)
Lemma masked_update (attr : iattr) (M : kstat) :
  let v := ia_valid attr in
  apply_attr (with_valid attr (Z.land v ME_ATTRS)) M =
  {| st_mode := if Z.testbit v 0
                then Z.lor (Z.land (ia_mode attr) S_IALLUGO)
                           (Z.land (st_mode M) (Z.lnot S_IALLUGO))
                else st_mode M;
     st_uid := if Z.testbit v 1 then ia_uid attr else st_uid M;
     st_gid := if Z.testbit v 2 then ia_gid attr else st_gid M;
     st_size := st_size M;
     st_atime := if Z.testbit v 4 then ia_atime attr else st_atime M;
     st_mtime := if Z.testbit v 5 then ia_mtime attr else st_mtime M;
     st_ctime := st_ctime M |}.
Proof.
  cbv zeta. rewrite apply_attr_bits. cbv zeta.
  cbn [ia_valid with_valid ia_mode ia_uid ia_gid ia_size ia_atime ia_mtime ia_ctime].
  flag_bits. reflexivity.
Qed.

Lemma masked_empty (v : Z) :
  Z.land v ME_ATTRS = 0 ->
  Z.testbit v 0 = false /\ Z.testbit v 1 = false /\ Z.testbit v 2 = false /\
  Z.testbit v 4 = false /\ Z.testbit v 5 = false.
Proof.
  intros H.
  assert (forall k, Z.testbit ME_ATTRS k = true -> Z.testbit v k = false) as K.
  { intros k Hk. pose proof (Z.land_spec v ME_ATTRS k) as L.
    rewrite H, Z.bits_0, Hk, andb_true_r in L. now symmetry. }
  repeat split; apply K; reflexivity.
Qed.

Lemma mode_update_existing (d x m : Z) :
  Z.lor (Z.land d (Z.lnot VALID_MODES_MASK))
        (clear_mode_flags (Z.lor (Z.land x S_IALLUGO) (Z.land m (Z.lnot S_IALLUGO))))
  = Z.lor (Z.land (Z.lor (Z.land d (Z.lnot VALID_MODES_MASK)) (clear_mode_flags m))
                  (Z.lnot VALID_MODES_MASK))
          (Z.land x VALID_MODES_MASK).
Proof.
  unfold clear_mode_flags. change S_IALLUGO with VALID_MODES_MASK. bitwise i.
  destruct (Z.testbit d i), (Z.testbit x i), (Z.testbit m i),
    (Z.testbit VALID_MODES_MASK i); reflexivity.
Qed.

Lemma mode_update_new (d x : Z) :
  Z.lor (Z.land d (Z.lnot VALID_MODES_MASK))
        (clear_mode_flags (Z.lor (Z.land (clear_mode_flags x) S_IALLUGO) S_IFREG))
  = Z.lor (Z.land d (Z.lnot VALID_MODES_MASK)) (Z.land x VALID_MODES_MASK).
Proof. now rewrite creat_mode_alterable. Qed.

(** ** C8: setattr then getattr on a file of the read-only branch *)

(** C8, as stated, fails.  A request for a size is dropped by the mask of
    [set_me_worker]: the call answers 0 and the size shown stays 12.  And
    when the ME has to be created, a request that names the uid without
    the gid is overwritten with the owner of the read-only file: the call
    answers 0 and the uid shown stays 1000, not the 5 that was set. *)
Lemma setattr_values_not_returned :
  (let r := hepunion_setattr Sample.ctx "/a/b.txt" Sample.truncate_request
              Sample.no_junk Sample.ro_only in
   fst r = 0 /\ has_attr (ia_valid Sample.truncate_request) ATTR_SIZE = true /\
   ia_size Sample.truncate_request = 0 /\
   exists G, get_file_attr Sample.ctx "/a/b.txt" (snd r) = Ok G /\ st_size G = 12) /\
  (let r := hepunion_setattr Sample.ctx "/a/b.txt" Sample.chown_request
              Sample.no_junk Sample.ro_only in
   fst r = 0 /\ has_attr (ia_valid Sample.chown_request) ATTR_UID = true /\
   ia_uid Sample.chown_request = 5 /\
   exists G, get_file_attr Sample.ctx "/a/b.txt" (snd r) = Ok G /\ st_uid G = 1000).
Proof.
  split; cbv zeta; (split; [reflexivity|]); (split; [reflexivity|]);
    (split; [reflexivity|]); eexists; split; vm_compute; reflexivity.
Qed.

(** C8, amended.  For a path that resolves on the read-only branch, a
    [setattr] that answers 0 creates the ME, or updates the requested
    fields of the one that exists, and the [getattr] that follows shows
    the requested uid, gid, atime, mtime and alterable mode bits and, for
    what was not requested, the values shown before; size and file type
    are those of the read-only file.  This holds when the ME exists
    already, or when the request names uid and gid together or not at
    all, and atime and mtime together or not at all. *)
Theorem setattr_then_getattr_read_only ctx dpath (attr : iattr) j s s' real_path G :
  branches_apart ctx ->
  find_file ctx dpath Any s = Ok (READ_ONLY, real_path) ->
  get_file_attr ctx dpath s = Ok G ->
  hepunion_setattr ctx dpath attr j s = (0, s') ->
  ((exists mp M, find_me ctx dpath s = MeFound mp M) \/
   (paired (ia_valid attr) ATTR_UID ATTR_GID /\
    paired (ia_valid attr) ATTR_ATIME ATTR_MTIME)) ->
  exists G', get_file_attr ctx dpath s' = Ok G' /\
             same_visible G' (after_setattr attr G).
Proof.
  intros Hapart Hf HG Hrun Hpair.
  unfold hepunion_setattr, get_relative_path in Hrun.
  destruct (PATH_MAX <? strlen dpath + 1); [discriminate Hrun|].
  rewrite Hf in Hrun. cbn in Hrun.
  pose proof Hf as Hf'.
  apply find_file_read_only in Hf' as (-> & Hro & Hrw & wh & Hwh & Hnowh).
  destruct (path_to_special_kind _ _ _ ME _ Hwh) as [mp Hmp].
  destruct (path_to_special_rw _ _ _ _ Hmp) as (xm & Exm & Lxm).
  destruct (path_to_special_rw _ _ _ _ Hwh) as (xw & Exw & Lxw).
  assert (mp <> wh) as Hmw by (eapply me_ne_wh; eauto).
  assert (read_write_branch ctx +:+ dpath <> mp) as Hrm.
  { intros E. symmetry in E. revert E. now apply (special_ne_rw ctx dpath ME). }
  assert (read_only_branch ctx +:+ dpath <> mp) as Hom.
  { rewrite Exm. now apply branches_apart_ne. }
  apply exists_at_lstat in Hro as [D HD].
  unfold get_file_attr in HG. rewrite Hf in HG. unfold get_file_attr_worker in HG.
  rewrite HD in HG.
  (* what a state shows that agrees with [s] on the names of the resolution *)
  assert (forall s2 M',
            fs_nodes s2 !! wh = fs_nodes s !! wh ->
            fs_nodes s2 !! (read_write_branch ctx +:+ dpath)
            = fs_nodes s !! (read_write_branch ctx +:+ dpath) ->
            fs_nodes s2 !! (read_only_branch ctx +:+ dpath)
            = fs_nodes s !! (read_only_branch ctx +:+ dpath) ->
            lstat mp s2 = Ok M' ->
            get_file_attr ctx dpath s2 = Ok (merge_attr D M')) as Hshow.
  { intros s2 M' Kwh Krw Kro HM'. unfold get_file_attr.
    assert (find_file ctx dpath Any s2 = Ok (READ_ONLY, read_only_branch ctx +:+ dpath)) as ->.
    { rewrite <- Hf. apply find_file_ext.
      - intros wh' Hwh'. rewrite Hwh in Hwh'. inversion Hwh'; subst wh'.
        now apply exists_at_same.
      - now apply exists_at_same.
      - now apply exists_at_same. }
    unfold get_file_attr_worker, find_me. rewrite Hmp, HM'.
    rewrite (lstat_same _ s s2) by exact Kro. now rewrite HD. }
  unfold set_me_worker in Hrun. unfold find_me in Hrun, HG, Hpair.
  rewrite Hmp in Hrun, HG, Hpair.
  destruct (lstat mp s) as [M|e0] eqn:HM.
  - (* the ME exists *)
    injection HG as <-. clear Hpair.
    unfold open_worker in Hrun. pose proof HM as HM'.
    apply lstat_lookup in HM' as (nm & Hnm & HnM). rewrite Hnm in Hrun.
    cbn [ia_valid with_valid] in Hrun.
    destruct (Z.land (ia_valid attr) ME_ATTRS =? 0) eqn:Hz; cbn [negb] in Hrun.
    + injection Hrun as <-. exists (merge_attr D M). split.
      * now apply Hshow.
      * apply Z.eqb_eq, masked_empty in Hz as (B0 & B1 & B2 & B4 & B5).
        unfold same_visible, after_setattr. cbv zeta.
        rewrite has_attr_mode, has_attr_uid, has_attr_gid, has_attr_atime,
          has_attr_mtime, B0, B1, B2, B4, B5. repeat split.
    + apply notify_change_ok in Hrun as (_ & Hfr & Hn). rewrite Hnm in Hn.
      destruct Hn as [_ Hn]. rewrite HnM, masked_update in Hn. cbv zeta in Hn.
      eexists. split.
      * apply Hshow; [apply Hfr; congruence | apply Hfr; exact Hrm
                     | apply Hfr; exact Hom | apply lstat_lookup; eauto].
      * unfold same_visible, after_setattr, merge_attr. cbv zeta.
        cbn [st_mode st_uid st_gid st_size st_atime st_mtime st_ctime].
        rewrite has_attr_mode, has_attr_uid, has_attr_gid, has_attr_atime,
          has_attr_mtime.
        repeat split.
        destruct (Z.testbit (ia_valid attr) 0); [|reflexivity].
        apply mode_update_existing.
  - (* the ME is created *)
    injection HG as <-.
    destruct Hpair as [(mp' & M' & Hc)|[Ho Ht]]; [discriminate Hc|].
    unfold paired in Ho, Ht.
    rewrite has_attr_uid, has_attr_gid in Ho. rewrite has_attr_atime, has_attr_mtime in Ht.
    rewrite HD in Hrun.
    destruct (find_path ctx dpath s) as [[rp|e1] s1] eqn:Hfp.
    2:{ apply find_path_frame in Hfp as (_ & _ & _ & _ & He). specialize (He e1 eq_refl).
        inversion Hrun; lia. }
    apply find_path_frame in Hfp as (_ & Hpres & Hfr1 & _ & _).
    destruct (creat_worker mp _ s1) as [[fd|e2] s2] eqn:Hcw.
    2:{ apply creat_worker_err in Hcw as [_ He]. inversion Hrun; lia. }
    apply creat_worker_ok in Hcw as (-> & _ & Hfr2 & k & Hk & _ & _ & Hnew).
    assert (fs_nodes s1 !! mp = None) as Hnone.
    { rewrite Exm, Hfr1 by exact Lxm. rewrite <- Exm.
      unfold lstat in HM. now destruct (fs_nodes s !! mp). }
    rewrite Hnone in Hnew.
    apply notify_change_ok in Hrun as (_ & Hfr3 & Hn).
    apply lstat_lookup in Hk as (nk & Hnk & HnK). rewrite Hnk in Hn.
    destruct Hn as [_ Hn].
    pose proof (new_me_update attr D (n_stat nk)) as Hup. cbv zeta in Hup.
    cbv zeta in Hn. rewrite Hup in Hn. clear Hup.
    eexists. split.
    + apply Hshow; [| | |apply lstat_lookup; eauto].
      * rewrite Hfr3, Hfr2 by congruence. rewrite Exw. apply Hfr1. exact Lxw.
      * rewrite Hfr3, Hfr2 by exact Hrm. apply Hfr1. lia.
      * rewrite Hfr3, Hfr2 by exact Hom. apply lstat_lookup in HD as (nd & Hnd & _).
        rewrite Hnd. now apply Hpres.
    + unfold same_visible, after_setattr, merge_attr. cbv zeta.
      cbn [st_mode st_uid st_gid st_size st_atime st_mtime st_ctime n_stat].
      rewrite HnK, Hnew. cbn [fresh_stat st_mode].
      cbn [ia_valid ia_mode with_valid].
      rewrite !has_attr_mode, has_attr_uid, has_attr_gid, has_attr_atime,
        has_attr_mtime.
      rewrite <- Ho, <- Ht, !andb_diag.
      replace (Z.testbit (Z.land (ia_valid attr) ME_ATTRS) 0)
        with (Z.testbit (ia_valid attr) 0) by (flag_bits; reflexivity).
      repeat split.
      rewrite mode_update_new.
      destruct (Z.testbit (ia_valid attr) 0); [reflexivity|].
      apply merge_mode_same.
Qed.

Lemma setattr_then_getattr_read_only_witness :
  exists G',
    get_file_attr Sample.ctx "/a/b.txt"
      (snd (hepunion_setattr Sample.ctx "/a/b.txt" Sample.chmod_chown_request
              Sample.no_junk Sample.ro_only)) = Ok G' /\
    same_visible G' (after_setattr Sample.chmod_chown_request Sample.ro_stat).
Proof.
  apply (setattr_then_getattr_read_only Sample.ctx "/a/b.txt"
           Sample.chmod_chown_request Sample.no_junk Sample.ro_only
           (snd (hepunion_setattr Sample.ctx "/a/b.txt" Sample.chmod_chown_request
                   Sample.no_junk Sample.ro_only))
           "/ro/a/b.txt" Sample.ro_stat sample_branches_apart);
    [reflexivity | reflexivity | vm_compute; reflexivity |].
  right. split; reflexivity.
Defined.

(** The first scenario of the specification: mode 0644 becomes 0600. *)
Example setattr_mode_scenario :
  let s' := snd (hepunion_setattr Sample.ctx "/a/b.txt"
                   (mk_iattr ATTR_MODE 384 0 0 0 0 0 0) Sample.no_junk Sample.ro_only) in
  exists_at "/rw/a/.me.b.txt" s' = true /\
  exists G, get_file_attr Sample.ctx "/a/b.txt" s' = Ok G /\
            st_mode G = Z.lor S_IFREG 384 /\ st_uid G = 1000.
Proof. cbv zeta. split; [reflexivity|]. eexists. vm_compute. repeat split. Qed.

(** ** The directory listing *)

Lemma length_substring (s : string) (a b : nat) :
  (a + b <= String.length s)%nat -> String.length (String.substring a b s) = b.
Proof.
  revert a b. induction s as [|c s IH]; intros a b H; cbn in H.
  - assert (a = 0%nat) by lia. assert (b = 0%nat) by lia. subst. reflexivity.
  - destruct a as [|a]; cbn.
    + destruct b as [|b]; [reflexivity|]. cbn. f_equal. apply IH. lia.
    + apply IH. lia.
Qed.

Lemma prefix_length (p s : string) :
  String.prefix p s = true -> (String.length p <= String.length s)%nat.
Proof.
  revert s. induction p as [|c p IH]; intros s H; cbn; [lia|].
  destruct s as [|c' s]; cbn in H; [discriminate|].
  destruct (ascii_dec c c'); [|discriminate]. apply IH in H. cbn. lia.
Qed.

Lemma existsb_same_name (name : string) (l : list readdir_file) :
  well_formed l -> existsb (same_name name) l = name_in name (map d_name l).
Proof.
  unfold name_in. induction 1 as [|e l He Hl IH]; cbn; [reflexivity|].
  rewrite IH. f_equal. unfold same_name. rewrite He.
  destruct (String.eqb_spec name (d_name e)) as [->|]; [|apply andb_false_r].
  now rewrite Z.eqb_refl.
Qed.

Lemma name_in_In (n : string) (l : list string) : name_in n l = true <-> In n l.
Proof.
  unfold name_in. rewrite existsb_exists. split.
  - intros (x & Hx & E). apply String.eqb_eq in E. now subst.
  - intros H. exists n. split; [exact H | apply String.eqb_refl].
Qed.

Lemma name_in_ext (n : string) (l1 l2 : list string) :
  (forall x, In x l1 <-> In x l2) -> name_in n l1 = name_in n l2.
Proof.
  intros H. destruct (name_in n l1) eqn:E1, (name_in n l2) eqn:E2; try reflexivity.
  - apply name_in_In, H, name_in_In in E1. congruence.
  - apply name_in_In, H, name_in_In in E2. congruence.
Qed.

Lemma ro_kept_ext whs1 whs2 seen1 seen2 es :
  (forall x, In x whs1 <-> In x whs2) ->
  (forall x, In x seen1 <-> In x seen2) ->
  ro_kept whs1 seen1 es = ro_kept whs2 seen2 es.
Proof.
  intros Hw. revert seen1 seen2.
  induction es as [|e es IH]; intros seen1 seen2 H; cbn; [reflexivity|].
  rewrite (name_in_ext _ seen1 seen2 H), (name_in_ext _ whs1 whs2 Hw).
  destruct (_ || _); [now apply IH|]. f_equal. apply IH.
  intros x. cbn. now rewrite H.
Qed.

Lemma ro_kept_nodup whs seen es :
  NoDup seen -> NoDup (seen ++ map de_name (ro_kept whs seen es)).
Proof.
  revert seen. induction es as [|e es IH]; intros seen H; cbn.
  - now rewrite app_nil_r.
  - destruct (name_in (de_name e) whs || name_in (de_name e) seen) eqn:E;
      [now apply IH|].
    apply orb_false_iff in E as [_ E]. cbn.
    assert (~ In (de_name e) seen) as Hn.
    { intros Hin. apply name_in_In in Hin. congruence. }
    rewrite <- Permutation_middle.
    apply (IH (de_name e :: seen)). apply NoDup_cons. split; [|exact H].
    now rewrite list_elem_of_In.
Qed.

Lemma find_entry_nth (l : list readdir_file) (i pos : Z) :
  find_entry l i pos =
  if pos <? i then None
  else match nth_error l (Z.to_nat (pos - i)) with
       | Some e => Some (pos, e)
       | None => None
       end.
Proof.
  revert i. induction l as [|e l IH]; intros i; cbn.
  - destruct (pos <? i); [reflexivity|]. now destruct (Z.to_nat (pos - i)).
  - destruct (Z.eqb_spec i pos) as [->|Hne].
    + rewrite Z.ltb_irrefl, Z.sub_diag. reflexivity.
    + rewrite IH. destruct (Z.ltb_spec pos i) as [L|L].
      * destruct (Z.ltb_spec pos (i + 1)); [reflexivity|lia].
      * destruct (Z.ltb_spec pos (i + 1)); [lia|].
        replace (Z.to_nat (pos - i)) with (S (Z.to_nat (pos - (i + 1)))) by lia.
        reflexivity.
Qed.

Section ReaddirFacts.

Variable name_to_ino : string -> Z.
Variable host_dir : string -> result (list dirent).
Variable context : hepunion_sb_info.

(** The pass over the read-write directory puts the listed entries and
    the whiteouts at the head of the two lists, last one first. *)
Lemma rw_pass es c r c' :
  vfs_readdir (read_rw_branch name_to_ino context) es c = (r, c') ->
  (r <? 0) = false ->
  (ro_len c' = ro_len c /\ ro_dir c' = ro_dir c /\
   rw_len c' = rw_len c /\ rw_dir c' = rw_dir c) /\
  map entry_dirent (files_head c')
  = (rev (rw_kept es) ++ map entry_dirent (files_head c))%list /\
  map d_name (whiteouts_head c')
  = (rev (if ro_len c =? 0 then [] else rw_whiteouts es)
       ++ map d_name (whiteouts_head c))%list /\
  (well_formed (files_head c) -> well_formed (files_head c')) /\
  (well_formed (whiteouts_head c) -> well_formed (whiteouts_head c')).
Proof.
  revert c. induction es as [|e es IH]; intros c H Hr; cbn in H.
  - injection H as <- <-. destruct (ro_len c =? 0); repeat split; auto.
  - unfold rw_kept, rw_whiteouts. rewrite !filter_cons. fold (rw_kept es).
    fold (rw_whiteouts es).
    unfold read_rw_branch in H.
    destruct (is_me (de_name e)) eqn:Hme.
    + cbn in H. destruct (decide _) as [Hd|_]; [discriminate Hd|].
      destruct (decide _) as [Hd|_]; [discriminate Hd|]. now apply IH.
    + destruct (is_whiteout (de_name e)) eqn:Hwh.
      * destruct (decide _) as [Hd|_]; [discriminate Hd|].
        destruct (decide _) as [_|Hd]; [|now destruct Hd].
        destruct (ro_len c =? 0) eqn:Hro; cbn [negb] in H.
        { cbn in H. apply IH in H; [|exact Hr]. now rewrite Hro in H. }
        cbn in H. apply IH in H as (Hc & Hf & Hw & Wf & Ww); [|exact Hr].
        cbn [ro_len ro_dir rw_len rw_dir files_head whiteouts_head with_whiteouts] in *.
        rewrite Hro in Hw. split; [exact Hc|]. split; [exact Hf|]. split; [|split].
        -- rewrite Hw. cbn [map rev d_name]. now rewrite <- app_assoc.
        -- exact Wf.
        -- intros W. apply Ww. constructor; [|exact W]. cbn [d_reclen d_name].
           unfold is_whiteout in Hwh. apply prefix_length in Hwh.
           unfold strlen. rewrite length_substring.
           ++ cbn [String.length] in Hwh. lia.
           ++ cbn [String.length] in Hwh. lia.
      * destruct (decide _) as [_|Hd]; [|now destruct Hd].
        destruct (decide _) as [Hd|_]; [discriminate Hd|].
        destruct (PATH_MAX <? _).
        { cbn in H. inversion H; subst. discriminate Hr. }
        cbn in H. apply IH in H as (Hc & Hf & Hw & Wf & Ww); [|exact Hr].
        cbn [ro_len ro_dir rw_len rw_dir files_head whiteouts_head with_files] in *.
        split; [exact Hc|]. split; [|split; [exact Hw|split]].
        -- rewrite Hf. cbn [map rev entry_dirent d_name rf_type].
           rewrite <- app_assoc. now destruct e.
        -- intros W. apply Wf. constructor; [reflexivity|exact W].
        -- exact Ww.
Qed.

(** The pass over the read-only directory adds the surviving entries. *)
Lemma ro_pass es c r c' :
  vfs_readdir (read_ro_branch name_to_ino context) es c = (r, c') ->
  (r <? 0) = false ->
  well_formed (files_head c) -> well_formed (whiteouts_head c) ->
  map entry_dirent (files_head c')
  = (rev (ro_kept (map d_name (whiteouts_head c)) (map d_name (files_head c)) es)
       ++ map entry_dirent (files_head c))%list.
Proof.
  revert c. induction es as [|e es IH]; intros c H Hr Wf Ww; cbn in H.
  - injection H as <- <-. reflexivity.
  - unfold read_ro_branch in H. rewrite !existsb_same_name in H by assumption.
    cbn [ro_kept].
    destruct (name_in (de_name e) (map d_name (whiteouts_head c))) eqn:E1.
    { cbn in H. now apply IH. }
    destruct (name_in (de_name e) (map d_name (files_head c))) eqn:E2.
    { cbn in H. now apply IH. }
    cbn [orb]. destruct (PATH_MAX <? _).
    { cbn in H. inversion H; subst. discriminate Hr. }
    cbn in H. apply IH in H; [|exact Hr| |].
    + cbn [files_head whiteouts_head with_files map d_name] in H.
      rewrite H. cbn [rev map entry_dirent d_name rf_type].
      rewrite <- app_assoc. now destruct e.
    + constructor; [reflexivity|exact Wf].
    + exact Ww.
Qed.

End ReaddirFacts.

(** ** C3: the merged listing and its cursor *)

(** C3, as stated, fails on the order.  In /dir the read-write branch
    lists a and b and the read-only branch adds c; the claim has the
    cursor 0 on a, the first read-write entry.  The entries are put at the
    head of the list, so the list is c, b, a and the cursor 0 yields c. *)
Lemma readdir_first_entry_is_last_added :
  rw_kept [mk_dirent "a" 8; mk_dirent ".wh.d" 8; mk_dirent "b" 8; mk_dirent ".me.c" 8]
  = [mk_dirent "a" 8; mk_dirent "b" 8] /\
  exists c' out,
    hepunion_readdir Sample.no_ino Sample.dir_host Sample.ctx Sample.dir_handle 0
    = (0, c', 1, Some out) /\
    map d_name (files_head c') = ["c"; "b"; "a"] /\
    fc_name out = "c" /\ fc_name out <> "a".
Proof.
  split; [reflexivity|]. do 2 eexists. split; [vm_compute; reflexivity|].
  repeat split. discriminate.
Qed.

Section ReaddirMerge.

Variable name_to_ino : string -> Z.
Variable host_dir : string -> result (list dirent).
Variable context : hepunion_sb_info.

Lemma browse_listing len dir cb c r c' :
  browse host_dir len dir cb c = (r, c') ->
  (r <? 0) = false ->
  exists r', vfs_readdir cb (listing host_dir len dir) c = (r', c') /\ (r' <? 0) = false.
Proof.
  unfold browse, listing. destruct (len =? 0); cbn [negb].
  - intros H _. injection H as <- <-. now exists 0.
  - destruct (host_dir dir) as [es|e].
    + intros H Hr. eauto.
    + intros H _. injection H as <- <-. now exists 0.
Qed.

(** C3, amended.  The first [readdir] on a fresh handle fills the list
    with the listed entries of the read-write directory and then the
    surviving entries of the read-only directory, each put at the head:
    the list is the reverse of "read-write entries in directory order,
    then surviving read-only entries in directory order".  It has no
    duplicate name, also for names present on both branches, as long as
    the read-write directory lists no name twice.  The cursor is an index
    into this list; a cursor at or past the end yields no entry and stays. *)
Theorem readdir_lists_merged_entries_reversed ctx0 f_pos ctx' f_pos' out :
  files_head ctx0 = [] ->
  whiteouts_head ctx0 = [] ->
  hepunion_readdir name_to_ino host_dir context ctx0 f_pos = (0, ctx', f_pos', out) ->
  let rws := listing host_dir (rw_len ctx0) (rw_dir ctx0) in
  let ros := listing host_dir (ro_len ctx0) (ro_dir ctx0) in
  let whs := if ro_len ctx0 =? 0 then [] else rw_whiteouts rws in
  let merged := (rw_kept rws ++ ro_kept whs (map de_name (rw_kept rws)) ros)%list in
  map entry_dirent (files_head ctx') = rev merged /\
  (NoDup (map de_name (rw_kept rws)) -> NoDup (map d_name (files_head ctx'))) /\
  out = emitted (files_head ctx') f_pos /\
  f_pos' = match out with Some _ => f_pos + 1 | None => f_pos end /\
  (Z.of_nat (length (files_head ctx')) <= f_pos -> out = None /\ f_pos' = f_pos).
Proof.
  intros Hfiles Hwhs H rws ros whs merged.
  unfold hepunion_readdir in H. rewrite Hfiles in H. unfold populate in H.
  destruct (browse host_dir (rw_len ctx0) (rw_dir ctx0) _ ctx0) as [e1 c1] eqn:Hb1.
  destruct (e1 <? 0) eqn:L1.
  { cbv beta iota zeta in H. rewrite L1 in H. injection H as H1 _ _ _.
    rewrite H1 in L1. discriminate L1. }
  apply browse_listing in Hb1 as [r1 [Hv1 Lr1]]; [|exact L1]. fold rws in Hv1.
  apply rw_pass in Hv1 as ((Hrol & Hrod & _ & _) & Hf1 & Hw1 & Wf1 & Ww1); [|exact Lr1].
  rewrite Hfiles in Hf1, Wf1. rewrite Hwhs in Hw1, Ww1. fold whs in Hw1.
  rewrite app_nil_r in Hf1, Hw1.
  destruct (browse host_dir (ro_len c1) (ro_dir c1) _ c1) as [e2 c2] eqn:Hb2.
  destruct (e2 <? 0) eqn:L2.
  { cbv beta iota zeta in H. rewrite L2 in H. injection H as H1 _ _ _.
    rewrite H1 in L2. discriminate L2. }
  apply browse_listing in Hb2 as [r2 [Hv2 Lr2]]; [|exact L2].
  rewrite Hrol, Hrod in Hv2. fold ros in Hv2.
  apply ro_pass in Hv2; [|exact Lr2| apply Wf1; constructor | apply Ww1; constructor].
  cbv beta iota zeta in H. change (0 <? 0) with false in H. cbv iota in H.
  assert (forall l, map d_name l = map de_name (map entry_dirent l)) as Hnames.
  { intros l. now rewrite map_map. }
  assert (map entry_dirent (files_head c2) = rev merged) as Hm.
  { rewrite Hv2, Hw1, (Hnames (files_head c1)), Hf1. unfold merged.
    rewrite rev_app_distr. f_equal. f_equal.
    apply ro_kept_ext.
    - intros x. symmetry. apply in_rev.
    - intros x. rewrite map_rev. symmetry. apply in_rev. }
  destruct (find_entry (files_head (with_whiteouts c2 [])) 0 f_pos) as [[i e]|] eqn:Hfe;
    injection H as <- <- <-; cbn [files_head with_whiteouts] in *;
    rewrite find_entry_nth, Z.sub_0_r in Hfe;
    (split; [exact Hm|]); (split; [|split; [|split]]).
  - intros Hnd. rewrite Hnames, Hm, map_rev, <- Permutation_rev.
    unfold merged. rewrite map_app. now apply ro_kept_nodup.
  - unfold emitted. destruct (f_pos <? 0); [discriminate|].
    destruct (nth_error _ _); [|discriminate]. now injection Hfe as <- <-.
  - reflexivity.
  - intros Hlen. exfalso. destruct (f_pos <? 0); [discriminate|].
    assert (nth_error (files_head c2) (Z.to_nat f_pos) = None) as En
      by (apply nth_error_None; lia).
    rewrite En in Hfe. discriminate Hfe.
  - intros Hnd. rewrite Hnames, Hm, map_rev, <- Permutation_rev.
    unfold merged. rewrite map_app. now apply ro_kept_nodup.
  - unfold emitted. destruct (f_pos <? 0); [reflexivity|].
    now destruct (nth_error _ _).
  - reflexivity.
  - auto.
Qed.

End ReaddirMerge.

Lemma readdir_lists_merged_entries_reversed_witness :
  let r := hepunion_readdir Sample.no_ino Sample.dir_host Sample.ctx Sample.dir_handle 3 in
  let l := files_head (snd (fst (fst r))) in
  map entry_dirent l = [mk_dirent "c" 8; mk_dirent "b" 8; mk_dirent "a" 8] /\
  NoDup (map d_name l) /\
  snd r = None /\ snd (fst r) = 3.
Proof.
  cbv zeta.
  destruct (readdir_lists_merged_entries_reversed Sample.no_ino Sample.dir_host
              Sample.ctx Sample.dir_handle 3
              (snd (fst (fst (hepunion_readdir Sample.no_ino Sample.dir_host
                                Sample.ctx Sample.dir_handle 3))))
              3 None eq_refl eq_refl) as (H1 & H2 & H3 & H4 & H5);
    [vm_compute; reflexivity|].
  split; [exact H1|]. split.
  - apply H2. vm_compute.
    repeat (apply NoDup_cons; split; [rewrite ?elem_of_cons, elem_of_nil; intuition discriminate|]).
    apply NoDup_nil. exact I.
  - destruct H5 as [H5 H6]; [vm_compute; discriminate|]. split; reflexivity.
Defined.

(** ** Answers of [hepunion_create] *)

Lemma mkdir_worker_code p mode s :
  let e := fst (mkdir_worker p mode s) in e = 0 \/ e = - EEXIST \/ e = - ENOSPC.
Proof.
  unfold mkdir_worker. destruct (fs_nodes s !! p); cbn; [auto|].
  destruct (decide _); cbn; auto.
Qed.

Lemma notify_change_code p a s :
  let e := fst (notify_change p a s) in e = 0 \/ e = - ENOENT.
Proof. unfold notify_change. destruct (fs_nodes s !! p); cbn; auto. Qed.

Lemma make_dirs_not_einval ctx ds s : fst (make_dirs ctx ds s) <> - EINVAL.
Proof.
  revert s. induction ds as [|d ds IH]; intros s; cbn; [discriminate|].
  destruct (fs_nodes s !! _) as [n0|].
  - destruct (S_ISDIR _); [apply IH | discriminate].
  - destruct (lstat _ s) as [st|e0].
    + pose proof (mkdir_worker_code (read_write_branch ctx +:+ d) (st_mode st) s) as Hm.
      destruct (mkdir_worker _ (st_mode st) s) as [e s1]. cbn in Hm.
      destruct (e <? 0).
      { cbn. destruct Hm as [->|[->| ->]]; discriminate. }
      match goal with |- context [notify_change ?p ?a s1] =>
        pose proof (notify_change_code p a s1) as Hn;
        destruct (notify_change p a s1) as [e' s2] end.
      cbn in Hn. destruct (e' <? 0); [|apply IH].
      cbn. destruct Hn as [->| ->]; discriminate.
    + pose proof (mkdir_worker_code (read_write_branch ctx +:+ d) S_IRWXUGO s) as Hm.
      destruct (mkdir_worker _ S_IRWXUGO s) as [e s1]. cbn in Hm.
      destruct (e <? 0); [|apply IH].
      cbn. destruct Hm as [->|[->| ->]]; discriminate.
Qed.

(** [hepunion_create] has no path on which it answers [-EINVAL]: the
    logical path it builds always has a separator, and no step looks at
    the prefix of the name. *)
Lemma hepunion_create_never_einval ctx dir name mode s :
  fst (hepunion_create ctx dir name mode s) <> - EINVAL.
Proof.
  unfold hepunion_create, get_relative_path_for_file.
  destruct (PATH_MAX <? _); [discriminate|].
  destruct (find_file ctx _ Any s) as [?|e0]; [discriminate|].
  unfold find_path. pose proof (rsplit_slash dir name) as Hs.
  destruct (rsplit (dir +:+ "/" +:+ name)) as [[d n]|]; [|contradiction].
  cbn [make_rw_path]. destruct (PATH_MAX <? _); [discriminate|].
  pose proof (make_dirs_not_einval ctx (dir_prefixes (dir +:+ "/" +:+ name)) s) as Hm.
  destruct (make_dirs ctx _ s) as [e s1]. cbn in Hm.
  destruct (e <? 0); [exact Hm|].
  unfold can_create. destruct (decide _) as [Hin|Hnin]; [discriminate|].
  cbn [Z.ltb Z.compare].
  unfold creat_worker. destruct (fs_nodes s1 !! _) as [nd|].
  - destruct (S_ISREG _); [|discriminate].
    match goal with |- context [notify_change ?p ?a ?s2] =>
      pose proof (notify_change_code p a s2) as Hn;
      destruct (notify_change p a s2) as [e' s3] end.
    cbn in Hn. destruct (e' <? 0).
    + cbn. destruct Hn as [->| ->]; discriminate.
    + destruct (unlink_whiteout _ _ _). discriminate.
  - destruct (decide _) as [Hin'|Hnin']; [discriminate|].
    match goal with |- context [notify_change ?p ?a ?s2] =>
      pose proof (notify_change_code p a s2) as Hn;
      destruct (notify_change p a s2) as [e' s3] end.
    cbn in Hn. destruct (e' <? 0).
    + cbn. destruct Hn as [->| ->]; discriminate.
    + destruct (unlink_whiteout _ _ _). discriminate.
Qed.

(** ** C7: the uninitialised [has_me] *)

(** C7.  The claim asks that an unlink that fails leaves the file as it
    was, and the code attempts it: [err < 0 && has_me] guards the
    rollback.  But the initialiser of [has_me] stands between the
    [switch] and its first [case] label and is never run.  With /a/b.txt
    on the read-only branch, no ME, and a host that refuses the whiteout,
    a stack holding 0 there leaves the file as it was shown, and one
    holding 1 makes [create_me] run on the unwritten [kstbuf]: the unlink answers
    [-ENOSPC], yet an ME that did not exist before is left behind, and
    [get_file_attr] shows another owner and other permission bits than
    before. *)
Example unlink_without_me_reads_has_me :
  let clean := hepunion_unlink Sample.ctx "/a" "b.txt" Sample.no_junk Sample.ro_only_full in
  let stale := hepunion_unlink Sample.ctx "/a" "b.txt" Sample.stale_junk Sample.ro_only_full in
  find_file Sample.ctx "/a/b.txt" Any Sample.ro_only_full = Ok (READ_ONLY, "/ro/a/b.txt") /\
  find_me Sample.ctx "/a/b.txt" Sample.ro_only_full
  = MeMissing "/rw/a/.me.b.txt" (- ENOENT) /\
  get_file_attr Sample.ctx "/a/b.txt" Sample.ro_only_full = Ok Sample.ro_stat /\
  fst clean = - ENOSPC /\
  exists_at "/rw/a/.me.b.txt" (snd clean) = false /\
  get_file_attr Sample.ctx "/a/b.txt" (snd clean) = Ok Sample.ro_stat /\
  fst stale = - ENOSPC /\
  exists_at "/rw/a/.me.b.txt" (snd stale) = true /\
  exists G, get_file_attr Sample.ctx "/a/b.txt" (snd stale) = Ok G /\
            st_uid (Sample.ro_stat) = 1000 /\ st_uid G = 66 /\
            Z.land (st_mode Sample.ro_stat) S_IALLUGO = 420 /\
            Z.land (st_mode G) S_IALLUGO = 511 /\
            ~ same_visible G Sample.ro_stat.
Proof.
  cbv zeta. do 8 (split; [reflexivity|]).
  eexists. split; [vm_compute; reflexivity|].
  do 4 (split; [reflexivity|]).
  intros (_ & H & _). vm_compute in H. discriminate H.
Qed.

(** ** The listing, by name *)

Lemma substring_full (s : string) : String.substring 0 (String.length s) s = s.
Proof. induction s as [|c s IH]; cbn; [reflexivity | now rewrite IH]. Qed.

Lemma substring_app_skip (a b : string) (m : nat) :
  String.substring (String.length a) m (a +:+ b) = String.substring 0 m b.
Proof. induction a as [|c a IH]; unapp; cbn; [reflexivity | exact IH]. Qed.

Lemma prefix_app (p s : string) :
  String.prefix p s = true ->
  s = p +:+ String.substring (String.length p) (String.length s - String.length p) s.
Proof.
  revert s. induction p as [|c p IH]; intros s H; unapp.
  - cbn. rewrite Nat.sub_0_r. now rewrite substring_full.
  - destruct s as [|c' s]; cbn in H; [discriminate|].
    destruct (ascii_dec c c') as [->|]; [|discriminate].
    cbn. f_equal. now apply IH.
Qed.

Lemma whiteout_name (x : string) :
  is_whiteout x = true ->
  x = ".wh." +:+ String.substring 4 (Z.to_nat (strlen x - 4)) x.
Proof.
  intros H. unfold is_whiteout in H. apply prefix_app in H.
  replace (Z.to_nat (strlen x - 4)) with (String.length x - 4)%nat
    by (unfold strlen; lia).
  exact H.
Qed.

Lemma whiteout_of_name (n : string) :
  is_whiteout (".wh." +:+ n) = true /\ is_me (".wh." +:+ n) = false /\
  String.substring 4 (Z.to_nat (strlen (".wh." +:+ n) - 4)) (".wh." +:+ n) = n.
Proof.
  split; [now destruct n|]. split; [reflexivity|].
  replace (Z.to_nat (strlen (".wh." +:+ n) - 4)) with (String.length n).
  - unapp. cbn. apply substring_full.
  - unfold strlen. rewrite length_app. cbn. lia.
Qed.

Lemma rw_whiteouts_In (n : string) (es : list dirent) :
  In n (rw_whiteouts es) <-> In (".wh." +:+ n) (map de_name es).
Proof.
  unfold rw_whiteouts. rewrite !in_map_iff. split.
  - intros (e & <- & He). apply list_elem_of_In, list_elem_of_filter in He as [Hp He].
    apply list_elem_of_In in He. exists e. split; [|exact He].
    apply andb_true_iff in Hp as [_ Hw]. now apply whiteout_name.
  - intros (e & He & Hin). exists e.
    destruct (whiteout_of_name n) as (Hw & Hm & Hs). split.
    + rewrite He. exact Hs.
    + apply list_elem_of_In, list_elem_of_filter. split; [|now apply list_elem_of_In].
      rewrite He, Hw, Hm. reflexivity.
Qed.

Lemma rw_kept_In (n : string) (es : list dirent) :
  In n (map de_name (rw_kept es)) <->
  In n (map de_name es) /\ is_me n = false /\ is_whiteout n = false.
Proof.
  unfold rw_kept. rewrite !in_map_iff. split.
  - intros (e & <- & He). apply list_elem_of_In, list_elem_of_filter in He as [Hp He].
    apply list_elem_of_In in He. apply orb_false_iff in Hp. split; [eauto | exact Hp].
  - intros ((e & <- & He) & Hm & Hw). exists e. split; [reflexivity|].
    apply list_elem_of_In, list_elem_of_filter. split; [|now apply list_elem_of_In].
    now rewrite Hm, Hw.
Qed.

Lemma ro_kept_In (n : string) (whs seen : list string) (es : list dirent) :
  In n (map de_name (ro_kept whs seen es)) <->
  In n (map de_name es) /\ ~ In n whs /\ ~ In n seen.
Proof.
  revert seen. induction es as [|e es IH]; intros seen; cbn.
  - tauto.
  - destruct (name_in (de_name e) whs) eqn:E1; cbn [orb].
    { apply name_in_In in E1. rewrite IH. split; [tauto|].
      intros ([<-|H] & Hw & Hs); tauto. }
    destruct (name_in (de_name e) seen) eqn:E2.
    { apply name_in_In in E2. rewrite IH. split; [tauto|].
      intros ([<-|H] & Hw & Hs); tauto. }
    assert (~ In (de_name e) whs) as N1.
    { intros H. apply name_in_In in H. congruence. }
    assert (~ In (de_name e) seen) as N2.
    { intros H. apply name_in_In in H. congruence. }
    cbn [map In]. rewrite IH. cbn [In]. split.
    + intros [<-|(H & Hw & Hs)]; tauto.
    + intros ([<-|H] & Hw & Hs); [now left|].
      destruct (string_dec (de_name e) n) as [->|Hne]; [now left|]. right. tauto.
Qed.

Section ListingFacts.

Variable name_to_ino : string -> Z.
Variable host_dir : string -> result (list dirent).
Variable context : hepunion_sb_info.

(** What filling the list of a fresh handle leaves in it. *)
Lemma populate_merged ctx0 c1 :
  files_head ctx0 = [] ->
  whiteouts_head ctx0 = [] ->
  populate name_to_ino host_dir context ctx0 = (0, c1) ->
  let rws := listing host_dir (rw_len ctx0) (rw_dir ctx0) in
  let ros := listing host_dir (ro_len ctx0) (ro_dir ctx0) in
  let whs := if ro_len ctx0 =? 0 then [] else rw_whiteouts rws in
  map entry_dirent (files_head c1)
  = rev (rw_kept rws ++ ro_kept whs (map de_name (rw_kept rws)) ros)%list /\
  whiteouts_head c1 = [].
Proof.
  intros Hfiles Hwhs H rws ros whs. unfold populate in H.
  destruct (browse host_dir (rw_len ctx0) (rw_dir ctx0) _ ctx0) as [e1 c2] eqn:Hb1.
  destruct (e1 <? 0) eqn:L1.
  { injection H as H1 _. rewrite H1 in L1. discriminate L1. }
  apply browse_listing in Hb1 as [r1 [Hv1 Lr1]]; [|exact L1]. fold rws in Hv1.
  apply rw_pass in Hv1 as ((Hrol & Hrod & _ & _) & Hf1 & Hw1 & Wf1 & Ww1); [|exact Lr1].
  rewrite Hfiles in Hf1, Wf1. rewrite Hwhs in Hw1, Ww1. fold whs in Hw1.
  rewrite app_nil_r in Hf1, Hw1.
  destruct (browse host_dir (ro_len c2) (ro_dir c2) _ c2) as [e2 c3] eqn:Hb2.
  destruct (e2 <? 0) eqn:L2.
  { injection H as H1 _. rewrite H1 in L2. discriminate L2. }
  apply browse_listing in Hb2 as [r2 [Hv2 Lr2]]; [|exact L2].
  rewrite Hrol, Hrod in Hv2. fold ros in Hv2.
  apply ro_pass in Hv2; [|exact Lr2| apply Wf1; constructor | apply Ww1; constructor].
  injection H as <-. cbn [files_head whiteouts_head with_whiteouts].
  split; [|reflexivity].
  assert (forall l, map d_name l = map de_name (map entry_dirent l)) as Hnames.
  { intros l. now rewrite map_map. }
  rewrite Hv2, Hw1, (Hnames (files_head c2)), Hf1.
  rewrite rev_app_distr. f_equal. f_equal.
  apply ro_kept_ext.
  - intros x. symmetry. apply in_rev.
  - intros x. rewrite map_rev. symmetry. apply in_rev.
Qed.

(** The first call on a fresh handle that answers 0 has filled the list. *)
Lemma readdir_fresh ctx0 f_pos e c1 f_pos' out :
  files_head ctx0 = [] ->
  hepunion_readdir name_to_ino host_dir context ctx0 f_pos = (e, c1, f_pos', out) ->
  (e <? 0) = false ->
  populate name_to_ino host_dir context ctx0 = (0, c1).
Proof.
  intros Hfiles H He. unfold hepunion_readdir in H. rewrite Hfiles in H.
  destruct (populate name_to_ino host_dir context ctx0) as [e1 c2] eqn:Hp.
  destruct (e1 <? 0) eqn:L1.
  { injection H as H1 _ _ _. rewrite H1 in L1. congruence. }
  assert (e1 = 0) as ->.
  { unfold populate in Hp.
    destruct (browse _ _ _ _ ctx0) as [a ca]. destruct (a <? 0) eqn:La.
    - injection Hp as -> _. congruence.
    - destruct (browse _ _ _ _ ca) as [b cb]. destruct (b <? 0) eqn:Lb.
      + injection Hp as -> _. congruence.
      + now injection Hp as <- _. }
  destruct (find_entry _ _ _) as [[i x]|]; now injection H as _ <- _ _.
Qed.

(** The names in the list of a filled handle. *)
Lemma listed_names ctx0 c1 (n : string) :
  files_head ctx0 = [] ->
  whiteouts_head ctx0 = [] ->
  populate name_to_ino host_dir context ctx0 = (0, c1) ->
  let rws := map de_name (listing host_dir (rw_len ctx0) (rw_dir ctx0)) in
  let ros := map de_name (listing host_dir (ro_len ctx0) (ro_dir ctx0)) in
  In n (map d_name (files_head c1)) <->
  (In n rws /\ is_me n = false /\ is_whiteout n = false) \/
  (In n ros /\ ~ In (".wh." +:+ n) rws).
Proof.
  intros Hfiles Hwhs H rws ros.
  apply populate_merged in H as [Hm _]; [|assumption..].
  assert (map d_name (files_head c1) = map de_name (map entry_dirent (files_head c1))) as ->
    by now rewrite map_map.
  rewrite Hm, map_rev, <- in_rev, map_app, in_app_iff, ro_kept_In, !rw_kept_In.
  fold rws ros.
  assert (In n ros ->
          (In n (if ro_len ctx0 =? 0 then []
                 else rw_whiteouts (listing host_dir (rw_len ctx0) (rw_dir ctx0)))
           <-> In (".wh." +:+ n) rws)) as Hw.
  { intros Hn. destruct (ro_len ctx0 =? 0) eqn:Z0.
    - unfold ros, listing in Hn. rewrite Z0 in Hn. destruct Hn.
    - apply rw_whiteouts_In. }
  split.
  - intros [Hl|(Hn & Hnw & Hns)]; [now left|]. right. split; [exact Hn|].
    now rewrite <- (Hw Hn).
  - intros [Hl|(Hn & Hnw)]; [now left|].
    destruct (in_dec string_dec n rws) as [Hin|Hnin];
      [destruct (is_me n) eqn:Em; [|destruct (is_whiteout n) eqn:Ew]|].
    + right. rewrite (Hw Hn). repeat split; try assumption. intros (_ & E & _). discriminate E.
    + right. rewrite (Hw Hn). repeat split; try assumption. intros (_ & _ & E). discriminate E.
    + left. auto.
    + right. rewrite (Hw Hn). repeat split; try assumption. intros (E & _). contradiction.
Qed.

End ListingFacts.

(** ** The listing, by cursor and by inode number *)

Lemma nth_error_skipn {A} (l : list A) (n : nat) (e : A) :
  nth_error l n = Some e -> skipn n l = e :: skipn (S n) l.
Proof.
  revert n. induction l as [|x l IH]; intros [|n] H; cbn in H; try discriminate.
  - now injection H as ->.
  - cbn [skipn]. now apply IH.
Qed.

Lemma find_file_must ctx p i s o rp :
  find_file ctx p i s = Ok (o, rp) ->
  strlen rp <= PATH_MAX /\
  (rp = read_write_branch ctx +:+ p \/ rp = read_only_branch ctx +:+ p) /\
  (i = MustRW -> rp = read_write_branch ctx +:+ p) /\
  (i = MustRO -> rp = read_only_branch ctx +:+ p).
Proof.
  unfold find_file. destruct (path_to_special ctx p WH) as [wh|]; [|discriminate].
  destruct (exists_at wh s); [discriminate|]. cbn [make_rw_path make_ro_path].
  destruct (PATH_MAX <? strlen (read_write_branch ctx +:+ p)) eqn:L1; [discriminate|].
  apply Z.ltb_ge in L1.
  destruct (match i with MustRO => false | _ => exists_at (read_write_branch ctx +:+ p) s end)
    eqn:E1.
  { intros H; injection H as <- <-. repeat split; auto. intros ->. discriminate E1. }
  destruct (PATH_MAX <? strlen (read_only_branch ctx +:+ p)) eqn:L2; [discriminate|].
  apply Z.ltb_ge in L2.
  destruct (match i with MustRW => false | _ => exists_at (read_only_branch ctx +:+ p) s end)
    eqn:E2; [|discriminate].
  intros H; injection H as <- <-. repeat split; auto. intros ->. discriminate E2.
Qed.

Section ListingOrder.

Variable name_to_ino : string -> Z.
Variable host_dir : string -> result (list dirent).
Variable context : hepunion_sb_info.

Lemma readdir_filled ctx f_pos :
  files_head ctx <> [] ->
  hepunion_readdir name_to_ino host_dir context ctx f_pos =
  match nth_error (files_head ctx) (Z.to_nat f_pos) with
  | Some e => if f_pos <? 0 then (0, ctx, f_pos, None)
              else (0, ctx, f_pos + 1, Some (call_of f_pos e))
  | None => (0, ctx, f_pos, None)
  end.
Proof.
  intros Hne. unfold hepunion_readdir.
  destruct (files_head ctx) as [|e0 l] eqn:E; [contradiction|].
  change (0 <? 0) with false. cbv iota. rewrite E, find_entry_nth, Z.sub_0_r.
  destruct (f_pos <? 0); destruct (nth_error _ _); reflexivity.
Qed.

Lemma readdir_all_filled ctx fuel f_pos :
  files_head ctx <> [] -> 0 <= f_pos ->
  readdir_all name_to_ino host_dir context fuel ctx f_pos
  = calls_from f_pos (firstn fuel (skipn (Z.to_nat f_pos) (files_head ctx))).
Proof.
  intros Hne. revert f_pos. induction fuel as [|fuel IH]; intros f_pos Hp.
  - reflexivity.
  - cbn [readdir_all]. rewrite readdir_filled by exact Hne.
    destruct (nth_error (files_head ctx) (Z.to_nat f_pos)) as [e|] eqn:En.
    + destruct (Z.ltb_spec f_pos 0) as [L|_]; [lia|].
      rewrite (nth_error_skipn _ _ _ En). cbn [firstn calls_from]. f_equal.
      rewrite IH by lia. now replace (Z.to_nat (f_pos + 1)) with (S (Z.to_nat f_pos)) by lia.
    + apply nth_error_None in En. rewrite skipn_all2 by exact En.
      now rewrite firstn_nil.
Qed.

End ListingOrder.

Lemma branch_offset (root dpath : string) :
  strlen dpath < 2 ^ 64 ->
  String.substring (String.length root)
    (Z.to_nat (size_t (strlen (root +:+ dpath) - strlen root))) (root +:+ dpath)
  = dpath.
Proof.
  intros H. rewrite strlen_app. replace (strlen root + strlen dpath - strlen root)
    with (strlen dpath) by lia.
  unfold size_t. rewrite Z.mod_small by (pose proof (strlen_nonneg dpath); lia).
  rewrite substring_app_skip. unfold strlen. rewrite Nat2Z.id. apply substring_full.
Qed.

Section ListingInodes.

Variable name_to_ino : string -> Z.
Variable host_dir : string -> result (list dirent).
Variable context : hepunion_sb_info.

Lemma rw_pass_entries dpath es c r c' :
  rw_dir c = read_write_branch context +:+ dpath ->
  rw_len c = strlen (rw_dir c) ->
  strlen dpath < 2 ^ 64 ->
  vfs_readdir (read_rw_branch name_to_ino context) es c = (r, c') ->
  (r <? 0) = false ->
  Forall (entry_of_dir name_to_ino dpath) (files_head c) ->
  Forall (entry_of_dir name_to_ino dpath) (files_head c').
Proof.
  intros Hd Hl Hb. revert c Hd Hl.
  induction es as [|e es IH]; intros c Hd Hl H Hr Hq; cbn in H.
  - now injection H as <- <-.
  - unfold read_rw_branch in H.
    destruct (is_me (de_name e)); [now apply (IH c)|].
    destruct (is_whiteout (de_name e)).
    + destruct (negb (ro_len c =? 0)); [|now apply (IH c)].
      cbn in H. now apply IH in H.
    + destruct (PATH_MAX <? _).
      { cbn in H. injection H as <- _. discriminate Hr. }
      cbn in H. apply IH in H; [exact H|exact Hd|exact Hl|exact Hr|].
      cbn [files_head with_files]. constructor; [|exact Hq].
      split; [|reflexivity]. cbn [rf_ino d_name].
      rewrite Hl, Hd, branch_offset by exact Hb. reflexivity.
Qed.

Lemma ro_pass_entries dpath es c r c' :
  ro_dir c = read_only_branch context +:+ dpath ->
  ro_len c = strlen (ro_dir c) ->
  strlen dpath < 2 ^ 64 ->
  vfs_readdir (read_ro_branch name_to_ino context) es c = (r, c') ->
  (r <? 0) = false ->
  Forall (entry_of_dir name_to_ino dpath) (files_head c) ->
  Forall (entry_of_dir name_to_ino dpath) (files_head c').
Proof.
  intros Hd Hl Hb. revert c Hd Hl.
  induction es as [|e es IH]; intros c Hd Hl H Hr Hq; cbn in H.
  - now injection H as <- <-.
  - unfold read_ro_branch in H.
    destruct (existsb _ (whiteouts_head c)); [now apply (IH c)|].
    destruct (existsb _ (files_head c)); [now apply (IH c)|].
    destruct (PATH_MAX <? _).
    { cbn in H. injection H as <- _. discriminate Hr. }
    cbn in H. apply IH in H; [exact H|exact Hd|exact Hl|exact Hr|].
    cbn [files_head with_files]. constructor; [|exact Hq].
    split; [|reflexivity]. cbn [rf_ino d_name].
    rewrite Hl, Hd, branch_offset by exact Hb. reflexivity.
Qed.

End ListingInodes.

Section Listing.

Variable name_to_ino : string -> Z.
Variable host_dir : string -> result (list dirent).
Variable context : hepunion_sb_info.

(** X1.  After the first [readdir] on a fresh handle has answered 0, a
    name is in the list exactly when the read-write directory has an
    entry of that name that is neither an ME nor a whiteout, or the
    read-only directory has an entry of that name and the read-write
    directory holds no whiteout ".wh.<name>" for it. *)
Theorem readdir_lists_name ctx0 f_pos ctx' f_pos' out (n : string) :
  files_head ctx0 = [] ->
  whiteouts_head ctx0 = [] ->
  hepunion_readdir name_to_ino host_dir context ctx0 f_pos = (0, ctx', f_pos', out) ->
  let rws := map de_name (listing host_dir (rw_len ctx0) (rw_dir ctx0)) in
  let ros := map de_name (listing host_dir (ro_len ctx0) (ro_dir ctx0)) in
  In n (map d_name (files_head ctx')) <->
  (In n rws /\ is_me n = false /\ is_whiteout n = false) \/
  (In n ros /\ ~ In (".wh." +:+ n) rws).
Proof.
  intros Hfiles Hwhs H. apply readdir_fresh in H; [|exact Hfiles|reflexivity].
  exact (listed_names name_to_ino host_dir context ctx0 ctx' n Hfiles Hwhs H).
Qed.

(** X2.  Only the read-write pass skips the reserved names.  A name
    that starts with ".me." or ".wh." is in the list exactly when the
    read-only directory has an entry of that name and no whiteout of the
    read-write directory hides it: the special files of the read-write
    directory are never listed, those of a read-only directory are. *)
Theorem readdir_reserved_name ctx0 f_pos ctx' f_pos' out (n : string) :
  files_head ctx0 = [] ->
  whiteouts_head ctx0 = [] ->
  hepunion_readdir name_to_ino host_dir context ctx0 f_pos = (0, ctx', f_pos', out) ->
  (is_me n || is_whiteout n) = true ->
  let rws := map de_name (listing host_dir (rw_len ctx0) (rw_dir ctx0)) in
  let ros := map de_name (listing host_dir (ro_len ctx0) (ro_dir ctx0)) in
  In n (map d_name (files_head ctx')) <-> In n ros /\ ~ In (".wh." +:+ n) rws.
Proof.
  intros Hfiles Hwhs H Hres rws ros.
  apply readdir_fresh in H; [|exact Hfiles|reflexivity].
  rewrite (listed_names name_to_ino host_dir context ctx0 ctx' n Hfiles Hwhs H).
  fold rws ros. split; [|now right].
  intros [(_ & Hm & Hw)|Hr]; [|exact Hr]. rewrite Hm, Hw in Hres. discriminate Hres.
Qed.

(** X3.  A reader that starts at the cursor 0 and calls [readdir] until
    no entry comes back receives the entries of the list in list order,
    each once, at the offsets 0, 1, 2, ..., and then nothing more; once
    the list is filled, no call changes the handle. *)
Theorem readdir_all_lists_each_entry_once ctx c1 f_pos1 out1 (fuel : nat) :
  hepunion_readdir name_to_ino host_dir context ctx 0 = (0, c1, f_pos1, out1) ->
  readdir_all name_to_ino host_dir context fuel ctx 0
  = calls_from 0 (firstn fuel (files_head c1)) /\
  (files_head c1 <> [] ->
   forall f_pos, fst (fst (hepunion_readdir name_to_ino host_dir context c1 f_pos)) = (0, c1)).
Proof.
  intros H. split.
  - destruct fuel as [|fuel]; [reflexivity|].
    cbn [readdir_all]. rewrite H.
    unfold hepunion_readdir in H.
    destruct (match files_head ctx with [] => _ | _ => _ end) as [e1 c2].
    destruct (e1 <? 0) eqn:L1; [injection H as -> _ _ _; discriminate L1|].
    rewrite find_entry_nth, Z.sub_0_r in H. change (0 <? 0) with false in H.
    cbv iota in H. change (Z.to_nat 0) with 0%nat in H.
    destruct (files_head c2) as [|e l] eqn:E; cbn [nth_error] in H;
      injection H as <- <- <-; rewrite E; [reflexivity|].
    cbn [firstn calls_from]. f_equal.
    rewrite readdir_all_filled; [|rewrite E; discriminate|lia].
    now rewrite E.
  - intros Hne f_pos. rewrite readdir_filled by exact Hne.
    destruct (nth_error _ _); [destruct (f_pos <? 0)|]; reflexivity.
Qed.

(** X4.  [hepunion_readdir] answers 0 or a negative errno.  An error
    can only come from filling the list of a handle whose list is empty;
    then both lists are dropped, no entry is handed out and the cursor
    stays where it was. *)
Theorem readdir_error_drops_lists ctx f_pos err ctx' f_pos' out :
  hepunion_readdir name_to_ino host_dir context ctx f_pos = (err, ctx', f_pos', out) ->
  err <> 0 ->
  err < 0 /\ files_head ctx = [] /\
  files_head ctx' = [] /\ whiteouts_head ctx' = [] /\
  f_pos' = f_pos /\ out = None.
Proof.
  intros H Hne. unfold hepunion_readdir in H.
  destruct (files_head ctx) as [|e0 l] eqn:E.
  - destruct (populate name_to_ino host_dir context ctx) as [e1 c2].
    destruct (e1 <? 0) eqn:L.
    + injection H as <- <- <- <-. apply Z.ltb_lt in L. repeat split; assumption.
    + destruct (find_entry _ _ _) as [[i x]|]; injection H as <- _ _ _; contradiction.
  - change (0 <? 0) with false in H. cbv iota in H.
    destruct (find_entry _ _ _) as [[i x]|]; injection H as <- _ _ _; contradiction.
Qed.

(** X5.  For a handle made by [hepunion_opendir] on the directory
    [dpath], every entry that [readdir] lists carries as its length the
    length of its name, and as its inode number [name_to_ino] of [dpath]
    immediately followed by the name: the two are joined without a
    separator, on both branches. *)
Theorem readdir_entry_ino dpath s h f_pos h' f_pos' out :
  hepunion_opendir context dpath s = Ok h ->
  hepunion_readdir name_to_ino host_dir context h f_pos = (0, h', f_pos', out) ->
  Forall (entry_of_dir name_to_ino dpath) (files_head h').
Proof.
  intros Ho H. unfold hepunion_opendir in Ho.
  destruct (find_file context dpath Any s) as [[o rp]|]; [|discriminate].
  assert (strlen dpath < 2 ^ 64 \/ (rw_len h = 0 /\ ro_len h = 0)) as Hb.
  { destruct (find_file context dpath MustRW s) as [[o1 p1]|] eqn:F1.
    - left. apply find_file_must in F1 as (L & _ & E & _). rewrite (E eq_refl) in L.
      rewrite strlen_app in L. pose proof (strlen_nonneg (read_write_branch context)).
      change PATH_MAX with 4096 in L. lia.
    - destruct (find_file context dpath MustRO s) as [[o2 p2]|] eqn:F2.
      + left. apply find_file_must in F2 as (L & _ & _ & E). rewrite (E eq_refl) in L.
        rewrite strlen_app in L. pose proof (strlen_nonneg (read_only_branch context)).
        change PATH_MAX with 4096 in L. lia.
      + right. injection Ho as <-. split; reflexivity. }
  assert (rw_len h <> 0 ->
          rw_dir h = read_write_branch context +:+ dpath /\ rw_len h = strlen (rw_dir h))
    as Hrw.
  { destruct (find_file context dpath MustRW s) as [[o1 p1]|] eqn:F1.
    - apply find_file_must in F1 as (_ & _ & E & _). specialize (E eq_refl). subst p1.
      destruct (match find_file context dpath MustRO s with Ok _ => _ | Err _ => _ end).
      injection Ho as <-. intros _. split; reflexivity.
    - destruct (match find_file context dpath MustRO s with Ok _ => _ | Err _ => _ end).
      injection Ho as <-. intros N. now contradiction N. }
  assert (ro_len h <> 0 ->
          ro_dir h = read_only_branch context +:+ dpath /\ ro_len h = strlen (ro_dir h))
    as Hro.
  { destruct (match find_file context dpath MustRW s with Ok _ => _ | Err _ => _ end).
    destruct (find_file context dpath MustRO s) as [[o2 p2]|] eqn:F2.
    - apply find_file_must in F2 as (_ & _ & _ & E). specialize (E eq_refl). subst p2.
      injection Ho as <-. intros _. split; reflexivity.
    - injection Ho as <-. intros N. now contradiction N. }
  assert (files_head h = [] /\ whiteouts_head h = []) as [Hf Hw].
  { destruct (match find_file context dpath MustRW s with Ok _ => _ | Err _ => _ end).
    destruct (match find_file context dpath MustRO s with Ok _ => _ | Err _ => _ end).
    injection Ho as <-. split; reflexivity. }
  clear Ho. apply readdir_fresh in H; [|exact Hf|reflexivity].
  unfold populate in H.
  destruct (browse host_dir (rw_len h) (rw_dir h) _ h) as [e1 c1] eqn:B1.
  destruct (e1 <? 0) eqn:L1; [injection H as -> _; discriminate L1|].
  assert (Forall (entry_of_dir name_to_ino dpath) (files_head c1) /\
          ro_len c1 = ro_len h /\ ro_dir c1 = ro_dir h) as (Q1 & Kl & Kd).
  { unfold browse in B1. destruct (Z.eqb_spec (rw_len h) 0) as [Z0|NZ]; cbn [negb] in B1.
    - injection B1 as _ <-. rewrite Hf. repeat split. constructor.
    - destruct (host_dir (rw_dir h)) as [es|e0].
      2:{ injection B1 as _ <-. rewrite Hf. repeat split. constructor. }
      destruct (Hrw NZ) as [Hd Hl]. destruct Hb as [Hb|[Hb _]]; [|contradiction].
      pose proof B1 as B1'.
      apply rw_pass in B1' as ((K1 & K2 & _) & _); [|exact L1].
      split; [|split; assumption].
      eapply rw_pass_entries; eauto. rewrite Hf. constructor. }
  destruct (browse host_dir (ro_len c1) (ro_dir c1) _ c1) as [e2 c2] eqn:B2.
  destruct (e2 <? 0) eqn:L2; [injection H as -> _; discriminate L2|].
  injection H as <-. cbn [files_head with_whiteouts].
  unfold browse in B2. rewrite Kl, Kd in B2.
  destruct (Z.eqb_spec (ro_len h) 0) as [Z0|NZ]; cbn [negb] in B2.
  - now injection B2 as _ <-.
  - destruct (host_dir (ro_dir h)) as [es|e0]; [|now injection B2 as _ <-].
    destruct (Hro NZ) as [Hd Hl]. destruct Hb as [Hb|[_ Hb]]; [|contradiction].
    apply (ro_pass_entries name_to_ino context dpath es c1 e2 c2);
      [congruence | congruence | exact Hb | exact B2 | exact L2 | exact Q1].
Qed.

End Listing.

Lemma readdir_lists_name_witness :
  let r := hepunion_readdir Sample.no_ino Sample.dir_host Sample.ctx Sample.dir_handle 0 in
  In "c" (map d_name (files_head (snd (fst (fst r))))) /\
  ~ In "d" (map d_name (files_head (snd (fst (fst r))))).
Proof.
  cbv zeta.
  pose proof (fun n =>
    readdir_lists_name Sample.no_ino Sample.dir_host Sample.ctx Sample.dir_handle 0
      (snd (fst (fst (hepunion_readdir Sample.no_ino Sample.dir_host Sample.ctx
                        Sample.dir_handle 0))))
      1
      (snd (hepunion_readdir Sample.no_ino Sample.dir_host Sample.ctx Sample.dir_handle 0))
      n eq_refl eq_refl eq_refl) as K.
  cbv zeta in K. split.
  - apply K. right. vm_compute. intuition discriminate.
  - intros H. apply K in H. vm_compute in H. intuition discriminate.
Defined.

Lemma readdir_reserved_name_witness :
  let r := hepunion_readdir Sample.no_ino Sample.special_host Sample.ctx
             Sample.dir_handle 0 in
  In ".me.z" (map d_name (files_head (snd (fst (fst r))))) /\
  ~ In ".me.a" (map d_name (files_head (snd (fst (fst r))))).
Proof.
  cbv zeta.
  pose proof (fun n =>
    readdir_reserved_name Sample.no_ino Sample.special_host Sample.ctx Sample.dir_handle 0
      (snd (fst (fst (hepunion_readdir Sample.no_ino Sample.special_host Sample.ctx
                        Sample.dir_handle 0))))
      1
      (snd (hepunion_readdir Sample.no_ino Sample.special_host Sample.ctx
              Sample.dir_handle 0))
      n eq_refl eq_refl eq_refl) as K.
  cbv zeta in K. split.
  - apply K; [reflexivity|]. vm_compute. intuition discriminate.
  - intros H. apply K in H; [|reflexivity]. vm_compute in H. intuition discriminate.
Defined.

Lemma readdir_all_lists_each_entry_once_witness :
  map fc_name (readdir_all Sample.no_ino Sample.dir_host Sample.ctx 5 Sample.dir_handle 0)
  = ["c"; "b"; "a"].
Proof.
  rewrite (proj1 (readdir_all_lists_each_entry_once Sample.no_ino Sample.dir_host
                    Sample.ctx Sample.dir_handle
                    (snd (fst (fst (hepunion_readdir Sample.no_ino Sample.dir_host
                                      Sample.ctx Sample.dir_handle 0))))
                    1
                    (snd (hepunion_readdir Sample.no_ino Sample.dir_host Sample.ctx
                            Sample.dir_handle 0))
                    5 eq_refl)).
  reflexivity.
Defined.

Lemma readdir_error_drops_lists_witness :
  let r := hepunion_readdir Sample.no_ino Sample.dir_host Sample.ctx
             Sample.stale_handle 0 in
  fst (fst (fst r)) = - ENOENT /\ files_head (snd (fst (fst r))) = [] /\ snd r = None.
Proof.
  cbv zeta.
  destruct (readdir_error_drops_lists Sample.no_ino Sample.dir_host Sample.ctx
              Sample.stale_handle 0 (- ENOENT)
              (snd (fst (fst (hepunion_readdir Sample.no_ino Sample.dir_host Sample.ctx
                                Sample.stale_handle 0))))
              0 None eq_refl) as (_ & _ & H1 & _ & _ & _); [discriminate|].
  split; [reflexivity|]. split; [exact H1|reflexivity].
Defined.

Lemma readdir_entry_ino_witness :
  exists h,
    hepunion_opendir Sample.ctx "/dir" Sample.both_dir = Ok h /\
    Forall (entry_of_dir Sample.length_ino "/dir")
      (files_head (snd (fst (fst (hepunion_readdir Sample.length_ino Sample.dir_host
                                    Sample.ctx h 0))))).
Proof.
  exists Sample.dir_handle. split; [reflexivity|].
  apply (readdir_entry_ino Sample.length_ino Sample.dir_host Sample.ctx "/dir"
           Sample.both_dir Sample.dir_handle 0 _ 1
           (snd (hepunion_readdir Sample.length_ino Sample.dir_host Sample.ctx
                   Sample.dir_handle 0)));
    reflexivity.
Defined.

(** ** What [set_me_worker] leaves behind *)

Lemma apply_attr_none (a : iattr) (k : kstat) :
  ia_valid a = 0 -> apply_attr a k = k.
Proof. intros H. unfold apply_attr. rewrite H. now destruct k. Qed.

Lemma set_me_worker_effect ctx p rp (attr : iattr) j s s' :
  branches_apart ctx ->
  find_file ctx p Any s = Ok (READ_ONLY, rp) ->
  set_me_worker ctx p rp attr j s = (0, s') ->
  exists mp D M',
    path_to_special ctx p ME = Ok mp /\
    lstat rp s = Ok D /\ lstat rp s' = Ok D /\
    find_file ctx p Any s' = Ok (READ_ONLY, rp) /\
    lstat mp s' = Ok M' /\
    match lstat mp s with
    | Ok M => M' = apply_attr (with_valid attr (Z.land (ia_valid attr) ME_ATTRS)) M
    | Err _ => M' = new_me_stat attr D (fs_now s)
    end.
Proof.
  intros Hapart Hf Hrun.
  pose proof Hf as Hf'.
  apply find_file_read_only in Hf' as (-> & Hro & Hrw & wh & Hwh & Hnowh).
  destruct (path_to_special_kind _ _ _ ME _ Hwh) as [mp Hmp].
  destruct (path_to_special_rw _ _ _ _ Hmp) as (xm & Exm & Lxm).
  destruct (path_to_special_rw _ _ _ _ Hwh) as (xw & Exw & Lxw).
  assert (mp <> wh) as Hmw by (eapply me_ne_wh; eauto).
  assert (read_write_branch ctx +:+ p <> mp) as Hrm.
  { intros E. symmetry in E. revert E. now apply (special_ne_rw ctx p ME). }
  assert (read_only_branch ctx +:+ p <> mp) as Hom.
  { rewrite Exm. now apply branches_apart_ne. }
  apply exists_at_lstat in Hro as [D HD].
  exists mp, D.
  (* a state that agrees with [s] on the names of the resolution *)
  assert (forall s2,
            fs_nodes s2 !! wh = fs_nodes s !! wh ->
            fs_nodes s2 !! (read_write_branch ctx +:+ p)
            = fs_nodes s !! (read_write_branch ctx +:+ p) ->
            fs_nodes s2 !! (read_only_branch ctx +:+ p)
            = fs_nodes s !! (read_only_branch ctx +:+ p) ->
            lstat (read_only_branch ctx +:+ p) s2 = Ok D /\
            find_file ctx p Any s2 = Ok (READ_ONLY, read_only_branch ctx +:+ p)) as Hshow.
  { intros s2 Kwh Krw Kro. split.
    - rewrite (lstat_same _ s s2) by exact Kro. exact HD.
    - rewrite <- Hf. apply find_file_ext.
      + intros wh' Hwh'. rewrite Hwh in Hwh'. inversion Hwh'; subst wh'.
        now apply exists_at_same.
      + now apply exists_at_same.
      + now apply exists_at_same. }
  unfold set_me_worker in Hrun. unfold find_me in Hrun. rewrite Hmp in Hrun.
  destruct (lstat mp s) as [M|e0] eqn:HM.
  - (* the ME exists *)
    unfold open_worker in Hrun. pose proof HM as HM'.
    apply lstat_lookup in HM' as (nm & Hnm & HnM). rewrite Hnm in Hrun.
    cbn [ia_valid with_valid] in Hrun.
    destruct (Z.land (ia_valid attr) ME_ATTRS =? 0) eqn:Hz; cbn [negb] in Hrun.
    + injection Hrun as <-. exists M.
      destruct (Hshow s eq_refl eq_refl eq_refl) as [K1 K2].
      split; [exact Hmp|]. split; [exact HD|]. split; [exact HD|].
      split; [exact K2|]. split; [exact HM|].
      symmetry. apply apply_attr_none. cbn [ia_valid with_valid]. now apply Z.eqb_eq.
    + apply notify_change_ok in Hrun as (_ & Hfr & Hn). rewrite Hnm in Hn.
      destruct Hn as [_ Hn]. rewrite HnM in Hn.
      eexists.
      destruct (Hshow s') as [K1 K2];
        [apply Hfr; congruence | apply Hfr; exact Hrm | apply Hfr; exact Hom|].
      split; [exact Hmp|]. split; [exact HD|]. split; [exact K1|].
      split; [exact K2|]. split; [apply lstat_lookup; eauto|]. reflexivity.
  - (* the ME is created *)
    rewrite HD in Hrun.
    destruct (find_path ctx p s) as [[rp|e1] s1] eqn:Hfp.
    2:{ apply find_path_frame in Hfp as (_ & _ & _ & _ & He). specialize (He e1 eq_refl).
        inversion Hrun; lia. }
    apply find_path_frame in Hfp as (Henv & Hpres & Hfr1 & _ & _).
    destruct (creat_worker mp _ s1) as [[fd|e2] s2] eqn:Hcw.
    2:{ apply creat_worker_err in Hcw as [_ He]. inversion Hrun; lia. }
    apply creat_worker_ok in Hcw as (-> & _ & Hfr2 & k & Hk & _ & _ & Hnew).
    assert (fs_nodes s1 !! mp = None) as Hnone.
    { rewrite Exm, Hfr1 by exact Lxm. rewrite <- Exm.
      unfold lstat in HM. now destruct (fs_nodes s !! mp). }
    rewrite Hnone in Hnew.
    apply notify_change_ok in Hrun as (_ & Hfr3 & Hn).
    apply lstat_lookup in Hk as (nk & Hnk & HnK). rewrite Hnk in Hn.
    destruct Hn as [_ Hn].
    pose proof (new_me_update attr D (n_stat nk)) as Hup. cbv zeta in Hup.
    cbv zeta in Hn. rewrite Hup in Hn. clear Hup.
    eexists.
    destruct (Hshow s') as [K1 K2].
    { rewrite Hfr3, Hfr2 by congruence. rewrite Exw. apply Hfr1. exact Lxw. }
    { rewrite Hfr3, Hfr2 by exact Hrm. apply Hfr1. lia. }
    { rewrite Hfr3, Hfr2 by exact Hom. apply lstat_lookup in HD as (nd & Hnd & _).
      rewrite Hnd. now apply Hpres. }
    split; [exact Hmp|]. split; [exact HD|]. split; [exact K1|].
    split; [exact K2|]. split; [apply lstat_lookup; eauto|].
    unfold new_me_stat. cbv zeta. rewrite HnK, Hnew.
    cbn [fresh_stat st_mode st_size st_ctime ia_valid ia_mode with_valid].
    destruct Henv as (_ & _ & -> & _).
    rewrite has_attr_mode.
    replace (Z.testbit (Z.land (ia_valid attr) ME_ATTRS) 0)
      with (Z.testbit (ia_valid attr) 0) by (flag_bits; reflexivity).
    f_equal. f_equal. unfold clear_mode_flags. change S_IALLUGO with VALID_MODES_MASK.
    now rewrite <- Z.land_assoc, Z.land_diag.
Qed.

Lemma new_me_mode (x : Z) :
  clear_mode_flags (Z.lor (Z.land x VALID_MODES_MASK) S_IFREG) = Z.land x VALID_MODES_MASK.
Proof.
  unfold clear_mode_flags. bitwise i.
  assert (Z.testbit S_IFREG i && Z.testbit VALID_MODES_MASK i = false) as D.
  { rewrite <- Z.land_spec. change (Z.land S_IFREG VALID_MODES_MASK) with 0.
    apply Z.bits_0. }
  destruct (Z.testbit x i), (Z.testbit VALID_MODES_MASK i), (Z.testbit S_IFREG i);
    try reflexivity; discriminate.
Qed.

(** X6.  A [setattr] that answers 0 on a path that resolves on the
    read-only branch never copies the file up and never touches it:
    afterwards the path still resolves on the read-only branch at the
    same concrete path, the read-only file has the stat it had, the
    read-write branch has no file under the path, and an ME exists. *)
Theorem setattr_read_only_keeps_file ctx dpath (attr : iattr) j s s' real_path :
  branches_apart ctx ->
  find_file ctx dpath Any s = Ok (READ_ONLY, real_path) ->
  hepunion_setattr ctx dpath attr j s = (0, s') ->
  find_file ctx dpath Any s' = Ok (READ_ONLY, real_path) /\
  lstat real_path s' = lstat real_path s /\
  exists_at (read_write_branch ctx +:+ dpath) s' = false /\
  exists me_path M, find_me ctx dpath s' = MeFound me_path M.
Proof.
  intros Hapart Hf Hrun.
  unfold hepunion_setattr, get_relative_path in Hrun.
  destruct (PATH_MAX <? strlen dpath + 1); [discriminate Hrun|].
  rewrite Hf in Hrun. cbn in Hrun.
  apply set_me_worker_effect in Hrun as (mp & D & M' & Hmp & HD & HD' & Hf' & HM' & _);
    [|assumption..].
  split; [exact Hf'|]. split; [congruence|]. split.
  - now apply find_file_read_only in Hf' as (_ & _ & H & _).
  - exists mp, M'. unfold find_me. now rewrite Hmp, HM'.
Qed.

(** X7.  [set_me] always flags owner and times in pairs, so what it
    stores is what is read back: after a [set_me] that answers 0 on a
    file of the read-only branch, [get_file_attr] shows the alterable
    mode bits, the atime and mtime, and the uid and gid of the given stat
    for the flags MODE, TIME and OWNER that were passed, and for the
    others what it showed before; size and file type stay those of the
    read-only file. *)
Theorem set_me_then_get_file_attr ctx path real_path (kstbuf : kstat) flags j s s' G :
  branches_apart ctx ->
  find_file ctx path Any s = Ok (READ_ONLY, real_path) ->
  get_file_attr ctx path s = Ok G ->
  set_me ctx path real_path kstbuf flags j s = (0, s') ->
  exists G', get_file_attr ctx path s' = Ok G' /\
             same_visible G' (after_set_me kstbuf flags G).
Proof.
  intros Hapart Hf HG Hrun. unfold set_me in Hrun. unfold after_set_me.
  destruct (is_flag_set flags MODE), (is_flag_set flags TIME), (is_flag_set flags OWNER);
    cbv zeta in Hrun;
    apply set_me_worker_effect in Hrun
      as (mp & D & M' & Hmp & HD & HD' & Hf' & HM' & Hupd); try assumption;
    unfold get_file_attr in *; rewrite Hf in HG; rewrite Hf';
    unfold get_file_attr_worker, find_me in *; rewrite Hmp in *;
    rewrite HD in HG; rewrite HD', HM';
    (destruct (lstat mp s) as [M|e0];
     injection HG as <-; eexists; (split; [reflexivity|]); subst M';
     [ rewrite masked_update | unfold new_me_stat ];
     unfold same_visible, merge_attr; cbv zeta;
     cbn [st_mode st_uid st_gid st_size st_atime st_mtime st_ctime
          ia_valid ia_mode ia_uid ia_gid ia_atime ia_mtime];
     repeat match goal with
       | |- context [Z.testbit ?v ?k] =>
           let b := eval vm_compute in (Z.testbit v k) in
           change (Z.testbit v k) with b
       end;
     cbn [andb]; repeat split;
     first [ apply mode_update_existing
           | rewrite new_me_mode; reflexivity
           | rewrite new_me_mode; apply merge_mode_same
           | reflexivity ]).
Qed.

(** X8.  When [set_me_worker] has to create the ME, the ME it leaves is
    an empty regular file stamped with the current time; its permission
    bits are the requested ones when ATTR_MODE is flagged and those of
    the read-only file otherwise.  It carries the requested uid and gid
    only when the request flags both ATTR_UID and ATTR_GID, and the
    requested atime and mtime only when it flags both ATTR_ATIME and
    ATTR_MTIME; otherwise both values of the pair are those of the
    read-only file. *)
Theorem set_me_worker_creates_me ctx path real_path (attr : iattr) j s s' D :
  branches_apart ctx ->
  find_file ctx path Any s = Ok (READ_ONLY, real_path) ->
  lstat real_path s = Ok D ->
  (forall me_path M, find_me ctx path s <> MeFound me_path M) ->
  set_me_worker ctx path real_path attr j s = (0, s') ->
  exists me_path,
    find_me ctx path s' = MeFound me_path (new_me_stat attr D (fs_now s)).
Proof.
  intros Hapart Hf HD Hno Hrun.
  apply set_me_worker_effect in Hrun as (mp & D' & M' & Hmp & HD1 & _ & _ & HM' & Hupd);
    [|assumption..].
  assert (D' = D) as -> by congruence.
  exists mp. unfold find_me in *. rewrite Hmp in *. rewrite HM'.
  destruct (lstat mp s) as [M|e0]; [now contradiction (Hno mp M)|]. now subst M'.
Qed.

Lemma setattr_read_only_keeps_file_witness :
  let s' := snd (hepunion_setattr Sample.ctx "/a/b.txt" Sample.chmod_chown_request
                   Sample.no_junk Sample.ro_only) in
  find_file Sample.ctx "/a/b.txt" Any s' = Ok (READ_ONLY, "/ro/a/b.txt") /\
  lstat "/ro/a/b.txt" s' = Ok Sample.ro_stat /\
  exists_at "/rw/a/b.txt" s' = false.
Proof.
  cbv zeta.
  destruct (setattr_read_only_keeps_file Sample.ctx "/a/b.txt" Sample.chmod_chown_request
              Sample.no_junk Sample.ro_only
              (snd (hepunion_setattr Sample.ctx "/a/b.txt" Sample.chmod_chown_request
                      Sample.no_junk Sample.ro_only))
              "/ro/a/b.txt" sample_branches_apart eq_refl)
    as (H1 & H2 & H3 & _); [vm_compute; reflexivity|].
  split; [exact H1|]. split; [rewrite H2; reflexivity | exact H3].
Defined.

Lemma set_me_then_get_file_attr_witness :
  exists G',
    get_file_attr Sample.ctx "/a/b.txt"
      (snd (set_me Sample.ctx "/a/b.txt" "/ro/a/b.txt" Sample.me_stat
              (Z.lor MODE OWNER) Sample.no_junk Sample.ro_only)) = Ok G' /\
    same_visible G' (after_set_me Sample.me_stat (Z.lor MODE OWNER) Sample.ro_stat).
Proof.
  apply (set_me_then_get_file_attr Sample.ctx "/a/b.txt" "/ro/a/b.txt" Sample.me_stat
           (Z.lor MODE OWNER) Sample.no_junk Sample.ro_only
           (snd (set_me Sample.ctx "/a/b.txt" "/ro/a/b.txt" Sample.me_stat
                   (Z.lor MODE OWNER) Sample.no_junk Sample.ro_only))
           Sample.ro_stat sample_branches_apart);
    [reflexivity | reflexivity | vm_compute; reflexivity].
Defined.

Lemma set_me_worker_creates_me_witness :
  exists me_path,
    find_me Sample.ctx "/a/b.txt"
      (snd (set_me_worker Sample.ctx "/a/b.txt" "/ro/a/b.txt" Sample.chown_request
              Sample.no_junk Sample.ro_only))
    = MeFound me_path (new_me_stat Sample.chown_request Sample.ro_stat 100) /\
    st_uid (new_me_stat Sample.chown_request Sample.ro_stat 100) = 1000.
Proof.
  destruct (set_me_worker_creates_me Sample.ctx "/a/b.txt" "/ro/a/b.txt"
              Sample.chown_request Sample.no_junk Sample.ro_only
              (snd (set_me_worker Sample.ctx "/a/b.txt" "/ro/a/b.txt" Sample.chown_request
                      Sample.no_junk Sample.ro_only))
              Sample.ro_stat sample_branches_apart eq_refl eq_refl) as [mp H].
  - intros mp M. vm_compute. discriminate.
  - vm_compute. reflexivity.
  - exists mp. split; [exact H | reflexivity].
Defined.

(** ** The earlier [find_me] *)

Lemma rsplit_inv (p d n : string) :
  rsplit p = Some (d, n) -> rsplit n = None /\ exists a, d = a +:+ "/".
Proof.
  revert d n. induction p as [|c p IH]; intros d n H; cbn in H; [discriminate|].
  destruct (rsplit p) as [[d' n']|] eqn:E.
  - injection H as <- <-. destruct (IH _ _ eq_refl) as [Hn [a ->]].
    split; [exact Hn|]. exists (String c a). reflexivity.
  - destruct (Ascii.eqb_spec c "/") as [->|]; [|discriminate].
    injection H as <- <-. split; [exact E|]. exists "". reflexivity.
Qed.

Lemma rsplit_last (a n : string) :
  rsplit n = None -> rsplit (a +:+ "/" +:+ n) = Some (a +:+ "/", n).
Proof.
  intros Hn. induction a as [|c a IH]; unapp; cbn.
  - now rewrite Hn.
  - unapp. now rewrite IH.
Qed.

Lemma rsplit_me_name (n : string) : rsplit n = None -> rsplit (".me." +:+ n) = None.
Proof. intros H. unapp. cbn. now rewrite H. Qed.

Lemma snprintf_fits (size : Z) (src : string) :
  strlen src < size -> PierreFS.snprintf size src = (strlen src, src).
Proof.
  intros H. unfold PierreFS.snprintf. f_equal.
  assert (forall (s : string) (m : nat),
            (String.length s <= m)%nat -> String.substring 0 m s = s) as K.
  { induction s as [|c s IH]; intros [|m] Hm; cbn in *; try reflexivity; try lia.
    f_equal. apply IH. lia. }
  apply K. unfold strlen in H. lia.
Qed.

(** Within the buffer, the earlier [find_me] looks the ME up in the
    directory of the path, under the name prefixed with ".me.". *)
Lemma pierrefs_me_path ctx path s mp :
  strlen (read_write_branch ctx +:+ path) + 4 < PATH_MAX ->
  me_path_of (PierreFS.find_me ctx path s) = Some mp ->
  exists a name,
    path = a +:+ "/" +:+ name /\ rsplit name = None /\
    mp = read_write_branch ctx +:+ a +:+ "/" +:+ ".me." +:+ name.
Proof.
  intros Hfit H. unfold PierreFS.find_me in H.
  destruct (rsplit path) as [[d n]|] eqn:E; [|discriminate].
  pose proof (rsplit_app _ _ _ E) as Hp.
  apply rsplit_inv in E as [Hn [a ->]].
  rewrite snprintf_fits in H.
  2:{ rewrite strlen_app in Hfit. pose proof (strlen_nonneg path). lia. }
  destruct (PATH_MAX <? _); [discriminate|].
  exists a, n. rewrite app_assoc_s in Hp. split; [exact Hp|]. split; [exact Hn|].
  rewrite !app_assoc_s in H.
  destruct (lstat _ s); cbn in H; now injection H as <-.
Qed.

(** X9.  As long as the ME path fits the buffer, the ME that the earlier
    [find_me] looks up sits on the read-write branch in the directory of
    the path, under the name prefixed with ".me.": cutting the ME path at
    its last '/' gives back that directory and ".me.<name>", a name that
    [is_me] recognises. *)
Theorem pierrefs_find_me_sibling ctx path s mp :
  strlen (read_write_branch ctx +:+ path) + 4 < PATH_MAX ->
  me_path_of (PierreFS.find_me ctx path s) = Some mp ->
  exists dir name,
    rsplit path = Some (dir, name) /\
    rsplit mp = Some (read_write_branch ctx +:+ dir, ".me." +:+ name) /\
    is_me (".me." +:+ name) = true.
Proof.
  intros Hfit H. apply pierrefs_me_path in H as (a & n & -> & Hn & ->); [|exact Hfit].
  exists (a +:+ "/"), n. split; [now apply rsplit_last|]. split; [|now destruct n].
  rewrite <- (app_assoc_s (read_write_branch ctx) a).
  rewrite (rsplit_last (read_write_branch ctx +:+ a) (".me." +:+ n))
    by now apply rsplit_me_name.
  now rewrite app_assoc_s.
Qed.

(** X10.  As long as the ME paths fit the buffer, the earlier [find_me]
    never looks up the same ME for two different logical paths. *)
Theorem pierrefs_me_path_injective ctx p1 p2 s1 s2 m1 m2 :
  strlen (read_write_branch ctx +:+ p1) + 4 < PATH_MAX ->
  strlen (read_write_branch ctx +:+ p2) + 4 < PATH_MAX ->
  p1 <> p2 ->
  me_path_of (PierreFS.find_me ctx p1 s1) = Some m1 ->
  me_path_of (PierreFS.find_me ctx p2 s2) = Some m2 ->
  m1 <> m2.
Proof.
  intros F1 F2 Hne H1 H2 E2. apply Hne.
  apply pierrefs_me_path in H1 as (a1 & n1 & -> & Hn1 & E1); [|exact F1].
  apply pierrefs_me_path in H2 as (a2 & n2 & -> & Hn2 & E3); [|exact F2].
  rewrite E1, E3 in E2. apply (inj (String.app _)) in E2.
  apply (f_equal rsplit) in E2.
  rewrite !rsplit_last in E2 by now apply rsplit_me_name.
  injection E2 as Ea En. apply (inj (String.app _)) in En. subst n2.
  rewrite <- !app_assoc_s. now rewrite Ea.
Qed.

Lemma pierrefs_find_me_sibling_witness :
  exists dir name,
    rsplit "/a/b.txt" = Some (dir, name) /\
    rsplit "/rw/a/.me.b.txt" = Some ("/rw" +:+ dir, ".me." +:+ name) /\
    is_me (".me." +:+ name) = true.
Proof.
  apply (pierrefs_find_me_sibling Sample.ctx "/a/b.txt" Sample.ro_with_me
           "/rw/a/.me.b.txt"); [vm_compute; reflexivity | reflexivity].
Defined.

Lemma pierrefs_me_path_injective_witness :
  "/rw/a/.me.b.txt" <> "/rw/a/.me.c.txt".
Proof.
  apply (pierrefs_me_path_injective Sample.ctx "/a/b.txt" "/a/c.txt" Sample.ro_with_me
           Sample.ro_only "/rw/a/.me.b.txt" "/rw/a/.me.c.txt");
    [vm_compute; reflexivity | vm_compute; reflexivity | discriminate
    | reflexivity | reflexivity].
Defined.

(** ** Creating entries *)

Lemma fresh_stat_env s s1 mode size :
  same_env s s1 -> fresh_stat s1 mode size = fresh_stat s mode size.
Proof. intros (_ & _ & Hn & Hu & Hg). unfold fresh_stat. now rewrite Hn, Hu, Hg. Qed.

(** Once the entry is in place and its whiteout is unlinked, the path
    resolves on the read-write branch. *)
Lemma new_entry_resolves ctx path s3 s4 e wh n :
  path_to_special ctx path WH = Ok wh ->
  unlink_whiteout ctx path s3 = (e, s4) ->
  (forall w, fs_nodes s3 !! wh = Some w -> S_ISDIR (st_mode (n_stat w)) = false) ->
  fs_nodes s3 !! (read_write_branch ctx +:+ path) = Some n ->
  fs_nodes s4 !! (read_write_branch ctx +:+ path) = Some n /\
  exists_at wh s4 = false /\
  find_file ctx path Any s4 = Ok (READ_WRITE, read_write_branch ctx +:+ path).
Proof.
  intros Hwh Hu Hnd Hn. apply unlink_whiteout_ok in Hu as (_ & Hfr & Hgone).
  assert (fs_nodes s4 !! (read_write_branch ctx +:+ path) = Some n) as Hn4.
  { rewrite Hfr; [exact Hn|]. intros wh' Hwh' E. rewrite Hwh in Hwh'.
    injection Hwh' as <-. symmetry in E. revert E. now apply (special_ne_rw ctx path WH). }
  specialize (Hgone wh Hwh Hnd).
  split; [exact Hn4|]. split; [exact Hgone|].
  apply (find_file_rw ctx path s4 wh Hwh Hgone).
  apply exists_at_lookup. rewrite Hn4. eauto.
Qed.

(** What [find_path] leaves of the whiteout and of the other names. *)
Lemma find_path_keeps ctx path s r s1 wh :
  find_path ctx path s = (r, s1) ->
  path_to_special ctx path WH = Ok wh ->
  fs_nodes s1 !! wh = fs_nodes s !! wh /\
  fs_nodes s1 !! (read_write_branch ctx +:+ path)
  = fs_nodes s !! (read_write_branch ctx +:+ path).
Proof.
  intros Hfp Hwh. apply find_path_frame in Hfp as (_ & _ & Hfr & _).
  destruct (path_to_special_rw _ _ _ _ Hwh) as (xw & -> & Lxw).
  split; apply Hfr; [exact Lxw | lia].
Qed.

Section CreateType.

Variable hide_directory_contents : hepunion_sb_info -> string -> M Z.

(** X12.  When the name already resolves, on either branch, every
    operation that creates an entry ([create], [symlink], [mknod],
    [mkdir], and [link] once its source resolves) answers [-EEXIST] and
    leaves the branches as they were. *)
Theorem create_type_refuses_existing ctx dir name path s origin real_path :
  get_relative_path_for_file dir name = Ok path ->
  find_file ctx path Any s = Ok (origin, real_path) ->
  (forall mode, hepunion_create ctx dir name mode s = (- EEXIST, s)) /\
  (forall symname, hepunion_symlink ctx dir name symname s = (- EEXIST, s)) /\
  (forall mode rdev, hepunion_mknod ctx dir name mode rdev s = (- EEXIST, s)) /\
  (forall mode,
     hepunion_mkdir hide_directory_contents ctx dir name mode s = (- EEXIST, s)) /\
  (forall old from o rf j,
     get_relative_path old = Ok from ->
     find_file ctx from Any s = Ok (o, rf) ->
     hepunion_link ctx old dir name j s = (- EEXIST, s)).
Proof.
  intros Hp Hf. repeat split; intros.
  - unfold hepunion_create. now rewrite Hp, Hf.
  - unfold hepunion_symlink. now rewrite Hp, Hf.
  - unfold hepunion_mknod. now rewrite Hp, Hf.
  - unfold hepunion_mkdir. now rewrite Hp, Hf.
  - unfold hepunion_link.
    match goal with Ho : get_relative_path _ = _, Hr : find_file _ _ _ _ = Ok (o, rf) |- _ =>
      rewrite Ho, Hr end.
    now rewrite Hp, Hf.
Qed.

End CreateType.

(** What a [create] that answers 0 has done: the file it leaves, the
    whiteout it removes, and the names it does not touch. *)
Lemma hepunion_create_done ctx dir name mode s s' path :
  get_relative_path_for_file dir name = Ok path ->
  hepunion_create ctx dir name mode s = (0, s') ->
  let rw := read_write_branch ctx +:+ path in
  (exists k,
     lstat rw s' = Ok k /\ S_ISREG (st_mode k) = true /\ st_size k = 0 /\
     st_uid k = fs_uid s /\ st_gid k = fs_gid s /\
     (exists_at rw s = false ->
      k = fresh_stat s (Z.lor (Z.land mode S_IALLUGO) S_IFREG) 0)) /\
  (forall wh,
     path_to_special ctx path WH = Ok wh ->
     (forall w, fs_nodes s !! wh = Some w -> S_ISDIR (st_mode (n_stat w)) = false) ->
     exists_at wh s' = false /\ find_file ctx path Any s' = Ok (READ_WRITE, rw)) /\
  (forall q n,
     fs_nodes s !! q = Some n -> q <> rw ->
     (forall wh, path_to_special ctx path WH = Ok wh -> q <> wh) ->
     fs_nodes s' !! q = Some n) /\
  (forall x,
     strlen path <= strlen x -> x <> path ->
     (forall wh, path_to_special ctx path WH = Ok wh -> read_write_branch ctx +:+ x <> wh) ->
     fs_nodes s' !! (read_write_branch ctx +:+ x)
     = fs_nodes s !! (read_write_branch ctx +:+ x)) /\
  same_env s s'.
Proof.
  intros Hp Hrun rw. unfold hepunion_create in Hrun. rewrite Hp in Hrun.
  destruct (find_file ctx path Any s) as [?|e0]; [discriminate Hrun|].
  destruct (find_path ctx path s) as [[rp|e1] s1] eqn:Hfp.
  2:{ apply find_path_frame in Hfp as (_ & _ & _ & _ & He). specialize (He e1 eq_refl).
      injection Hrun as Hrun _. lia. }
  pose proof Hfp as Hfp'.
  apply find_path_frame in Hfp' as (Henv1 & Hpres & Hfr1 & Hrp & _).
  destruct (Hrp rp eq_refl) as [-> _]. fold rw in Hrun.
  destruct (can_create path rw s1 <? 0) eqn:Lc.
  { injection Hrun as Hrun _. rewrite Hrun in Lc. discriminate Lc. }
  destruct (creat_worker rw mode s1) as [[fd|e2] s2] eqn:Hcw.
  2:{ apply creat_worker_err in Hcw as [_ He]. injection Hrun as Hrun _. lia. }
  apply creat_worker_ok in Hcw as (-> & Henv2 & Hfr2 & k & Hk & Hsz & Hreg & Hnew).
  destruct (notify_change rw _ s2) as [e3 s3] eqn:Hnc.
  apply notify_change_ok in Hnc as (Henv3 & Hfr3 & Hn).
  apply lstat_lookup in Hk as (nk & Hnk & HnK). rewrite Hnk in Hn.
  destruct Hn as [-> Hn]. change (0 <? 0) with false in Hrun. cbv iota in Hrun.
  destruct (unlink_whiteout ctx path s3) as [e4 s4] eqn:Hu.
  injection Hrun as <-.
  assert (forall wh, path_to_special ctx path WH = Ok wh ->
            fs_nodes s3 !! wh = fs_nodes s !! wh) as Hwh3.
  { intros wh Hwh. assert (wh <> rw) as Hne by now apply (special_ne_rw ctx path WH).
    rewrite Hfr3, Hfr2 by exact Hne. now apply (find_path_keeps ctx path s _ s1 wh) in Hfp. }
  assert (fs_nodes s4 !! rw = fs_nodes s3 !! rw) as Hrw4.
  { apply unlink_whiteout_ok in Hu as (_ & Hfr & _). apply Hfr.
    intros wh Hwh E. symmetry in E. revert E. now apply (special_ne_rw ctx path WH). }
  split; [|split; [|split; [|split]]].
  - eexists. split; [apply lstat_lookup; rewrite Hrw4, Hn; eauto|].
    cbn [n_stat]. unfold apply_attr.
    cbn [st_mode st_size st_uid st_gid ia_valid ia_uid ia_gid].
    change (has_attr (Z.lor ATTR_UID ATTR_GID) ATTR_MODE) with false.
    change (has_attr (Z.lor ATTR_UID ATTR_GID) ATTR_SIZE) with false.
    change (has_attr (Z.lor ATTR_UID ATTR_GID) ATTR_UID) with true.
    change (has_attr (Z.lor ATTR_UID ATTR_GID) ATTR_GID) with true.
    change (has_attr (Z.lor ATTR_UID ATTR_GID) ATTR_ATIME) with false.
    change (has_attr (Z.lor ATTR_UID ATTR_GID) ATTR_MTIME) with false.
    change (has_attr (Z.lor ATTR_UID ATTR_GID) ATTR_CTIME) with false.
    cbv iota. rewrite HnK.
    destruct Henv1 as (_ & _ & Hn1 & Hu1 & Hg1). destruct Henv2 as (_ & _ & _ & Hu2 & Hg2).
    split; [exact Hreg|]. split; [exact Hsz|]. split; [congruence|]. split; [congruence|].
    intros Hno. unfold rw in Hfr1.
    assert (fs_nodes s1 !! rw = None) as E1.
    { unfold rw in *. rewrite Hfr1 by lia. unfold exists_at in Hno.
      now destruct (fs_nodes s !! (read_write_branch ctx +:+ path)). }
    rewrite E1 in Hnew. rewrite Hnew. unfold fresh_stat.
    cbn [st_mode st_size st_atime st_mtime st_ctime]. now rewrite Hu2, Hg2, Hu1, Hg1, Hn1.
  - intros wh Hwh Hnd.
    eapply (new_entry_resolves ctx path s3 s4 e4 wh) in Hn as (_ & H1 & H2);
      [auto | exact Hwh | exact Hu |].
    intros w Hw. rewrite (Hwh3 wh Hwh) in Hw. now apply Hnd.
  - intros q n Hq Hqrw Hqwh.
    apply unlink_whiteout_ok in Hu as (_ & Hfr & _).
    rewrite Hfr by exact Hqwh. rewrite Hfr3, Hfr2 by exact Hqrw. now apply Hpres.
  - intros x Hx Hxp Hxwh.
    assert (read_write_branch ctx +:+ x <> rw) as Hne.
    { unfold rw. intros E. apply (inj (String.app _)) in E. contradiction. }
    apply unlink_whiteout_ok in Hu as (_ & Hfr & _).
    rewrite Hfr by exact Hxwh. rewrite Hfr3, Hfr2 by exact Hne. now apply Hfr1.
  - apply unlink_whiteout_ok in Hu as (Henv4 & _).
    eauto using same_env_trans.
Qed.








Section MkdirFacts.

Variable hide_directory_contents : hepunion_sb_info -> string -> M Z.

(** What is asked of [hide_directory_contents]: it leaves the directory
    it works on in place. *)
Hypothesis hide_keeps_directory :
  forall ctx path s e s',
    hide_directory_contents ctx path s = (e, s') ->
    fs_nodes s' !! (read_write_branch ctx +:+ path)
    = fs_nodes s !! (read_write_branch ctx +:+ path).


End MkdirFacts.

Lemma create_type_refuses_existing_witness :
  hepunion_create Sample.ctx "" "f" 420 Sample.rw_over_ro = (- EEXIST, Sample.rw_over_ro) /\
  hepunion_symlink Sample.ctx "" "f" "/elsewhere" Sample.rw_over_ro
  = (- EEXIST, Sample.rw_over_ro) /\
  hepunion_mkdir Sample.nothing_to_hide Sample.ctx "" "f" 493 Sample.rw_over_ro
  = (- EEXIST, Sample.rw_over_ro).
Proof.
  destruct (create_type_refuses_existing Sample.nothing_to_hide Sample.ctx "" "f" "/f"
              Sample.rw_over_ro READ_WRITE "/rw/f" eq_refl eq_refl)
    as (H1 & H2 & _ & H4 & _).
  split; [apply H1|]. split; [apply H2 | apply H4].
Defined.





(** ** Removing a directory of the read-write branch *)

Lemma has_entries_true p s :
  has_entries p s = true <->
  exists q n, fs_nodes s !! q = Some n /\ String.prefix (p +:+ "/") q = true.
Proof.
  unfold has_entries. rewrite existsb_exists. split.
  - intros ([q n] & Hin & Hp). exists q, n. split; [|exact Hp].
    apply elem_of_map_to_list. now apply list_elem_of_In.
  - intros (q & n & Hl & Hp). exists (q, n). split; [|exact Hp].
    now apply list_elem_of_In, elem_of_map_to_list.
Qed.

(** The two ways [rmdir] ends: the directory had no entry and is gone, or
    a negative errno and nothing changed. *)
Lemma rmdir_code p s e s1 :
  rmdir p s = (e, s1) ->
  (e = 0 /\ s1 = with_nodes s (delete p (fs_nodes s)) /\ has_entries p s = false /\
   exists n, fs_nodes s !! p = Some n /\ S_ISDIR (st_mode (n_stat n)) = true) \/
  (e < 0 /\ s1 = s).
Proof.
  unfold rmdir. destruct (fs_nodes s !! p) as [n|] eqn:Hn.
  - destruct (S_ISDIR _) eqn:Hd; [destruct (has_entries p s) eqn:Hin|];
      intros H; injection H as <- <-.
    + right. split; [reflexivity|reflexivity].
    + left. repeat split. eauto.
    + right. split; reflexivity.
  - intros H; injection H as <- <-. right. split; reflexivity.
Qed.

Lemma regular_not_directory (m : Z) : S_ISREG m = true -> S_ISDIR m = false.
Proof.
  unfold S_ISREG, S_ISDIR. intros H. apply Z.eqb_eq in H. rewrite H. reflexivity.
Qed.

(** The whiteout that [create_whiteout] leaves is a regular file. *)
Lemma create_whiteout_regular ctx p s wh s' :
  create_whiteout ctx p s = (Ok wh, s') ->
  exists k, lstat wh s' = Ok k /\ S_ISREG (st_mode k) = true.
Proof.
  unfold create_whiteout. destruct (path_to_special ctx p WH) as [wh0|]; [|discriminate].
  destruct (find_path ctx p s) as [[rp|e1] s1]; [|discriminate].
  destruct (creat_worker wh0 S_IRUSR s1) as [[fd|e2] s2] eqn:Hc; [|discriminate].
  intros H; injection H as <- <-.
  apply creat_worker_ok in Hc as (_ & _ & _ & k & Hk & _ & Hreg & _). eauto.
Qed.



(** A read-write directory that holds nothing but an ME counts as empty
    for [is_empty_dir], and the host refuses to remove it: the answer is
    [-ENOTEMPTY] and the directory and the ME stay. *)
Example rmdir_read_write_holding_me :
  let s := Sample.mkfs [("/rw/d", Sample.dir_node);
                        ("/rw/d/.me.x", mk_node Sample.me_stat None)] [] [] in
  is_empty_dir "/d" None (Some "/rw/d") s = 0 /\
  hepunion_rmdir Sample.ctx "" "d" Sample.no_junk s = (- ENOTEMPTY, s).
Proof. cbv zeta. split; reflexivity. Qed.

(** ** Statistics *)

Lemma fsid_halves (seed : Z) :
  u32 seed + 2 ^ 32 * u32 (Z.shiftr seed 32) = seed mod 2 ^ 64.
Proof.
  unfold u32. rewrite Z.shiftr_div_pow2 by lia.
  change (2 ^ 64) with (2 ^ 32 * 2 ^ 32). now rewrite Z.rem_mul_r by lia.
Qed.

Lemma u32_idem (z : Z) : u32 (u32 z) = u32 z.
Proof. unfold u32. apply Z.mod_mod. lia. Qed.

Lemma u32_to_int (z : Z) : u32 (to_int z) = u32 z.
Proof.
  unfold u32, to_int. rewrite Zminus_mod_idemp_l. f_equal. lia.
Qed.

Lemma to_int_range (z : Z) : - 2 ^ 31 <= to_int z < 2 ^ 31.
Proof.
  unfold to_int. pose proof (Z.mod_pos_bound (z + 2 ^ 31) (2 ^ 32)). lia.
Qed.

Section StatfsFacts.

Variable HEPUNION_SEED : Z.
Variable filp_open : string -> result string.
Variable vfs_statfs : string -> kstatfs -> Z * kstatfs.

(** An error pointer carries a negative errno. *)
Hypothesis filp_open_errno : forall p e, filp_open p = Err e -> e < 0.

(** X18.  When [statfs] answers 0, the buffer holds the numbers that the
    host gave for the root of the read-only branch, with the type replaced
    by the magic number of the super block and the two halves of the
    identifier taken from [HEPUNION_SEED].  The halves are stored as
    signed 32-bit numbers, so a half whose top bit is set reads as a
    negative number; their 32 bits, put together again, are the low 64
    bits of the seed. *)
Theorem statfs_marks_read_only_numbers sb_info s_magic (buf : kstatfs) :
  hepunion_statfs HEPUNION_SEED filp_open vfs_statfs sb_info s_magic = (0, buf) ->
  exists filp host,
    filp_open (read_only_branch sb_info) = Ok filp /\
    vfs_statfs filp (mk_kstatfs 0 0 0 0 0 0 0 (0, 0) 0) = (0, host) /\
    f_type buf = s_magic /\
    - 2 ^ 31 <= fst (f_fsid buf) < 2 ^ 31 /\
    - 2 ^ 31 <= snd (f_fsid buf) < 2 ^ 31 /\
    u32 (fst (f_fsid buf)) + 2 ^ 32 * u32 (snd (f_fsid buf)) = HEPUNION_SEED mod 2 ^ 64 /\
    f_bsize buf = f_bsize host /\ f_blocks buf = f_blocks host /\
    f_bfree buf = f_bfree host /\ f_bavail buf = f_bavail host /\
    f_files buf = f_files host /\ f_ffree buf = f_ffree host /\
    f_namelen buf = f_namelen host.
Proof.
  unfold hepunion_statfs. intros H.
  destruct (filp_open (read_only_branch sb_info)) as [filp|e0] eqn:Ho.
  2:{ apply filp_open_errno in Ho. injection H as H _. lia. }
  destruct (vfs_statfs filp _) as [err host] eqn:Hs.
  destruct (Z.eqb_spec err 0) as [->|Hne]; cbn [negb] in H.
  2:{ injection H as H _. contradiction. }
  injection H as <-. exists filp, host.
  cbn [f_type f_fsid f_bsize f_blocks f_bfree f_bavail f_files f_ffree f_namelen fst snd].
  split; [reflexivity|]. split; [exact Hs|]. split; [reflexivity|].
  split; [apply to_int_range|]. split; [apply to_int_range|].
  split; [rewrite !u32_to_int, !u32_idem; apply fsid_halves|].
  repeat split.
Qed.

End StatfsFacts.

Lemma statfs_marks_read_only_numbers_witness :
  let r := hepunion_statfs 81985529216486895 Sample.open_any Sample.stats_of
             Sample.ctx 1234 in
  f_type (snd r) = 1234 /\
  f_fsid (snd r) = (-1985229329, 19088743) /\
  u32 (fst (f_fsid (snd r))) + 2 ^ 32 * u32 (snd (f_fsid (snd r))) = 81985529216486895 /\
  f_blocks (snd r) = 1000.
Proof.
  cbv zeta.
  assert (forall p e, Sample.open_any p = Err e -> e < 0) as Hopen
    by (intros p e H; discriminate H).
  destruct (statfs_marks_read_only_numbers 81985529216486895 Sample.open_any
              Sample.stats_of Hopen Sample.ctx 1234
              (snd (hepunion_statfs 81985529216486895 Sample.open_any Sample.stats_of
                      Sample.ctx 1234)) eq_refl)
    as (filp & host & _ & Hh & Ht & _ & _ & Hf & _ & Hb & _).
  split; [exact Ht|]. split; [reflexivity|]. split; [exact Hf|].
  rewrite Hb. injection Hh as <-. reflexivity.
Defined.

(** ** Opening a directory *)

Lemma rsplit_nonempty (p d n : string) : rsplit p = Some (d, n) -> 0 < strlen p.
Proof. destruct p; [discriminate|]. intros _. unfold strlen. cbn. lia. Qed.

(** X19.  The handle that [hepunion_opendir] makes has two empty lists
    and names at least one branch directory.  For each branch, the length
    kept in the handle is 0 exactly when the directory is not there (or,
    on the read-only branch, when its path is too long); when it is there
    the handle holds the concrete path, and the length is that of the
    path and is not 0, so the length can serve as the presence flag that
    [hepunion_readdir] takes it for. *)
Theorem opendir_handle ctx dpath s h :
  hepunion_opendir ctx dpath s = Ok h ->
  files_head h = [] /\ whiteouts_head h = [] /\
  (rw_len h <> 0 \/ ro_len h <> 0) /\
  (if exists_at (read_write_branch ctx +:+ dpath) s
   then rw_dir h = read_write_branch ctx +:+ dpath /\ rw_len h = strlen (rw_dir h) /\
        0 < rw_len h
   else rw_len h = 0) /\
  (if exists_at (read_only_branch ctx +:+ dpath) s
      && (strlen (read_only_branch ctx +:+ dpath) <=? PATH_MAX)
   then ro_dir h = read_only_branch ctx +:+ dpath /\ ro_len h = strlen (ro_dir h) /\
        0 < ro_len h
   else ro_len h = 0).
Proof.
  unfold hepunion_opendir, find_file.
  destruct (path_to_special ctx dpath WH) as [wh|] eqn:Hwh; [|discriminate].
  assert (0 < strlen dpath) as Hpos.
  { unfold path_to_special in Hwh. destruct (rsplit dpath) as [[d n]|] eqn:E; [|discriminate].
    now apply rsplit_nonempty in E. }
  destruct (exists_at wh s); [discriminate|].
  cbn [make_rw_path make_ro_path].
  destruct (PATH_MAX <? strlen (read_write_branch ctx +:+ dpath)); [discriminate|].
  pose proof (strlen_nonneg (read_write_branch ctx)) as P1.
  pose proof (strlen_nonneg (read_only_branch ctx)) as P2.
  rewrite Z.leb_antisym.
  destruct (exists_at (read_write_branch ctx +:+ dpath) s);
    destruct (PATH_MAX <? strlen (read_only_branch ctx +:+ dpath));
    destruct (exists_at (read_only_branch ctx +:+ dpath) s);
    try discriminate; intros H; injection H as <-;
    cbn [files_head whiteouts_head rw_len ro_len rw_dir ro_dir andb negb];
    rewrite ?strlen_app; repeat split; try reflexivity; try lia;
    try (left; lia); try (right; lia).
Qed.

Lemma opendir_handle_witness :
  exists h,
    hepunion_opendir Sample.ctx "/a" Sample.ro_only = Ok h /\
    rw_len h = 0 /\ ro_dir h = "/ro/a" /\ ro_len h = 5.
Proof.
  exists (mk_opendir_context "/ro/a" 5 "" 0 [] []).
  destruct (opendir_handle Sample.ctx "/a" Sample.ro_only
              (mk_opendir_context "/ro/a" 5 "" 0 [] []) eq_refl)
    as (_ & _ & _ & Hrw & Hro).
  split; [reflexivity|]. split; [exact Hrw|].
  destruct Hro as (Hd & Hl & _). split; [exact Hd | exact Hl].
Defined.

(** ** Attributes of a file of the read-write branch *)



(** ** The names outside the read-write branch *)

Lemma prefix_of_app (a b : string) : String.prefix a (a +:+ b) = true.
Proof.
  induction a as [|c a IH]; unapp; cbn; [now destruct b|].
  destruct (ascii_dec c c); [exact IH | contradiction].
Qed.

Lemma outside_kept_refl ctx s : outside_kept ctx s s.
Proof. now intros q _. Qed.

Lemma outside_kept_trans ctx s1 s2 s3 :
  outside_kept ctx s1 s2 -> outside_kept ctx s2 s3 -> outside_kept ctx s1 s3.
Proof. intros H1 H2 q Hq. now rewrite H2, H1. Qed.

(** A step that changes one name of the read-write branch at most. *)
Lemma kept_but ctx x s s' :
  changes_only (read_write_branch ctx +:+ x) s s' -> outside_kept ctx s s'.
Proof.
  intros H q Hq. apply H. intros ->. now rewrite prefix_of_app in Hq.
Qed.

Lemma changes_only_refl p s : changes_only p s s.
Proof. now intros q _. Qed.

Lemma creat_worker_but p mode s r s1 :
  creat_worker p mode s = (r, s1) -> changes_only p s s1.
Proof.
  destruct r as [fd|e]; intros H.
  - now apply creat_worker_ok in H as (_ & _ & Hf & _).
  - apply creat_worker_err in H as [-> _]. apply changes_only_refl.
Qed.

Lemma notify_change_but p a s e s1 :
  notify_change p a s = (e, s1) -> changes_only p s s1.
Proof. intros H. now apply notify_change_ok in H as (_ & Hf & _). Qed.

Lemma unlink_but p s e s1 :
  unlink p s = (e, s1) -> changes_only p s s1.
Proof. intros H. now apply unlink_ok in H as (_ & Hf & _). Qed.

Lemma rmdir_but p s e s1 :
  rmdir p s = (e, s1) -> changes_only p s s1.
Proof.
  intros H. apply rmdir_code in H as [(_ & -> & _)|(_ & ->)];
    [|apply changes_only_refl].
  intros q Hq. cbn. now rewrite lookup_delete_ne.
Qed.

Lemma symlink_worker_but target p s e s1 :
  symlink_worker target p s = (e, s1) -> changes_only p s s1.
Proof.
  unfold symlink_worker. destruct (fs_nodes s !! p) as [n|]; [|destruct (decide _)];
    intros H; injection H as _ <-; try apply changes_only_refl.
  intros q Hq. cbn. now rewrite lookup_insert_ne.
Qed.

Lemma link_worker_but old p s e s1 :
  link_worker old p s = (e, s1) -> changes_only p s s1.
Proof.
  unfold link_worker. destruct (fs_nodes s !! old) as [n|];
    [destruct (fs_nodes s !! p) as [n'|]; [|destruct (decide _)]|];
    intros H; injection H as _ <-; try apply changes_only_refl.
  intros q Hq. cbn. now rewrite lookup_insert_ne.
Qed.

Lemma new_node_worker_but p mode rdev s e s1 :
  (if S_ISFIFO mode then mkfifo_worker p mode s else mknod_worker p mode rdev s) = (e, s1) ->
  changes_only p s s1.
Proof.
  unfold mkfifo_worker, mknod_worker.
  destruct (S_ISFIFO mode); (destruct (fs_nodes s !! p) as [n|]; [|destruct (decide _)]);
    intros H; injection H as _ <-; try apply changes_only_refl;
    intros q Hq; cbn; now rewrite lookup_insert_ne.
Qed.

Lemma find_path_outside ctx p s r s1 :
  find_path ctx p s = (r, s1) -> outside_kept ctx s s1.
Proof.
  unfold find_path. destruct (rsplit p) as [[d n]|].
  2:{ intros H; injection H as _ <-. apply outside_kept_refl. }
  cbn [make_rw_path]. destruct (PATH_MAX <? _).
  { intros H; injection H as _ <-. apply outside_kept_refl. }
  destruct (make_dirs ctx (dir_prefixes p) s) as [e s2] eqn:Hm.
  apply make_dirs_frame in Hm as (_ & _ & Hf).
  assert (outside_kept ctx s s2) as K.
  { intros q Hq. apply Hf. intros d' _ ->. now rewrite prefix_of_app in Hq. }
  destruct (e <? 0); intros H; injection H as _ <-; exact K.
Qed.

Lemma special_outside ctx p k sp s s' :
  path_to_special ctx p k = Ok sp ->
  changes_only sp s s' -> outside_kept ctx s s'.
Proof.
  intros Hsp H. apply path_to_special_rw in Hsp as (x & -> & _). now apply (kept_but ctx x).
Qed.

Lemma create_whiteout_outside ctx p s r s1 :
  create_whiteout ctx p s = (r, s1) -> outside_kept ctx s s1.
Proof.
  unfold create_whiteout. destruct (path_to_special ctx p WH) as [wh|e0] eqn:Hwh.
  2:{ intros H; injection H as _ <-. apply outside_kept_refl. }
  destruct (find_path ctx p s) as [[rp|e1] s2] eqn:Hfp; apply find_path_outside in Hfp.
  2:{ intros H; injection H as _ <-. exact Hfp. }
  destruct (creat_worker wh S_IRUSR s2) as [fd s3] eqn:Hc.
  apply creat_worker_but in Hc. apply (special_outside ctx p WH wh) in Hc; [|exact Hwh].
  destruct fd; intros H; injection H as _ <-; eapply outside_kept_trans; eauto.
Qed.

Lemma unlink_whiteout_outside ctx p s e s1 :
  unlink_whiteout ctx p s = (e, s1) -> outside_kept ctx s s1.
Proof.
  unfold unlink_whiteout. destruct (path_to_special ctx p WH) as [wh|e0] eqn:Hwh.
  2:{ intros H; injection H as _ <-. apply outside_kept_refl. }
  destruct (exists_at wh s).
  - intros H. apply unlink_but in H. now apply (special_outside ctx p WH wh).
  - intros H; injection H as _ <-. apply outside_kept_refl.
Qed.

Lemma create_me_outside ctx p me_path st s e s1 :
  path_to_special ctx p ME = Ok me_path ->
  create_me me_path st s = (e, s1) -> outside_kept ctx s s1.
Proof.
  intros Hmp H. apply create_me_frame in H as [_ H]. now apply (special_outside ctx p ME me_path).
Qed.

Lemma set_me_worker_outside ctx p rp attr j s e s1 me_path :
  path_to_special ctx p ME = Ok me_path ->
  set_me_worker ctx p rp attr j s = (e, s1) -> outside_kept ctx s s1.
Proof.
  intros Hmp. unfold set_me_worker, find_me. rewrite Hmp.
  destruct (lstat me_path s) as [M|e0].
  - destruct (open_worker me_path s) as [fd|e1] eqn:Ho.
    2:{ intros H; injection H as _ <-. apply outside_kept_refl. }
    assert (fd = me_path) as ->.
    { unfold open_worker in Ho. destruct (fs_nodes s !! me_path); now inversion Ho. }
    destruct (negb _).
    + intros H. apply notify_change_but in H. now apply (special_outside ctx p ME me_path).
    + intros H; injection H as _ <-. apply outside_kept_refl.
  - destruct (lstat rp s) as [D|e1].
    2:{ intros H; injection H as _ <-. apply outside_kept_refl. }
    destruct (find_path ctx p s) as [[rp'|e2] s2] eqn:Hfp; apply find_path_outside in Hfp.
    2:{ intros H; injection H as _ <-. exact Hfp. }
    destruct (creat_worker me_path _ s2) as [[fd|e3] s3] eqn:Hc.
    2:{ apply creat_worker_err in Hc as [-> _]. intros H; injection H as _ <-. exact Hfp. }
    pose proof Hc as Hc'. apply creat_worker_ok in Hc' as (-> & _).
    apply creat_worker_but in Hc. apply (special_outside ctx p ME me_path) in Hc; [|exact Hmp].
    intros H. apply notify_change_but in H.
    apply (special_outside ctx p ME me_path) in H; [|exact Hmp].
    eauto using outside_kept_trans.
Qed.

Lemma resolves_special ctx p i s r k :
  find_file ctx p i s = Ok r -> exists sp, path_to_special ctx p k = Ok sp.
Proof.
  unfold find_file. destruct (path_to_special ctx p WH) as [wh|] eqn:Hwh; [|discriminate].
  intros _. now apply (path_to_special_kind ctx p WH k wh).
Qed.

Lemma prefix_of_app_split (a b x : string) :
  String.prefix a (b +:+ x) = true -> String.prefix a b = true \/ String.prefix b a = true.
Proof.
  revert b. induction a as [|c a IH]; intros b H.
  - left. now destruct b.
  - destruct b as [|c' b]; [right; reflexivity|].
    unapp. cbn in H |- *. destruct (ascii_dec c c') as [->|]; [|discriminate].
    destruct (ascii_dec c' c'); [|contradiction]. now apply IH.
Qed.

Lemma outside_read_only ctx s s' :
  branches_apart ctx -> outside_kept ctx s s' -> read_only_kept ctx s s'.
Proof.
  intros [H1 H2] H x. apply H.
  destruct (String.prefix (read_write_branch ctx) (read_only_branch ctx +:+ x)) eqn:E;
    [|reflexivity].
  apply prefix_of_app_split in E as [E|E]; congruence.
Qed.

Lemma hepunion_create_outside ctx dir name mode s :
  outside_kept ctx s (snd (hepunion_create ctx dir name mode s)).
Proof.
  unfold hepunion_create. destruct (get_relative_path_for_file dir name) as [path|];
    [|apply outside_kept_refl].
  destruct (find_file ctx path Any s) as [?|e0]; [apply outside_kept_refl|].
  destruct (find_path ctx path s) as [[rp|e1] s1] eqn:Hfp.
  2:{ now apply find_path_outside in Hfp. }
  pose proof Hfp as Hfp'. apply find_path_frame in Hfp' as (_ & _ & _ & Hrp & _).
  destruct (Hrp rp eq_refl) as [-> _]. apply find_path_outside in Hfp.
  destruct (can_create _ _ s1 <? 0); [exact Hfp|].
  destruct (creat_worker _ mode s1) as [[fd|e2] s2] eqn:Hc.
  2:{ apply creat_worker_err in Hc as [-> _]. exact Hfp. }
  pose proof Hc as Hc'. apply creat_worker_ok in Hc' as (-> & _).
  apply creat_worker_but, kept_but in Hc.
  destruct (notify_change _ _ s2) as [e3 s3] eqn:Hn. apply notify_change_but, kept_but in Hn.
  destruct (e3 <? 0).
  - destruct (unlink _ s3) as [e4 s4] eqn:Hu. apply unlink_but, kept_but in Hu.
    cbn [snd]. eauto using outside_kept_trans.
  - destruct (unlink_whiteout ctx path s3) as [e4 s4] eqn:Hu.
    apply unlink_whiteout_outside in Hu. cbn [snd]. eauto using outside_kept_trans.
Qed.

Lemma hepunion_symlink_outside ctx dir name symname s :
  outside_kept ctx s (snd (hepunion_symlink ctx dir name symname s)).
Proof.
  unfold hepunion_symlink. destruct (get_relative_path_for_file dir name) as [path|];
    [|apply outside_kept_refl].
  destruct (find_file ctx path Any s) as [?|e0]; [apply outside_kept_refl|].
  cbn [make_rw_path]. destruct (PATH_MAX <? _); [apply outside_kept_refl|].
  destruct (can_create _ _ s <? 0); [apply outside_kept_refl|].
  destruct (find_path ctx path s) as [[rp|e1] s1] eqn:Hfp.
  2:{ now apply find_path_outside in Hfp. }
  pose proof Hfp as Hfp'. apply find_path_frame in Hfp' as (_ & _ & _ & Hrp & _).
  destruct (Hrp rp eq_refl) as [-> _]. apply find_path_outside in Hfp.
  destruct (symlink_worker symname _ s1) as [e2 s2] eqn:Hw.
  apply symlink_worker_but, kept_but in Hw.
  destruct (e2 <? 0); [cbn [snd]; eauto using outside_kept_trans|].
  destruct (unlink_whiteout ctx path s2) as [e4 s4] eqn:Hu.
  apply unlink_whiteout_outside in Hu. cbn [snd]. eauto using outside_kept_trans.
Qed.

Lemma hepunion_mknod_outside ctx dir name mode rdev s :
  outside_kept ctx s (snd (hepunion_mknod ctx dir name mode rdev s)).
Proof.
  unfold hepunion_mknod. destruct (get_relative_path_for_file dir name) as [path|];
    [|apply outside_kept_refl].
  destruct (find_file ctx path Any s) as [?|e0]; [apply outside_kept_refl|].
  destruct (find_path ctx path s) as [[rp|e1] s1] eqn:Hfp.
  2:{ now apply find_path_outside in Hfp. }
  pose proof Hfp as Hfp'. apply find_path_frame in Hfp' as (_ & _ & _ & Hrp & _).
  destruct (Hrp rp eq_refl) as [-> _]. apply find_path_outside in Hfp.
  destruct (if S_ISFIFO mode then _ else _) as [e2 s2] eqn:Hw.
  apply new_node_worker_but, kept_but in Hw.
  destruct (e2 <? 0); [cbn [snd]; eauto using outside_kept_trans|].
  destruct (unlink_whiteout ctx path s2) as [e4 s4] eqn:Hu.
  apply unlink_whiteout_outside in Hu. cbn [snd]. eauto using outside_kept_trans.
Qed.

Lemma hepunion_link_outside ctx old dir name j s :
  outside_kept ctx s (snd (hepunion_link ctx old dir name j s)).
Proof.
  unfold hepunion_link. destruct (get_relative_path old) as [from|];
    [|apply outside_kept_refl].
  destruct (find_file ctx from Any s) as [[origin real_from]|e0]; [|apply outside_kept_refl].
  destruct (get_relative_path_for_file dir name) as [to|]; [|apply outside_kept_refl].
  destruct (find_file ctx to Any s) as [?|e1]; [apply outside_kept_refl|].
  destruct (can_create _ _ s <? 0); [apply outside_kept_refl|].
  destruct (find_path ctx to s) as [[rp|e2] s1] eqn:Hfp.
  2:{ now apply find_path_outside in Hfp. }
  pose proof Hfp as Hfp'. apply find_path_frame in Hfp' as (_ & _ & _ & Hrp & _).
  destruct (Hrp rp eq_refl) as [-> _]. apply find_path_outside in Hfp.
  assert (forall e2 s2,
            (if origin =? READ_ONLY
             then symlink_worker real_from (read_write_branch ctx +:+ to) s1
             else let (len, real_to) := make_rw_path ctx to in
                  if PATH_MAX <? len then (- ENAMETOOLONG, s1)
                  else link_worker real_from real_to s1) = (e2, s2) ->
            outside_kept ctx s1 s2) as Hstep.
  { intros e2 s2. destruct (origin =? READ_ONLY).
    - intros Hw. now apply symlink_worker_but, kept_but in Hw.
    - cbn [make_rw_path]. destruct (PATH_MAX <? _).
      + intros H; injection H as _ <-. apply outside_kept_refl.
      + intros Hw. now apply link_worker_but, kept_but in Hw. }
  destruct (if origin =? READ_ONLY then _ else _) as [e3 s2].
  pose proof (Hstep e3 s2 eq_refl) as Hw.
  destruct (e3 <? 0); [cbn [snd]; eauto using outside_kept_trans|].
  destruct (unlink_whiteout ctx to s2) as [e4 s4] eqn:Hu.
  apply unlink_whiteout_outside in Hu. cbn [snd]. eauto using outside_kept_trans.
Qed.

(** X21.  With the two branch roots apart, no operation that creates an
    entry ([create], [symlink], [mknod], [link]) changes a name of the
    read-only branch, whatever its answer: what they write, they write
    under the read-write root. *)
Theorem create_type_keeps_read_only ctx dir name s :
  branches_apart ctx ->
  (forall mode, read_only_kept ctx s (snd (hepunion_create ctx dir name mode s))) /\
  (forall symname, read_only_kept ctx s (snd (hepunion_symlink ctx dir name symname s))) /\
  (forall mode rdev, read_only_kept ctx s (snd (hepunion_mknod ctx dir name mode rdev s))) /\
  (forall old j, read_only_kept ctx s (snd (hepunion_link ctx old dir name j s))).
Proof.
  intros Ha. repeat split; intros; apply outside_read_only; try exact Ha.
  - apply hepunion_create_outside.
  - apply hepunion_symlink_outside.
  - apply hepunion_mknod_outside.
  - apply hepunion_link_outside.
Qed.

Lemma resolved_read_write ctx p s o rp :
  find_file ctx p Any s = Ok (o, rp) ->
  ((o =? READ_WRITE) || (o =? READ_WRITE_COPYUP)) = true ->
  rp = read_write_branch ctx +:+ p.
Proof.
  intros Hf Ho. apply find_file_any in Hf as [_ [[-> _]|[_ ->]]]; [discriminate Ho|reflexivity].
Qed.

Lemma hepunion_setattr_outside ctx dpath attr j s :
  outside_kept ctx s (snd (hepunion_setattr ctx dpath attr j s)).
Proof.
  unfold hepunion_setattr. destruct (get_relative_path dpath) as [path|];
    [|apply outside_kept_refl].
  destruct (find_file ctx path Any s) as [[o rp]|e0] eqn:Hf; [|apply outside_kept_refl].
  destruct ((o =? READ_WRITE) || (o =? READ_WRITE_COPYUP)) eqn:Ho.
  - apply (resolved_read_write ctx path s o rp Hf) in Ho. subst rp.
    unfold get_path_dentry. destruct (fs_nodes s !! _); [|apply outside_kept_refl].
    destruct (notify_change _ attr s) as [e1 s1] eqn:Hn.
    now apply notify_change_but, kept_but in Hn.
  - destruct (resolves_special ctx path Any s _ ME Hf) as [mp Hmp].
    destruct (set_me_worker ctx path rp attr j s) as [e1 s1] eqn:Hw.
    now apply (set_me_worker_outside ctx path rp attr j s e1 s1 mp) in Hw.
Qed.

(** The whiteout, with the ME put back when the whiteout fails: the end
    of the read-only cases of [hepunion_unlink] and [hepunion_rmdir]. *)
Lemma whiteout_or_restore_outside ctx path (j : junk) s mp :
  path_to_special ctx path ME = Ok mp ->
  outside_kept ctx s
    (snd (match find_me ctx path s with
          | MeFound me_path kstbuf =>
              let '(err, s1) := unlink me_path s in
              if err <? 0 then (err, s1)
              else
                let '(r, s2) := create_whiteout ctx path s1 in
                match r with
                | Err e => let '(_, s3) := create_me me_path kstbuf s2 in (e, s3)
                | Ok _ => (0, s2)
                end
          | MeMissing me_path _ =>
              let '(r, s1) := create_whiteout ctx path s in
              match r with
              | Err e =>
                  if negb (junk_int j =? 0)
                  then let '(_, s2) := create_me me_path (junk_stat j) s1 in (e, s2)
                  else (e, s1)
              | Ok _ => (0, s1)
              end
          | MeNoPath _ =>
              let '(r, s1) := create_whiteout ctx path s in
              match r with
              | Err e =>
                  if negb (junk_int j =? 0)
                  then let '(_, s2) := create_me (junk_path j) (junk_stat j) s1 in (e, s2)
                  else (e, s1)
              | Ok _ => (0, s1)
              end
          end)).
Proof.
  intros Hmp. unfold find_me. rewrite Hmp. destruct (lstat mp s) as [M|e0].
  - destruct (unlink mp s) as [e1 s1] eqn:Hu.
    apply unlink_but, (special_outside ctx path ME mp) in Hu; [|exact Hmp].
    destruct (e1 <? 0); [exact Hu|].
    destruct (create_whiteout ctx path s1) as [[wh|e2] s2] eqn:Hc;
      apply create_whiteout_outside in Hc; [cbn [snd]; eauto using outside_kept_trans|].
    destruct (create_me mp M s2) as [e3 s3] eqn:Hm.
    apply (create_me_outside ctx path) in Hm; [|exact Hmp].
    cbn [snd]. eauto using outside_kept_trans.
  - destruct (create_whiteout ctx path s) as [[wh|e2] s2] eqn:Hc;
      apply create_whiteout_outside in Hc; [exact Hc|].
    destruct (negb _); [|exact Hc].
    destruct (create_me mp (junk_stat j) s2) as [e3 s3] eqn:Hm.
    apply (create_me_outside ctx path) in Hm; [|exact Hmp].
    cbn [snd]. eauto using outside_kept_trans.
Qed.

Lemma hepunion_unlink_outside ctx dir name j s :
  outside_kept ctx s (snd (hepunion_unlink ctx dir name j s)).
Proof.
  unfold hepunion_unlink. destruct (get_relative_path_for_file dir name) as [path|];
    [|apply outside_kept_refl].
  destruct (find_file ctx path Any s) as [[o rp]|e0] eqn:Hf; [|apply outside_kept_refl].
  destruct ((o =? READ_WRITE_COPYUP) || (o =? READ_WRITE)) eqn:Ho.
  - rewrite orb_comm in Ho. apply (resolved_read_write ctx path s o rp Hf) in Ho. subst rp.
    unfold unlink_rw_file. destruct (unlink _ s) as [e1 s1] eqn:Hu.
    apply unlink_but, kept_but in Hu. destruct (e1 <? 0); [exact Hu|].
    destruct (find_file ctx path MustRO s1); [|exact Hu].
    destruct (create_whiteout ctx path s1) as [[wh|e2] s2] eqn:Hc;
      apply create_whiteout_outside in Hc; cbn [snd]; eauto using outside_kept_trans.
  - destruct (o =? READ_ONLY); [|apply outside_kept_refl].
    destruct (can_remove _ _ s <? 0); [apply outside_kept_refl|].
    destruct (resolves_special ctx path Any s _ ME Hf) as [mp Hmp].
    exact (whiteout_or_restore_outside ctx path j s mp Hmp).
Qed.

(** [hepunion_rmdir] leaves the names outside the read-write branch
    alone, except on one path: the host [rmdir] fails and the read-only
    branch has no such directory, so that [unlink] is run on [wh_path],
    which nothing has written. *)
Lemma hepunion_rmdir_outside ctx dir name j s e s' :
  hepunion_rmdir ctx dir name j s = (e, s') ->
  outside_kept ctx s s' \/
  (exists path rp,
     get_relative_path_for_file dir name = Ok path /\
     find_file ctx path Any s = Ok (READ_WRITE, rp) /\
     (forall r, find_file ctx path MustRO s <> Ok r) /\
     rmdir rp s = (e, s) /\ e < 0 /\
     s' = snd (unlink (junk_path j) s)).
Proof.
  intros Hrun. unfold hepunion_rmdir in Hrun.
  destruct (get_relative_path_for_file dir name) as [path|] eqn:Hp.
  2:{ injection Hrun as _ <-. left. apply outside_kept_refl. }
  destruct (find_file ctx path Any s) as [[o rp]|e0] eqn:Hf.
  2:{ injection Hrun as _ <-. left. apply outside_kept_refl. }
  destruct ((o =? READ_WRITE_COPYUP) || (o =? READ_WRITE)) eqn:Ho.
  - pose proof Hf as Hf'.
    apply find_file_any in Hf' as [_ [[-> _]|[-> ->]]]; [discriminate Ho|].
    destruct (can_remove _ _ s <? 0).
    { injection Hrun as _ <-. left. apply outside_kept_refl. }
    destruct (is_empty_dir _ _ _ s <? 0).
    { injection Hrun as _ <-. left. apply outside_kept_refl. }
    destruct (find_file ctx path MustRO s) as [[o' ro]|e1] eqn:Hro.
    + left. destruct (create_whiteout ctx path s) as [[wh|e2] s1] eqn:Hc.
      2:{ injection Hrun as _ <-. now apply create_whiteout_outside in Hc. }
      pose proof Hc as Hc'. apply create_whiteout_frame in Hc' as (_ & _ & _ & Hwh & _).
      apply create_whiteout_outside in Hc.
      destruct (rmdir _ s1) as [e3 s2] eqn:Hr. apply rmdir_but, kept_but in Hr.
      destruct (e3 <? 0); injection Hrun as _ <-; [|eauto using outside_kept_trans].
      destruct (unlink wh s2) as [e4 s3] eqn:Hu.
      apply unlink_but, (special_outside ctx path WH wh) in Hu; [|exact Hwh].
      cbn [snd]. eauto using outside_kept_trans.
    + destruct (rmdir _ s) as [e3 s2] eqn:Hr. pose proof Hr as Hr'.
      apply rmdir_code in Hr' as [(-> & -> & _)|(Hneg & ->)].
      * change (0 <? 0) with false in Hrun. cbv iota in Hrun. injection Hrun as _ <-.
        left. apply (kept_but ctx path). intros q Hq. cbn. now rewrite lookup_delete_ne.
      * apply Z.ltb_lt in Hneg as Hlt. rewrite Hlt in Hrun. injection Hrun as <- <-.
        right. exists path, (read_write_branch ctx +:+ path).
        split; [reflexivity|]. split; [exact Hf|]. split; [intros r; now rewrite Hro|].
        split; [exact Hr|]. split; [exact Hneg | reflexivity].
  - left. destruct (o =? READ_ONLY).
    2:{ injection Hrun as _ <-. apply outside_kept_refl. }
    destruct (can_remove _ _ s =? 0).
    { injection Hrun as _ <-. apply outside_kept_refl. }
    destruct (is_empty_dir _ _ _ s <? 0).
    { injection Hrun as _ <-. apply outside_kept_refl. }
    destruct (resolves_special ctx path Any s _ ME Hf) as [mp Hmp].
    rewrite <- (f_equal snd Hrun : snd _ = s').
    exact (whiteout_or_restore_outside ctx path j s mp Hmp).
Qed.

(** X22.  With the two branch roots apart, [setattr] never changes a
    name of the read-only branch, whatever its answer: the attributes of
    a read-only file are changed in its ME. *)
Theorem setattr_keeps_read_only ctx dpath (attr : iattr) j s :
  branches_apart ctx ->
  read_only_kept ctx s (snd (hepunion_setattr ctx dpath attr j s)).
Proof. intros Ha. apply outside_read_only; [exact Ha | apply hepunion_setattr_outside]. Qed.

(** X23.  With the two branch roots apart, [unlink] never changes a name
    of the read-only branch, whatever its answer: a read-only file is
    hidden by a whiteout, not removed.  Neither does [rmdir], except on
    one path: the path resolves on the read-write branch, the read-only
    branch has no such directory and the host [rmdir] fails.  There
    [unlink] is run on [wh_path], which nothing has written, and what
    that removes depends on what the buffer happens to hold. *)
Theorem removal_keeps_read_only ctx dir name j s :
  branches_apart ctx ->
  read_only_kept ctx s (snd (hepunion_unlink ctx dir name j s)) /\
  (read_only_kept ctx s (snd (hepunion_rmdir ctx dir name j s)) \/
   exists path rp e,
     get_relative_path_for_file dir name = Ok path /\
     find_file ctx path Any s = Ok (READ_WRITE, rp) /\
     (forall r, find_file ctx path MustRO s <> Ok r) /\
     rmdir rp s = (e, s) /\ e < 0 /\
     hepunion_rmdir ctx dir name j s = (e, snd (unlink (junk_path j) s))).
Proof.
  intros Ha. split.
  - apply outside_read_only; [exact Ha | apply hepunion_unlink_outside].
  - destruct (hepunion_rmdir ctx dir name j s) as [e s'] eqn:Hrun.
    apply hepunion_rmdir_outside in Hrun as [H|(path & rp & Hp & Hf & Hro & Hr & Hneg & ->)].
    + left. now apply outside_read_only.
    + right. exists path, rp, e. repeat split; assumption.
Qed.

(** [rmdir] on a name of the read-write branch that is no directory and
    has no read-only counterpart: the host refuses, and the whiteout
    path, which was never written, is unlinked.  When the buffer happens
    to hold the name of a file of the read-only branch, that file goes. *)
Example rmdir_unlinks_unwritten_path :
  let r := hepunion_rmdir Sample.ctx "" "f" Sample.stray_junk Sample.rw_file_ro_other in
  fst r = - ENOTDIR /\
  exists_at "/ro/other" Sample.rw_file_ro_other = true /\
  exists_at "/ro/other" (snd r) = false.
Proof. vm_compute. repeat split. Qed.

Lemma create_type_keeps_read_only_witness :
  fs_nodes (snd (hepunion_create Sample.ctx "" "alias" 420 Sample.ro_shared_wh))
    !! "/ro/shared"
  = Some (mk_node Sample.ro_stat None) /\
  fs_nodes (snd (hepunion_link Sample.ctx "/shared" "" "alias" Sample.no_junk
                   Sample.ro_shared_wh)) !! "/ro/shared"
  = Some (mk_node Sample.ro_stat None).
Proof.
  destruct (create_type_keeps_read_only Sample.ctx "" "alias" Sample.ro_shared_wh
              sample_branches_apart) as (H1 & _ & _ & H4).
  split.
  - exact (H1 420 "/shared").
  - exact (H4 "/shared" Sample.no_junk "/shared").
Defined.

Lemma setattr_keeps_read_only_witness :
  fs_nodes (snd (hepunion_setattr Sample.ctx "/a/b.txt" Sample.chmod_chown_request
                   Sample.no_junk Sample.ro_only)) !! "/ro/a/b.txt"
  = Some (mk_node Sample.ro_stat None).
Proof.
  exact (setattr_keeps_read_only Sample.ctx "/a/b.txt" Sample.chmod_chown_request
           Sample.no_junk Sample.ro_only sample_branches_apart "/a/b.txt").
Defined.

Lemma removal_keeps_read_only_witness :
  fs_nodes (snd (hepunion_unlink Sample.ctx "/a" "b.txt" Sample.no_junk Sample.ro_only))
    !! "/ro/a/b.txt"
  = Some (mk_node Sample.ro_stat None) /\
  fs_nodes (snd (hepunion_rmdir Sample.ctx "" "dir" Sample.no_junk Sample.both_dir))
    !! "/ro/dir"
  = Some Sample.dir_node.
Proof.
  destruct (removal_keeps_read_only Sample.ctx "/a" "b.txt" Sample.no_junk Sample.ro_only
              sample_branches_apart) as [H1 _].
  destruct (removal_keeps_read_only Sample.ctx "" "dir" Sample.no_junk Sample.both_dir
              sample_branches_apart) as [_ [H2|(path & rp & e & Hp & _ & Hro & _)]].
  - split; [exact (H1 "/a/b.txt") | exact (H2 "/dir")].
  - injection Hp as <-. now destruct (Hro (READ_ONLY, "/ro/dir")).
Defined.

(** ** Creating a name again *)

(** What an [unlink] that answers 0 on a file of the read-only branch
    leaves on the read-write branch: the whiteout, and neither the ME nor
    a file under the path. *)
Lemma unlink_read_only_done ctx dir name j s s1 path rp :
  get_relative_path_for_file dir name = Ok path ->
  find_file ctx path Any s = Ok (READ_ONLY, rp) ->
  hepunion_unlink ctx dir name j s = (0, s1) ->
  exists wh mp k,
    path_to_special ctx path WH = Ok wh /\ path_to_special ctx path ME = Ok mp /\
    lstat wh s1 = Ok k /\ S_ISREG (st_mode k) = true /\
    fs_nodes s1 !! mp = None /\
    fs_nodes s1 !! (read_write_branch ctx +:+ path) = None /\
    same_env s s1.
Proof.
  intros Hp Hf Hrun. unfold hepunion_unlink in Hrun. rewrite Hp, Hf in Hrun.
  change ((READ_ONLY =? READ_WRITE_COPYUP) || (READ_ONLY =? READ_WRITE)) with false in Hrun.
  change (READ_ONLY =? READ_ONLY) with true in Hrun. cbv iota in Hrun.
  apply find_file_read_only in Hf as (-> & Hro & Hrw & wh & Hwh & Hnowh).
  destruct (path_to_special_kind _ _ _ ME _ Hwh) as [mp Hmp].
  destruct (path_to_special_rw _ _ _ _ Hmp) as (xm & Exm & Lxm).
  assert (mp <> wh) as Hmw by (eapply me_ne_wh; eauto).
  assert (wh <> read_write_branch ctx +:+ path) as Hwr
    by now apply (special_ne_rw ctx path WH).
  assert (mp <> read_write_branch ctx +:+ path) as Hmr
    by now apply (special_ne_rw ctx path ME).
  assert (fs_nodes s !! (read_write_branch ctx +:+ path) = None) as Hrw0.
  { unfold exists_at in Hrw. now destruct (fs_nodes s !! _). }
  destruct (can_remove path _ s <? 0) eqn:Lc.
  { injection Hrun as Hrun _. rewrite Hrun in Lc. discriminate Lc. }
  (* the end of every case: the whiteout is created in a state without ME *)
  assert (forall s0 r s2,
            same_env s s0 ->
            fs_nodes s0 !! mp = None ->
            fs_nodes s0 !! (read_write_branch ctx +:+ path) = None ->
            create_whiteout ctx path s0 = (Ok r, s2) ->
            exists wh mp k,
              path_to_special ctx path WH = Ok wh /\ path_to_special ctx path ME = Ok mp /\
              lstat wh s2 = Ok k /\ S_ISREG (st_mode k) = true /\
              fs_nodes s2 !! mp = None /\
              fs_nodes s2 !! (read_write_branch ctx +:+ path) = None /\
              same_env s s2) as Hend.
  { intros s0 r s2 Henv Hm0 Hr0 Hc. pose proof Hc as Hc'.
    apply create_whiteout_frame in Hc' as (Henv' & _ & Hfr & Hwh' & _).
    rewrite Hwh in Hwh'. injection Hwh' as <-.
    apply create_whiteout_regular in Hc as (k & Hk & Hreg).
    exists wh, mp, k. repeat (split; [assumption|]). split; [|split].
    - rewrite Exm, Hfr; [now rewrite <- Exm | exact Lxm |].
      intros w Hw. rewrite Hwh in Hw. injection Hw as <-. now rewrite <- Exm.
    - rewrite Hfr; [exact Hr0 | lia |].
      intros w Hw. rewrite Hwh in Hw. injection Hw as <-. congruence.
    - eauto using same_env_trans. }
  unfold find_me in Hrun. rewrite Hmp in Hrun.
  destruct (lstat mp s) as [M|e0] eqn:HM.
  - destruct (unlink mp s) as [e1 s0] eqn:Hu.
    apply unlink_ok in Hu as (Henv & Hfr & Hgone).
    destruct (e1 <? 0) eqn:L1.
    { injection Hrun as Hrun _. rewrite Hrun in L1. discriminate L1. }
    apply lstat_lookup in HM as (nm & Hnm & _). rewrite Hnm in Hgone.
    destruct (S_ISDIR _).
    { destruct Hgone as [-> _]. discriminate L1. }
    destruct Hgone as [-> Hgone].
    destruct (create_whiteout ctx path s0) as [[r|e2] s2] eqn:Hc.
    + injection Hrun as <-.
      apply (Hend s0 r s2 Henv Hgone); [rewrite Hfr; [exact Hrw0 | congruence] | exact Hc].
    + destruct (create_me mp _ s2) as [e3 s3]. injection Hrun as -> _.
      apply create_whiteout_frame in Hc as (_ & _ & _ & Hneg & _). lia.
  - assert (fs_nodes s !! mp = None) as Hm0.
    { unfold lstat in HM. now destruct (fs_nodes s !! mp). }
    destruct (create_whiteout ctx path s) as [[r|e2] s2] eqn:Hc.
    + injection Hrun as <-. exact (Hend s r s2 (same_env_refl s) Hm0 Hrw0 Hc).
    + apply create_whiteout_frame in Hc as (_ & _ & _ & Hneg & _).
      destruct (negb _); [destruct (create_me mp _ s2) as [e3 s3]|];
        injection Hrun as -> _; lia.
Qed.

(** X24.  A file that is created again does not inherit what the file
    it replaces had.  After an [unlink] of a file of the read-only branch
    and a [create] of the same name, both answering 0, the name resolves
    on the read-write branch, no ME is left for it, and [getattr] shows a
    fresh empty file owned by the caller with the permission bits of
    [mode]; the read-only file itself is still there, unchanged. *)
Theorem create_after_unlink_is_fresh ctx dir name j mode s s1 s2 path rp :
  branches_apart ctx ->
  get_relative_path_for_file dir name = Ok path ->
  find_file ctx path Any s = Ok (READ_ONLY, rp) ->
  hepunion_unlink ctx dir name j s = (0, s1) ->
  hepunion_create ctx dir name mode s1 = (0, s2) ->
  find_file ctx path Any s2 = Ok (READ_WRITE, read_write_branch ctx +:+ path) /\
  get_file_attr ctx path s2
  = Ok (fresh_stat s (Z.lor (Z.land mode S_IALLUGO) S_IFREG) 0) /\
  (forall me_path M, find_me ctx path s2 <> MeFound me_path M) /\
  lstat rp s2 = lstat rp s.
Proof.
  intros Ha Hp Hf Hun Hcr.
  pose proof (hepunion_unlink_outside ctx dir name j s) as Ho1. rewrite Hun in Ho1.
  pose proof (hepunion_create_outside ctx dir name mode s1) as Ho2. rewrite Hcr in Ho2.
  cbn [snd] in Ho1, Ho2.
  pose proof (unlink_read_only_done ctx dir name j s s1 path rp Hp Hf Hun)
    as (wh & mp & kw & Hwh & Hmp & Hkw & Hregw & Hm1 & Hr1 & Henv1).
  apply hepunion_create_done with (path := path) in Hcr
    as ((k & Hk & _ & _ & _ & _ & Hnew) & Hres & _ & Hfr & _); [|exact Hp].
  destruct (Hres wh Hwh) as [Hnowh Hf2].
  { intros w Hw. apply lstat_lookup in Hkw as (nw & Hnw & <-).
    rewrite Hnw in Hw. injection Hw as <-. now apply regular_not_directory. }
  assert (fs_nodes s2 !! mp = None) as Hm2.
  { destruct (path_to_special_rw _ _ _ _ Hmp) as (xm & Exm & Lxm). rewrite Exm.
    rewrite Hfr; [now rewrite <- Exm | exact Lxm | |].
    - intros ->. revert Exm. now apply (special_ne_rw ctx path ME).
    - intros w Hw. rewrite Hwh in Hw. injection Hw as <-. rewrite <- Exm.
      eapply me_ne_wh; eauto. }
  rewrite Hnew in Hk by (unfold exists_at; now rewrite Hr1).
  rewrite (fresh_stat_env s s1) in Hk by exact Henv1.
  split; [exact Hf2|]. split; [|split].
  - unfold get_file_attr. rewrite Hf2. unfold get_file_attr_worker, find_me.
    rewrite Hmp, Hk. unfold lstat. now rewrite Hm2.
  - intros me_path M. unfold find_me. rewrite Hmp. unfold lstat. now rewrite Hm2.
  - apply find_file_read_only in Hf as (-> & _).
    apply lstat_same. apply (outside_read_only ctx s s2 Ha).
    eauto using outside_kept_trans.
Qed.

Lemma create_after_unlink_is_fresh_witness :
  let s1 := snd (hepunion_unlink Sample.ctx "/a" "b.txt" Sample.no_junk Sample.ro_with_me) in
  let s2 := snd (hepunion_create Sample.ctx "/a" "b.txt" 384 s1) in
  get_file_attr Sample.ctx "/a/b.txt" s2
  = Ok (fresh_stat Sample.ro_with_me (Z.lor 384 S_IFREG) 0) /\
  lstat "/ro/a/b.txt" s2 = Ok Sample.ro_stat.
Proof.
  cbv zeta.
  destruct (create_after_unlink_is_fresh Sample.ctx "/a" "b.txt" Sample.no_junk 384
              Sample.ro_with_me
              (snd (hepunion_unlink Sample.ctx "/a" "b.txt" Sample.no_junk
                      Sample.ro_with_me))
              (snd (hepunion_create Sample.ctx "/a" "b.txt" 384
                      (snd (hepunion_unlink Sample.ctx "/a" "b.txt" Sample.no_junk
                              Sample.ro_with_me))))
              "/a/b.txt" "/ro/a/b.txt" sample_branches_apart eq_refl eq_refl)
    as (_ & H2 & _ & H4); [vm_compute; reflexivity | vm_compute; reflexivity |].
  split; [exact H2 | rewrite H4; reflexivity].
Defined.

(** ** Looking a name up *)

(** X25.  [lookup] follows the whiteout.  A name that resolves on the
    read-only branch gets the inode numbered after its path; once an
    [unlink] of it has answered 0, the lookup attaches no inode (a
    negative dentry, not an error); and once a [create] of the name has
    answered 0, the lookup finds it again under the same number. *)
Theorem lookup_after_unlink_and_create name_to_ino ctx dir name j mode s s1 s2 path rp :
  get_relative_path_for_file dir name = Ok path ->
  find_file ctx path Any s = Ok (READ_ONLY, rp) ->
  hepunion_unlink ctx dir name j s = (0, s1) ->
  hepunion_create ctx dir name mode s1 = (0, s2) ->
  hepunion_lookup name_to_ino ctx dir name s = LookupInode (name_to_ino path) /\
  hepunion_lookup name_to_ino ctx dir name s1 = LookupNegative /\
  hepunion_lookup name_to_ino ctx dir name s2 = LookupInode (name_to_ino path).
Proof.
  intros Hp Hf Hun Hcr. unfold hepunion_lookup. rewrite Hp, Hf.
  pose proof (unlink_read_only_done ctx dir name j s s1 path rp Hp Hf Hun)
    as (wh & mp & kw & Hwh & _ & Hkw & Hregw & _).
  assert (exists_at wh s1 = true) as Hex by (apply exists_at_lstat; eauto).
  rewrite (whiteout_hides ctx path wh s1 Any Hwh Hex).
  apply hepunion_create_done with (path := path) in Hcr as (_ & Hres & _); [|exact Hp].
  destruct (Hres wh Hwh) as [_ Hf2].
  { intros w Hw. apply lstat_lookup in Hkw as (nw & Hnw & <-).
    rewrite Hnw in Hw. injection Hw as <-. now apply regular_not_directory. }
  rewrite Hf2. rewrite Z.eqb_refl. repeat split.
Qed.

Lemma lookup_after_unlink_and_create_witness :
  let s1 := snd (hepunion_unlink Sample.ctx "/a" "b.txt" Sample.no_junk Sample.ro_with_me) in
  let s2 := snd (hepunion_create Sample.ctx "/a" "b.txt" 384 s1) in
  hepunion_lookup Sample.length_ino Sample.ctx "/a" "b.txt" s1 = LookupNegative /\
  hepunion_lookup Sample.length_ino Sample.ctx "/a" "b.txt" s2 = LookupInode 8.
Proof.
  cbv zeta.
  destruct (lookup_after_unlink_and_create Sample.length_ino Sample.ctx "/a" "b.txt"
              Sample.no_junk 384 Sample.ro_with_me
              (snd (hepunion_unlink Sample.ctx "/a" "b.txt" Sample.no_junk
                      Sample.ro_with_me))
              (snd (hepunion_create Sample.ctx "/a" "b.txt" 384
                      (snd (hepunion_unlink Sample.ctx "/a" "b.txt" Sample.no_junk
                              Sample.ro_with_me))))
              "/a/b.txt" "/ro/a/b.txt" eq_refl eq_refl)
    as (_ & H2 & H3); [vm_compute; reflexivity | vm_compute; reflexivity |].
  split; [exact H2 | exact H3].
Defined.
